(** * VisionAi: the emotion history of the React front end

    A shallow embedding of the client-side logic that keeps, charts and
    exports the emotion samples:

    - [App.jsx]: the state container ([currentEmotion], [emotionHistory]),
      [handleEmotionHistory], [handleReset], [handleExportCSV],
      [handleExportJSON];
    - [EmotionChart.jsx]: [chartData] and the per-label [avgValue];
    - [CameraPanel.jsx]: [captureAndDetect] and the sorted emotion bars;
    - [api.js]: [detectEmotion].

    A JavaScript number is [NaN], an infinity or the rational value of a
    double; the result of an operator is the exact result rounded to the
    nearest double ([JS.rounded]). [undefined] is [None]. *)

From Stdlib Require Import List String Ascii Bool ZArith Qpower QArith Qabs.
From Stdlib Require Import Qround Lia Lqa Permutation Sorted.
From Stdlib Require Import DecimalString DecimalPos DecimalN.
From Stdlib Require Decimal DecimalFacts.
Import ListNotations.

Local Open Scope string_scope.

(** ** JavaScript numbers and the operators the components use *)

Module JS.

Inductive number : Type :=
| NaN
| Inf (negative : bool)
| Fin (q : Q).

Definition zero : number := Fin 0.
Definition hundred : number := Fin 100.

Definition Qneg_bool (q : Q) : bool := negb (Qle_bool 0 q).

(** *** The exact results of the operators, before rounding *)

(** The exact sum. *)
Definition add (x y : number) : number :=
  match x, y with
  | NaN, _ | _, NaN => NaN
  | Inf s, Inf t => if Bool.eqb s t then Inf s else NaN
  | Inf s, Fin _ | Fin _, Inf s => Inf s
  | Fin a, Fin b => Fin (a + b)
  end.

Definition neg (x : number) : number :=
  match x with
  | NaN => NaN
  | Inf s => Inf (negb s)
  | Fin a => Fin (- a)
  end.

(** The exact difference. *)
Definition sub (x y : number) : number := add x (neg y).

(** The exact product. *)
Definition mul (x y : number) : number :=
  match x, y with
  | NaN, _ | _, NaN => NaN
  | Inf s, Inf t => Inf (xorb s t)
  | Inf s, Fin a | Fin a, Inf s =>
      if Qeq_bool a 0 then NaN else Inf (xorb s (Qneg_bool a))
  | Fin a, Fin b => Fin (a * b)
  end.

(** The exact quotient; the zero of [Q] stands for [+0]. *)
Definition div (x y : number) : number :=
  match x, y with
  | NaN, _ | _, NaN => NaN
  | Inf _, Inf _ => NaN
  | Inf s, Fin b => Inf (xorb s (Qneg_bool b))
  | Fin _, Inf _ => Fin 0
  | Fin a, Fin b =>
      if Qeq_bool b 0
      then if Qeq_bool a 0 then NaN else Inf (Qneg_bool a)
      else Fin (a / b)
  end.

Definition of_Z (z : Z) : number := Fin (inject_Z z).

Definition of_nat (n : nat) : number := of_Z (Z.of_nat n).

(** *** Rounding to the nearest double *)

(** The exponent [e] of a positive rational: [2^e <= x < 2^(e+1)]. *)
Definition ilog2 (x : Q) : Z :=
  let e := (Z.log2 (Qnum x) - Z.log2 (Zpos (Qden x)))%Z in
  if Qle_bool (2 ^ e) x then e else (e - 1)%Z.

(** The integer nearest to [r], the even one when two are as near. *)
Definition nearest_even (r : Q) : Z :=
  let f := Qfloor r in
  match (r - inject_Z f ?= 1 # 2)%Q with
  | Lt => f
  | Gt => (f + 1)%Z
  | Eq => if Z.even f then f else (f + 1)%Z
  end.

(** The exponent of the unit in the last place of the doubles around a
    positive [a]: 53 significant bits, and [2^-1074] for the subnormal
    ones. *)
Definition quantum (a : Q) : Z := Z.max (ilog2 a - 52) (-1074).

(** The double nearest to [x], ties to the even significand (binary64,
    round to nearest even); from [2^1024 - 2^970] up the result is an
    infinity. *)
Definition round (x : Q) : number :=
  let x := Qred x in
  if Qeq_bool x 0 then Fin 0
  else
    let a := Qabs x in
    let q := quantum a in
    let y := inject_Z (nearest_even (a / 2 ^ q)) * 2 ^ q in
    if Qle_bool (2 ^ 1024) y then Inf (Qneg_bool x)
    else Fin (Qred (if Qneg_bool x then - y else y)).

(** The result of an operator: the exact result, rounded. [x + y] is
    [rounded (add x y)], [x * y] is [rounded (mul x y)], and so on. *)
Definition rounded (x : number) : number :=
  match x with
  | Fin q => round q
  | _ => x
  end.

(** A decimal literal, or a number read from a JSON text: the double
    nearest to the decimal. *)
Definition lit (q : Q) : number := round q.

(** The doubles among the finite numbers: those that rounding leaves as
    they are. *)
Definition isDouble (x : number) : bool :=
  match x with
  | Fin q =>
      match round q with
      | Fin q' => Qeq_bool q' q
      | _ => false
      end
  | _ => false
  end.

(** The finite doubles: a significand of at most 53 bits times a power of
    two from [2^-1074] to [2^971]. *)
Definition binary64 (q : Q) : Prop :=
  exists m e : Z,
    (Z.abs m < 2 ^ 53)%Z /\ (-1074 <= e <= 971)%Z /\ q == inject_Z m * 2 ^ e.

(** Half the distance from 1 to the next double, [2^-53]: the largest
    relative error of a rounding in the normal range. *)
Definition unitRoundoff : Q := 1 # 9007199254740992.

(** Half the smallest positive double, [2^-1075]: the largest error of a
    rounding in the subnormal range. *)
Definition tiny : Q := 2 ^ (-1075).

(** [Number.isFinite(x)] *)
Definition isFinite (x : number) : bool :=
  match x with
  | Fin _ => true
  | _ => false
  end.

(** A property read: [None] is [undefined]. [ToNumber(undefined)] is [NaN]. *)
Definition to_number (v : option number) : number :=
  match v with
  | Some x => x
  | None => NaN
  end.

(** [ToBoolean] on a number or [undefined]: [0], [NaN] and [undefined] are
    falsy. *)
Definition truthy (v : option number) : bool :=
  match v with
  | None | Some NaN => false
  | Some (Inf _) => true
  | Some (Fin q) => negb (Qeq_bool q 0)
  end.

(** [v || 0] *)
Definition or_zero (v : option number) : number :=
  if truthy v then to_number v else zero.

(** *** Decimal digits *)

Definition digits (n : Z) : string :=
  NilZero.string_of_uint (N.to_uint (Z.to_N n)).

Fixpoint zeros (n : nat) : string :=
  match n with
  | O => ""
  | S n' => String "0" (zeros n')
  end.

(** Left padding with ["0"] up to [width] characters. *)
Definition pad_left (width : nat) (s : string) : string :=
  zeros (width - String.length s) ++ s.

Definition string_of_Z (z : Z) : string :=
  if (z <? 0)%Z then "-" ++ digits (- z) else digits z.

(** *** [Number.prototype.toFixed(2)] *)

Definition ten21 : Q := inject_Z (10 ^ 21).

(** The integer [n] for which [n / 100 - x] is closest to zero, the larger
    one when two are as close. *)
Definition nearest_hundredth (x : Q) : Z := Qfloor (x * 100 + (1 # 2)).

Section ToFixed.

(** [Number::toString], which [toFixed] falls back on from [10^21] up: it
    prints the shortest digits that identify the double, and is left to
    the host. *)
Variable NumberToString : Q -> string.

Definition toFixed2_abs (x : Q) : string :=
  if Qle_bool ten21 x then NumberToString x
  else
    let m := pad_left 3 (digits (nearest_hundredth x)) in
    let k := String.length m in
    substring 0 (k - 2) m ++ "." ++ substring (k - 2) 2 m.

Definition toFixed2 (x : number) : string :=
  match x with
  | NaN => "NaN"
  | Inf false => "Infinity"
  | Inf true => "-Infinity"
  | Fin q =>
      if Qneg_bool q then "-" ++ toFixed2_abs (- q) else toFixed2_abs q
  end.

End ToFixed.

(** *** [String.prototype.trim] *)

(** White space and line terminators among the code units below 256, which
    are the code units a [string] holds: TAB, LF, VT, FF, CR, SP, NBSP. *)
Definition isWhiteSpace (c : ascii) : bool :=
  let n := nat_of_ascii c in
  ((9 <=? n) && (n <=? 13) || (n =? 32) || (n =? 160))%nat.

Fixpoint trimStart (s : string) : string :=
  match s with
  | "" => ""
  | String c r => if isWhiteSpace c then trimStart r else s
  end.

Fixpoint trimEnd (s : string) : string :=
  match s with
  | "" => ""
  | String c r =>
      let r' := trimEnd r in
      if isWhiteSpace c && String.eqb r' "" then "" else String c r'
  end.

Definition trim (s : string) : string := trimEnd (trimStart s).

End JS.

(** ** [Date]: time values and [toISOString] *)

Module Date.

Definition msPerDay : Z := 86400000.

(** A time value is valid up to 100,000,000 days from the epoch. *)
Definition valid (t : Z) : bool := (Z.abs t <=? 8640000000000000)%Z.

(** Year, month and day of a day number counted from 1970-01-01. *)
Definition civil (day : Z) : Z * Z * Z :=
  (let z := day + 719468 in
   let era := z / 146097 in
   let doe := z - era * 146097 in
   let yoe := (doe - doe / 1460 + doe / 36524 - doe / 146096) / 365 in
   let doy := doe - (365 * yoe + yoe / 4 - yoe / 100) in
   let mp := (5 * doy + 2) / 153 in
   let d := doy - (153 * mp + 2) / 5 + 1 in
   let m := if mp <? 10 then mp + 3 else mp - 9 in
   let y := yoe + era * 400 + (if m <=? 2 then 1 else 0) in
   (y, m, d))%Z.

Definition fixed (width : nat) (z : Z) : string :=
  JS.pad_left width (JS.digits z).

Definition year_string (y : Z) : string :=
  if ((0 <=? y) && (y <=? 9999))%Z then fixed 4 y
  else if (y <? 0)%Z then "-" ++ fixed 6 (- y)
  else "+" ++ fixed 6 y.

(** [new Date(t).toISOString()]; [None] is the [RangeError] thrown on an
    invalid time value. *)
Definition toISOString (t : Z) : option string :=
  if valid t then
    let '(y, m, d) := civil (t / msPerDay) in
    let ms := (t mod msPerDay)%Z in
    Some (year_string y ++ "-" ++ fixed 2 m ++ "-" ++ fixed 2 d ++ "T"
          ++ fixed 2 (ms / 3600000) ++ ":" ++ fixed 2 (ms / 60000 mod 60)
          ++ ":" ++ fixed 2 (ms / 1000 mod 60) ++ "." ++ fixed 3 (ms mod 1000)
          ++ "Z")
  else None.

End Date.

(** ** The data model *)

(** The seven property names the components read, in the order in which
    [emotionColors] and [emotionEmojis] list them. *)
Inductive label : Type :=
| Happy | Sad | Angry | Surprise | Fear | Disgust | Neutral.

Definition label_name (l : label) : string :=
  match l with
  | Happy => "happy"
  | Sad => "sad"
  | Angry => "angry"
  | Surprise => "surprise"
  | Fear => "fear"
  | Disgust => "disgust"
  | Neutral => "neutral"
  end.

Definition labels : list label :=
  [Happy; Sad; Angry; Surprise; Fear; Disgust; Neutral].

(** An object of scores, such as [all_emotions] of a response: its own
    properties in insertion order, which is the order of [Object.entries]. *)
Definition scores : Type := list (string * JS.number).

(** [o[k]] *)
Fixpoint get (o : scores) (k : string) : option JS.number :=
  match o with
  | [] => None
  | (k', v) :: o' => if String.eqb k' k then Some v else get o' k
  end.

(** An element of [emotionHistory]. *)
Record HistoryEntry : Type := {
  timestamp : Z;
  emotion : string;
  confidence : JS.number;
  emotions : scores
}.

(** [entry.emotions.happy] and the like. *)
Definition score (entry : HistoryEntry) (l : label) : option JS.number :=
  get (emotions entry) (label_name l).

(** ** JSON texts *)

(** A JSON text is kept as the value it denotes; the layout of the text,
    the digits of a number and the escapes of a string are left out. *)
Module JSON.

#[warnings="-register-all"]
Inductive value : Type :=
| JNull
| JNumber (q : Q)
| JString (s : string)
| JArray (elements : list value)
| JObject (members : list (string * value)).

(** A number as [JSON.stringify] writes it: [null] unless it is finite. *)
Definition number (x : JS.number) : value :=
  match x with
  | JS.Fin q => JNumber q
  | _ => JNull
  end.

Fixpoint lookup (k : string) (members : list (string * value))
  : option value :=
  match members with
  | [] => None
  | (k', v) :: members' => if String.eqb k' k then Some v else lookup k members'
  end.

(** The member [k] of an object. *)
Definition field (k : string) (v : value) : option value :=
  match v with
  | JObject members => lookup k members
  | _ => None
  end.

End JSON.

(** ** [App.jsx] *)

Module App.

Record State : Type := {
  currentEmotion : string;
  emotionHistory : list HistoryEntry;
  isAnalyzing : bool;
  inputMode : string;
  selectedVideo : option string
}.

Definition initial : State :=
  {| currentEmotion := "neutral";
     emotionHistory := [];
     isAnalyzing := true;
     inputMode := "webcam";
     selectedVideo := None |}.

Definition setCurrentEmotion (e : string) (st : State) : State :=
  {| currentEmotion := e;
     emotionHistory := emotionHistory st;
     isAnalyzing := isAnalyzing st;
     inputMode := inputMode st;
     selectedVideo := selectedVideo st |}.

(** [setEmotionHistory] with an updater function of the previous value. *)
Definition setEmotionHistory
  (f : list HistoryEntry -> list HistoryEntry) (st : State) : State :=
  {| currentEmotion := currentEmotion st;
     emotionHistory := f (emotionHistory st);
     isAnalyzing := isAnalyzing st;
     inputMode := inputMode st;
     selectedVideo := selectedVideo st |}.

Definition handleEmotionDetected (e : string) (st : State) : State :=
  setCurrentEmotion e st.

Definition handleEmotionHistory (data : HistoryEntry) (st : State) : State :=
  setEmotionHistory (fun prev => (prev ++ [data])%list) st.

(** [confirmed] is the answer of [window.confirm]. *)
Definition handleReset (confirmed : bool) (st : State) : State :=
  if confirmed
  then setCurrentEmotion "neutral" (setEmotionHistory (fun _ => []) st)
  else st.

Definition handleToggleAnalysis (st : State) : State :=
  {| currentEmotion := currentEmotion st;
     emotionHistory := emotionHistory st;
     isAnalyzing := negb (isAnalyzing st);
     inputMode := inputMode st;
     selectedVideo := selectedVideo st |}.

Definition setSelectedVideo (file : option string) (st : State) : State :=
  {| currentEmotion := currentEmotion st;
     emotionHistory := emotionHistory st;
     isAnalyzing := isAnalyzing st;
     inputMode := inputMode st;
     selectedVideo := file |}.

Definition setInputMode (mode : string) (st : State) : State :=
  {| currentEmotion := currentEmotion st;
     emotionHistory := emotionHistory st;
     isAnalyzing := isAnalyzing st;
     inputMode := mode;
     selectedVideo := selectedVideo st |}.

(** [file] is the handle of the [File] object, which [App] keeps without
    reading it; the second component is the text of the [alert]. *)
Definition handleVideoSelect (file : string) (st : State) : State * string :=
  (setSelectedVideo (Some file) st,
   "Video analysis feature coming soon! For now, use webcam mode.").

Definition handleModeChange (mode : string) (st : State) : State :=
  let st' := setInputMode mode st in
  if String.eqb mode "webcam" then setSelectedVideo None st' else st'.

(** *** The two exports *)

(** A cell of a row of the table, before [join] turns it into text: the
    timestamp is a number, printed in decimal digits, all others are
    strings. *)
Inductive cell : Type :=
| CNum (z : Z)
| CStr (s : string).

Definition cell_text (c : cell) : string :=
  match c with
  | CNum z => JS.string_of_Z z
  | CStr s => s
  end.

Fixpoint join (sep : string) (l : list string) : string :=
  match l with
  | [] => ""
  | [s] => s
  | s :: l' => s ++ sep ++ join sep l'
  end.

Definition newline : string := String (ascii_of_nat 10) "".

Definition headers : list cell :=
  map CStr ["Timestamp"; "Time"; "Dominant Emotion"; "Confidence"; "Happy";
            "Sad"; "Angry"; "Surprise"; "Fear"; "Disgust"; "Neutral"].

(** The payload of [handleExportJSON]. *)
Module Json.

Record entry : Type := {
  timestamp : Z;
  time : string;
  dominantEmotion : string;
  confidence : JS.number;
  allEmotions : scores
}.

Record t : Type := {
  exportDate : string;
  totalRecords : nat;
  duration : JS.number;
  data : list entry
}.

End Json.

(** What a click on an export button does: nothing, the download of a file,
    or an uncaught [RangeError]. *)
Inductive export (A : Type) : Type :=
| Nothing
| Download (filename : string) (content : A)
| RangeError.

Arguments Nothing {A}.
Arguments Download {A} filename content.
Arguments RangeError {A}.

Section Host.

(** Left to the host: [Number::toString] and the locale's rendering of a
    date. *)
Variable NumberToString : Q -> string.
Variable toLocaleString : Z -> string.

(** [(x * 100).toFixed(2) + '%'] *)
Definition percent (x : JS.number) : string :=
  JS.toFixed2 NumberToString (JS.rounded (JS.mul x JS.hundred)) ++ "%".

Definition row (entry : HistoryEntry) : list cell :=
  [ CNum (timestamp entry);
    CStr (toLocaleString (timestamp entry));
    CStr (emotion entry);
    CStr (percent (confidence entry));
    CStr (percent (JS.to_number (score entry Happy)));
    CStr (percent (JS.to_number (score entry Sad)));
    CStr (percent (JS.to_number (score entry Angry)));
    CStr (percent (JS.to_number (score entry Surprise)));
    CStr (percent (JS.to_number (score entry Fear)));
    CStr (percent (JS.to_number (score entry Disgust)));
    CStr (percent (JS.to_number (score entry Neutral))) ].

Definition rows (emotionHistory : list HistoryEntry) : list (list cell) :=
  map row emotionHistory.

(** [[headers, ...rows]] *)
Definition table (emotionHistory : list HistoryEntry) : list (list cell) :=
  headers :: rows emotionHistory.

Definition csvContent (emotionHistory : list HistoryEntry) : string :=
  join newline
    (map (fun r => join "," (map cell_text r)) (table emotionHistory)).

(** [now] is [Date.now()]. *)
Definition handleExportCSV (now : Z) (emotionHistory : list HistoryEntry)
  : export string :=
  if (List.length emotionHistory =? 0)%nat then Nothing
  else Download ("emotion-analysis-" ++ JS.string_of_Z now ++ ".csv")
                (csvContent emotionHistory).

End Host.

Definition jsonEntry (e : HistoryEntry) : option Json.entry :=
  match Date.toISOString (timestamp e) with
  | Some iso =>
      Some {| Json.timestamp := timestamp e;
              Json.time := iso;
              Json.dominantEmotion := emotion e;
              Json.confidence := confidence e;
              Json.allEmotions := emotions e |}
  | None => None
  end.

(** [emotionHistory.map(...)], which stops at the first callback that
    throws. *)
Fixpoint jsonEntries (h : list HistoryEntry) : option (list Json.entry) :=
  match h with
  | [] => Some []
  | e :: h' =>
      match jsonEntry e with
      | Some d =>
          match jsonEntries h' with
          | Some ds => Some (d :: ds)
          | None => None
          end
      | None => None
      end
  end.

(** [length > 0 ? emotionHistory[length - 1].timestamp
                  - emotionHistory[0].timestamp : 0] *)
Definition duration (emotionHistory : list HistoryEntry) : JS.number :=
  match emotionHistory with
  | [] => JS.zero
  | first :: _ =>
      JS.rounded (JS.sub (JS.of_Z (timestamp (last emotionHistory first)))
                         (JS.of_Z (timestamp first)))
  end.

(** The object [jsonData]; [now] is the time of the call. *)
Definition jsonData (now : Z) (emotionHistory : list HistoryEntry)
  : option Json.t :=
  match Date.toISOString now with
  | Some iso =>
      match jsonEntries emotionHistory with
      | Some ds =>
          Some {| Json.exportDate := iso;
                  Json.totalRecords := List.length emotionHistory;
                  Json.duration := duration emotionHistory;
                  Json.data := ds |}
      | None => None
      end
  | None => None
  end.

(** An element of [data] as [JSON.stringify] writes it. *)
Definition stringifyEntry (d : Json.entry) : JSON.value :=
  JSON.JObject
    [ ("timestamp", JSON.JNumber (inject_Z (Json.timestamp d)));
      ("time", JSON.JString (Json.time d));
      ("dominantEmotion", JSON.JString (Json.dominantEmotion d));
      ("confidence", JSON.number (Json.confidence d));
      ("allEmotions",
       JSON.JObject (map (fun kv => (fst kv, JSON.number (snd kv)))
                         (Json.allEmotions d))) ].

(** [JSON.stringify(jsonData, null, 2)] *)
Definition stringify (j : Json.t) : JSON.value :=
  JSON.JObject
    [ ("exportDate", JSON.JString (Json.exportDate j));
      ("totalRecords",
       JSON.JNumber (inject_Z (Z.of_nat (Json.totalRecords j))));
      ("duration", JSON.number (Json.duration j));
      ("data", JSON.JArray (map stringifyEntry (Json.data j))) ].

(** The file holds the text [JSON.stringify(jsonData, null, 2)]. *)
Definition handleExportJSON (now : Z) (emotionHistory : list HistoryEntry)
  : export JSON.value :=
  if (List.length emotionHistory =? 0)%nat then Nothing
  else
    match jsonData now emotionHistory with
    | Some j =>
        Download ("emotion-analysis-" ++ JS.string_of_Z now ++ ".json")
                 (stringify j)
    | None => RangeError
    end.

End App.

(** ** [EmotionChart.jsx] *)

Module EmotionChart.

Definition emotionColors : list (label * string) :=
  [ (Happy, "#FBBF24"); (Sad, "#3B82F6"); (Angry, "#EF4444");
    (Surprise, "#A855F7"); (Fear, "#6B7280"); (Disgust, "#10B981");
    (Neutral, "#9CA3AF") ].

(** An element of [chartData]. *)
Record point : Type := {
  time : nat;
  timeLabel : string;
  happy : JS.number;
  sad : JS.number;
  angry : JS.number;
  surprise : JS.number;
  fear : JS.number;
  disgust : JS.number;
  neutral : JS.number
}.

(** [curr[emotion]] for a key of [emotionColors]. *)
Definition value (curr : point) (emotion : label) : JS.number :=
  match emotion with
  | Happy => happy curr
  | Sad => sad curr
  | Angry => angry curr
  | Surprise => surprise curr
  | Fear => fear curr
  | Disgust => disgust curr
  | Neutral => neutral curr
  end.

(** [(entry.emotions.happy || 0) * 100] and the like. *)
Definition scaled (entry : HistoryEntry) (l : label) : JS.number :=
  JS.rounded (JS.mul (JS.or_zero (score entry l)) JS.hundred).

Section Host.

Variable toLocaleTimeString : Z -> string.

Definition chartPoint (index : nat) (entry : HistoryEntry) : point :=
  {| time := index;
     timeLabel := toLocaleTimeString (timestamp entry);
     happy := scaled entry Happy;
     sad := scaled entry Sad;
     angry := scaled entry Angry;
     surprise := scaled entry Surprise;
     fear := scaled entry Fear;
     disgust := scaled entry Disgust;
     neutral := scaled entry Neutral |}.

(** [emotionHistory.map((entry, index) => ...)] from [index] on. *)
Fixpoint chartFrom (index : nat) (h : list HistoryEntry) : list point :=
  match h with
  | [] => []
  | entry :: h' => chartPoint index entry :: chartFrom (S index) h'
  end.

Definition chartData (emotionHistory : list HistoryEntry) : list point :=
  chartFrom 0 emotionHistory.

(** The average of the plotted values in exact arithmetic: the sum and the
    quotient of
    [chartData.reduce((acc, curr) => acc + curr[emotion], 0)
     / chartData.length]
    before any rounding. *)
Definition avgValue (emotion : label) (chartData : list point) : JS.number :=
  JS.div
    (fold_left (fun acc curr => JS.add acc (value curr emotion))
               chartData JS.zero)
    (JS.of_nat (List.length chartData)).

(** [chartData.reduce((acc, curr) => acc + curr[emotion], 0)
     / chartData.length]
    as it is evaluated: every sum and the quotient are rounded. *)
Definition avgValueRounded (emotion : label) (chartData : list point)
  : JS.number :=
  JS.rounded
    (JS.div
       (fold_left (fun acc curr => JS.rounded (JS.add acc (value curr emotion)))
                  chartData JS.zero)
       (JS.of_nat (List.length chartData))).

(** The statistics under the chart: rendered only for a non-empty history,
    one per entry of [Object.entries(emotionColors).slice(0, 4)]. *)
Definition stats (emotionHistory : list HistoryEntry)
  : option (list (label * string * JS.number)) :=
  if (0 <? List.length emotionHistory)%nat then
    Some (map (fun '(emotion, color) =>
                 (emotion, color,
                  avgValueRounded emotion (chartData emotionHistory)))
              (firstn 4 emotionColors))
  else None.

End Host.

End EmotionChart.

(** ** [api.js] *)

Module Api.

Record EmotionResult : Type := {
  emotion : string;
  confidence : JS.number;
  all_emotions : option scores;
  error : option string
}.

(** How the request to [/api/emotion] ends: with the body of the response
    ([None] for an empty one) or with a thrown error and its message. *)
Inductive reply : Type :=
| Resolved (data : option EmotionResult)
| Rejected (message : string).

Definition detectEmotion (r : reply) : option EmotionResult :=
  match r with
  | Resolved data => data
  | Rejected message =>
      Some {| emotion := "neutral";
              confidence := JS.Fin 0;
              all_emotions := None;
              error := Some message |}
  end.

(** [sendChatMessage] and the body of a response of [/api/chat]. *)
Module Chat.

Record Response : Type := {
  response : option string;
  emotion_detected : option string;
  error : option string
}.

Inductive reply : Type :=
| Resolved (data : Response)
| Rejected (message : string).

(** The body of the request: the message and the emotion, ['neutral'] when
    the caller passes none. *)
Definition body (message : string) (emotion : option string)
  : string * string :=
  (message, match emotion with Some e => e | None => "neutral" end).

Definition sendChatMessage (r : reply) : Response :=
  match r with
  | Resolved data => data
  | Rejected message =>
      {| response := Some "Sorry, I encountered an error. Please try again.";
         emotion_detected := None;
         error := Some message |}
  end.

End Chat.

End Api.

(** ** [CameraPanel.jsx] *)

Module CameraPanel.

Record State : Type := {
  emotion : string;
  confidence : JS.number;
  allEmotions : scores;
  isDetecting : bool
}.

Definition initial : State :=
  {| emotion := "neutral";
     confidence := JS.Fin 0;
     allEmotions := [];
     isDetecting := false |}.

Definition setIsDetecting (b : bool) (st : State) : State :=
  {| emotion := emotion st;
     confidence := confidence st;
     allEmotions := allEmotions st;
     isDetecting := b |}.

(** A string or [undefined] is truthy when it is a non-empty string. *)
Definition truthy_string (s : option string) : bool :=
  match s with
  | Some s' => negb (String.eqb s' "")
  | None => false
  end.

(** One run of [captureAndDetect]: [webcam] tells whether
    [webcamRef.current] is set, [imageSrc] is the screenshot, [r] the end of
    the request. The second component is the emotion passed to
    [onEmotionDetected], the handler that [App] supplies, if it was
    called. *)
Definition captureAndDetect
  (webcam : bool) (imageSrc : option string) (r : Api.reply) (st : State)
  : State * option string :=
  if webcam && negb (isDetecting st) then
    if truthy_string imageSrc then
      match Api.detectEmotion r with
      | Some result =>
          if negb (truthy_string (Api.error result)) then
            ({| emotion := Api.emotion result;
                confidence := Api.confidence result;
                allEmotions :=
                  match Api.all_emotions result with
                  | Some o => o
                  | None => []
                  end;
                isDetecting := false |},
             Some (Api.emotion result))
          else (setIsDetecting false st, None)
      | None => (setIsDetecting false st, None)
      end
    else (setIsDetecting false st, None)
  else (st, None).

(** *** The emotion bars *)

(** The comparator [(a, b) => b[1] - a[1]], of which [sort] uses the sign
    only: the difference is taken before rounding, which keeps the sign of
    a difference of two doubles. *)
Definition compareFn (a b : string * JS.number) : JS.number :=
  JS.sub (snd b) (snd a).

(** [sort] moves [b] before [a] only when the comparator is positive; a
    [NaN] counts as [0]. *)
Definition positive (x : JS.number) : bool :=
  match x with
  | JS.NaN => false
  | JS.Inf s => negb s
  | JS.Fin q => negb (Qle_bool q 0)
  end.

(** [Array.prototype.sort] is a stable sort. Under a comparator that orders
    the entries consistently every stable sort yields the same array, the
    one built by putting each entry in front of the sorted entries that
    followed it, past those the comparator moves before it. *)
Fixpoint insert (a : string * JS.number) (l : list (string * JS.number))
  : list (string * JS.number) :=
  match l with
  | [] => [a]
  | b :: l' => if positive (compareFn a b) then b :: insert a l' else a :: l
  end.

Definition sort (l : list (string * JS.number)) : list (string * JS.number) :=
  fold_right insert [] l.

(** [Object.entries(o).sort(...).slice(0, n)] *)
Definition top (n : nat) (o : scores) : list (string * JS.number) :=
  firstn n (sort o).

(** The panel shows five bars. *)
Definition bars (allEmotions : scores) : list (string * JS.number) :=
  top 5 allEmotions.

End CameraPanel.

(** ** [ControlPanel.jsx] *)

Module ControlPanel.

(** [disabled={emotionCount === 0}] on both export buttons. *)
Definition exportDisabled (emotionCount : nat) : bool :=
  (emotionCount =? 0)%nat.

Definition toggleLabel (isAnalyzing : bool) : string :=
  if isAnalyzing then "Pause" else "Start".

Definition statusText (isAnalyzing : bool) : string :=
  if isAnalyzing then "Analyzing" else "Paused".

Section Host.

Variable NumberToString : Q -> string.
Variable toLocaleString : Z -> string.

(** A click on the CSV button of the panel that [App] renders: a disabled
    button fires no click. *)
Definition clickCSV (now : Z) (st : App.State) : App.export string :=
  if exportDisabled (List.length (App.emotionHistory st)) then App.Nothing
  else App.handleExportCSV NumberToString toLocaleString now
                           (App.emotionHistory st).

End Host.

Definition clickJSON (now : Z) (st : App.State) : App.export JSON.value :=
  if exportDisabled (List.length (App.emotionHistory st)) then App.Nothing
  else App.handleExportJSON now (App.emotionHistory st).

End ControlPanel.

(** ** [VideoUpload.jsx] *)

Module VideoUpload.

Record State : Type := {
  selectedFile : option string
}.

Definition initial : State := {| selectedFile := None |}.

(** What a handler does besides updating the state: the file it passes to
    [onVideoSelect] and the text it shows in an [alert]. *)
Record effects : Type := {
  selected : option string;
  alerted : option string
}.

Section Host.

(** A [File] is held by its handle; [fileType] is its [type]. *)
Variable fileType : string -> string.

(** [file && file.type.startsWith('video/')] *)
Definition isVideo (file : option string) : bool :=
  match file with
  | Some f => prefix "video/" (fileType f)
  | None => false
  end.

(** [file] is [e.target.files[0]]. *)
Definition handleFileSelect (file : option string) (st : State)
  : State * effects :=
  if isVideo file then
    ({| selectedFile := file |}, {| selected := file; alerted := None |})
  else
    (st, {| selected := None;
            alerted := Some "Please select a valid video file" |}).

(** [file] is [e.dataTransfer.files[0]]. *)
Definition handleDrop (file : option string) (st : State) : State * effects :=
  if isVideo file then
    ({| selectedFile := file |}, {| selected := file; alerted := None |})
  else (st, {| selected := None; alerted := None |}).

End Host.

End VideoUpload.

(** ** [ChatPanel.jsx] *)

Module ChatPanel.

Record Message : Type := {
  role : string;
  content : option string;
  emotion : option string
}.

Record State : Type := {
  messages : list Message;
  inputValue : string;
  isLoading : bool
}.

Definition greeting : Message :=
  {| role := "assistant";
     content := Some "Hello! I'm your emotion-aware AI assistant. I can sense how you're feeling and adapt my responses accordingly. How can I help you today?";
     emotion := Some "neutral" |}.

Definition initial : State :=
  {| messages := [greeting]; inputValue := ""; isLoading := false |}.

Definition setInputValue (v : string) (st : State) : State :=
  {| messages := messages st; inputValue := v; isLoading := isLoading st |}.

(** [disabled={isLoading || !inputValue.trim()}] on the Send button. *)
Definition sendDisabled (st : State) : bool :=
  isLoading st || String.eqb (JS.trim (inputValue st)) "".

(** [handleSendMessage] up to the [await]: [None] when it returns at once,
    else the state it leaves and the body of the request it sends. *)
Definition submit (currentEmotion : string) (st : State)
  : option (State * (string * string)) :=
  if String.eqb (JS.trim (inputValue st)) "" || isLoading st then None
  else
    let userMessage := JS.trim (inputValue st) in
    Some ({| messages :=
               (messages st
                ++ [{| role := "user";
                       content := Some userMessage;
                       emotion := Some currentEmotion |}])%list;
             inputValue := "";
             isLoading := true |},
          Api.Chat.body userMessage (Some currentEmotion)).

(** [handleSendMessage] from the [await] on; [r] is the end of the
    request. *)
Definition receive (r : Api.Chat.reply) (st : State) : State :=
  let response := Api.Chat.sendChatMessage r in
  {| messages :=
       (messages st
        ++ [{| role := "assistant";
               content := Api.Chat.response response;
               emotion := Api.Chat.emotion_detected response |}])%list;
     inputValue := inputValue st;
     isLoading := false |}.

(** One whole run of [handleSendMessage]. *)
Definition handleSendMessage
  (currentEmotion : string) (r : Api.Chat.reply) (st : State) : State :=
  match submit currentEmotion st with
  | Some (st', _) => receive r st'
  | None => st
  end.

(** [handleKeyPress]: the Enter key without Shift sends. *)
Definition handleKeyPress (key : string) (shiftKey : bool)
  (currentEmotion : string) (r : Api.Chat.reply) (st : State) : State :=
  if String.eqb key "Enter" && negb shiftKey
  then handleSendMessage currentEmotion r st
  else st.

(** The line under a message: ["Feeling: ..."] for a message of the user
    that carries a non-empty emotion. *)
Definition feeling (m : Message) : option string :=
  match emotion m with
  | Some e =>
      if negb (String.eqb e "") && String.eqb (role m) "user"
      then Some ("Feeling: " ++ e) else None
  | None => None
  end.

End ChatPanel.

(** ** Readings of the specification and sample data *)

(** A JSON number that is an integer. *)
Definition asInteger (v : JSON.value) : option Z :=
  match v with
  | JSON.JNumber q =>
      if Qeq_bool q (inject_Z (Qfloor q)) then Some (Qfloor q) else None
  | _ => None
  end.

(** A JSON number; [null] is none. *)
Definition asNumber (v : JSON.value) : option JS.number :=
  match v with
  | JSON.JNumber q => Some (JS.Fin q)
  | _ => None
  end.

Fixpoint asScores (members : list (string * JSON.value)) : option scores :=
  match members with
  | [] => Some []
  | (k, v) :: members' =>
      match asNumber v, asScores members' with
      | Some x, Some o => Some ((k, x) :: o)
      | _, _ => None
      end
  end.

(** An observation rebuilt from an element of the [data] list of an
    exported payload: its timestamp, dominant emotion, confidence and
    scores. *)
Definition reconstruct (v : JSON.value) : option HistoryEntry :=
  match JSON.field "timestamp" v, JSON.field "dominantEmotion" v,
        JSON.field "confidence" v, JSON.field "allEmotions" v with
  | Some t, Some (JSON.JString e), Some c, Some (JSON.JObject o) =>
      match asInteger t, asNumber c, asScores o with
      | Some t', Some c', Some o' =>
          Some {| timestamp := t'; emotion := e; confidence := c';
                  emotions := o' |}
      | _, _, _ => None
      end
  | _, _, _, _ => None
  end.

Fixpoint reconstructAll (l : list JSON.value) : option (list HistoryEntry) :=
  match l with
  | [] => Some []
  | v :: l' =>
      match reconstruct v, reconstructAll l' with
      | Some e, Some h => Some (e :: h)
      | _, _ => None
      end
  end.

(** The [data] list of an exported payload. *)
Definition exportedData (now : Z) (h : list HistoryEntry)
  : option (list JSON.value) :=
  match App.handleExportJSON now h with
  | App.Download _ doc =>
      match JSON.field "data" doc with
      | Some (JSON.JArray l) => Some l
      | _ => None
      end
  | _ => None
  end.

(** Export to the structured payload, then rebuild the observations. *)
Definition roundTrip (now : Z) (h : list HistoryEntry)
  : option (list HistoryEntry) :=
  match exportedData now h with
  | Some l => reconstructAll l
  | None => None
  end.

(** The [duration] of the exported payload, when there is one. *)
Definition exportedDuration (now : Z) (h : list HistoryEntry)
  : option JSON.value :=
  match App.handleExportJSON now h with
  | App.Download _ doc => JSON.field "duration" doc
  | _ => None
  end.

(** The distance in time from the first observation to the last. *)
Definition span (h : list HistoryEntry) : Z :=
  match h with
  | [] => 0
  | first :: _ => timestamp (last h first) - timestamp first
  end.

(** The integers up to [2^53] in magnitude, all of which are doubles. *)
Definition safe (z : Z) : bool := (Z.abs z <=? 2 ^ 53)%Z.

(** The confidence and every score of every observation are finite
    numbers. *)
Definition finiteNumbers (h : list HistoryEntry) : bool :=
  forallb (fun e => JS.isFinite (confidence e)
                    && forallb (fun kv => JS.isFinite (snd kv)) (emotions e))
          h.

(** A sequence of appends. *)
Definition appendAll (ds : list HistoryEntry) (st : App.State) : App.State :=
  fold_left (fun st' d => App.handleEmotionHistory d st') ds st.

Definition validTimes (h : list HistoryEntry) : bool :=
  forallb (fun e => Date.valid (timestamp e)) h.

(** The score of a label in an observation, 0 when the label is missing. *)
Definition defaulted (entry : HistoryEntry) (l : label) : Q :=
  match score entry l with
  | Some (JS.Fin q) => q
  | _ => 0
  end.

Definition total (l : label) (h : list HistoryEntry) : Q :=
  fold_right (fun e s => defaulted e l + s) 0 h.

(** The arithmetic mean of a label's score across the observations. *)
Definition mean (l : label) (h : list HistoryEntry) : Q :=
  total l h / inject_Z (Z.of_nat (List.length h)).

(** The tolerance of the specification, [1e-9]. *)
Definition tolerance : Q := 1 # 1000000000.

(** A bound on the error of the rounded sum of [k] plotted values, each
    between 0 and 100: the [k] products and the [k] sums are each rounded
    once. *)
Definition sumError (k : Q) : Q :=
  50 * JS.unitRoundoff * k * (k + 3) + 2 * k * JS.tiny.

Definition finiteEntries (o : scores) : bool :=
  forallb (fun kv => JS.isFinite (snd kv)) o.

(** The score of an entry of [Object.entries]. *)
Definition val (a : string * JS.number) : Q :=
  match snd a with
  | JS.Fin q => q
  | _ => 0
  end.

Definition has_score (v : Q) (a : string * JS.number) : bool :=
  Qeq_bool (val a) v.

(** Highest scores first. *)
Definition descending (l : list (string * JS.number)) : Prop :=
  StronglySorted (fun a b => val b <= val a) l.

(** The entries of the labels present, in the canonical order of the
    labels. *)
Definition canonical (o : scores) : list (string * JS.number) :=
  flat_map (fun l => match get o (label_name l) with
                     | Some v => [(label_name l, v)]
                     | None => []
                     end) labels.

(** The ranking the specification words: highest scores first, equal scores
    in the canonical order of the labels. *)
Definition canonicalTop (n : nat) (o : scores) : list (string * JS.number) :=
  firstn n (CameraPanel.sort (canonical o)).

(** The number a string of decimal digits denotes. *)
Definition decimal (s : string) : option N :=
  option_map N.of_uint (NilZero.uint_of_string s).

Definition sign (x : Q) : string := if JS.Qneg_bool x then "-" else "".

(** An integer part is ["0"] or starts with another digit. *)
Definition integerPart (s : string) : Prop :=
  s = "0" \/ exists c r, s = String c r /\ c <> "0"%char.

(** [s] is [x] in fixed-point notation with two decimals: an optional minus
    sign, an integer part, a point and two digits, which together denote
    the hundredths nearest to the magnitude of [x]. *)
Definition fixedPoint2 (x : Q) (s : string) : Prop :=
  exists int frac,
    s = sign x ++ int ++ "." ++ frac
    /\ String.length frac = 2%nat
    /\ integerPart int
    /\ decimal (int ++ frac)
       = Some (Z.to_N (JS.nearest_hundredth (Qabs x))).

(** [s] is the percentage of the number [x]: the double nearest to [x]
    times 100, in fixed-point notation with two decimals, then ["%"]. *)
Definition percentage (x : JS.number) (s : string) : Prop :=
  exists v p t,
    x = JS.Fin v /\ JS.round (v * 100) = JS.Fin p
    /\ s = t ++ "%" /\ fixedPoint2 p t.

(** The numbers [toFixed] prints in fixed-point notation once multiplied
    by 100: the product is finite and below [10^21] in magnitude. *)
Definition percentable (x : JS.number) : bool :=
  match x with
  | JS.Fin v =>
      match JS.round (v * 100) with
      | JS.Fin p => negb (Qle_bool JS.ten21 (Qabs p))
      | _ => false
      end
  | _ => false
  end.

(** The column of the number [x] reads [s]: its percentage, when [x] is a
    number that [toFixed] prints in fixed-point notation. *)
Definition column (x : JS.number) (s : string) : Prop :=
  percentable x = true -> percentage x s.

(** [r] is the row of the observation [e]: timestamp, local time, dominant
    emotion, then the columns of the confidence and of the seven scores in
    the order happy, sad, angry, surprise, fear, disgust, neutral. *)
Definition rowOf (L : Z -> string) (e : HistoryEntry) (r : list App.cell)
  : Prop :=
  exists pc ph ps pa pu pf pd pn,
    r = [ App.CNum (timestamp e); App.CStr (L (timestamp e));
          App.CStr (emotion e); App.CStr pc; App.CStr ph; App.CStr ps;
          App.CStr pa; App.CStr pu; App.CStr pf; App.CStr pd; App.CStr pn ]
    /\ column (confidence e) pc
    /\ column (JS.to_number (score e Happy)) ph
    /\ column (JS.to_number (score e Sad)) ps
    /\ column (JS.to_number (score e Angry)) pa
    /\ column (JS.to_number (score e Surprise)) pu
    /\ column (JS.to_number (score e Fear)) pf
    /\ column (JS.to_number (score e Disgust)) pd
    /\ column (JS.to_number (score e Neutral)) pn.

Module Sample.

Definition first : HistoryEntry :=
  {| timestamp := 1000;
     emotion := "happy";
     confidence := JS.lit 0.8;
     emotions := [("happy", JS.lit 0.8); ("sad", JS.lit 0.1);
                  ("neutral", JS.lit 0.1)] |}.

Definition second : HistoryEntry :=
  {| timestamp := 4000;
     emotion := "sad";
     confidence := JS.lit 0.6;
     emotions := [("happy", JS.lit 0.1); ("sad", JS.lit 0.6);
                  ("neutral", JS.lit 0.3)] |}.

(** A response of the back end as the documentation shows it. *)
Definition full : HistoryEntry :=
  {| timestamp := 1699200000000;
     emotion := "happy";
     confidence := JS.lit 0.89;
     emotions := [("happy", JS.lit 0.89); ("sad", JS.lit 0.02);
                  ("angry", JS.lit 0.01); ("surprise", JS.lit 0.03);
                  ("fear", JS.lit 0.01); ("disgust", JS.lit 0.01);
                  ("neutral", JS.lit 0.03)] |}.

Definition at_time (t : Z) : HistoryEntry :=
  {| timestamp := t;
     emotion := "neutral";
     confidence := JS.lit 0.5;
     emotions := [("neutral", JS.lit 0.5)] |}.

(** An observation with a single score for happy. *)
Definition scored (v : JS.number) : HistoryEntry :=
  {| timestamp := 1000;
     emotion := "happy";
     confidence := v;
     emotions := [("happy", v)] |}.

(** A thousand observations, three seconds apart. *)
Definition thousand : list HistoryEntry :=
  map (fun i => at_time (1699200000000 + 3000 * Z.of_nat i)) (seq 0 1000).

(** The host functions of an environment that prints dates in ISO form.
    [Number::toString] is only reached from [10^21] up, which no sample
    attains; it is fixed to the text of [10^21]. *)
Definition NumberToString (x : Q) : string := "1e+21".

Definition toLocaleString (t : Z) : string :=
  match Date.toISOString t with
  | Some s => s
  | None => "Invalid Date"
  end.

Definition panel : CameraPanel.State :=
  {| CameraPanel.emotion := "happy";
     CameraPanel.confidence := JS.lit 0.89;
     CameraPanel.allEmotions := emotions full;
     CameraPanel.isDetecting := false |}.

End Sample.

(** ** Runs of the components *)

(** [App] under the events that reach its handlers. *)
Module Session.

Inductive event : Type :=
| EmotionDetected (e : string)
| EmotionHistory (d : HistoryEntry)
| ToggleAnalysis
| Reset (confirmed : bool)
| VideoSelect (file : string)
| ModeChange (mode : string).

Definition step (st : App.State) (ev : event) : App.State :=
  match ev with
  | EmotionDetected e => App.handleEmotionDetected e st
  | EmotionHistory d => App.handleEmotionHistory d st
  | ToggleAnalysis => App.handleToggleAnalysis st
  | Reset confirmed => App.handleReset confirmed st
  | VideoSelect file => fst (App.handleVideoSelect file st)
  | ModeChange mode => App.handleModeChange mode st
  end.

Definition run (evs : list event) (st : App.State) : App.State :=
  fold_left step evs st.

Definition isReset (ev : event) : bool :=
  match ev with
  | Reset true => true
  | _ => false
  end.

Definition isToggle (ev : event) : bool :=
  match ev with
  | ToggleAnalysis => true
  | _ => false
  end.

(** The observations appended after the last confirmed reset. *)
Fixpoint appended (evs : list event) : list HistoryEntry :=
  match evs with
  | [] => []
  | ev :: evs' =>
      if existsb isReset evs' then appended evs'
      else match ev with
           | EmotionHistory d => d :: appended evs'
           | _ => appended evs'
           end
  end.

End Session.

(** The upload panel inside [App]: the panel passes a video it accepts to
    [handleVideoSelect], and its two buttons call [handleModeChange]. The
    upload area is rendered in video mode only. *)
Module Shell.

Inductive event : Type :=
| Picked (file : option string)
| Dropped (file : option string)
| Mode (mode : string).

Definition state : Type := (App.State * VideoUpload.State)%type.

Definition initial : state := (App.initial, VideoUpload.initial).

Definition forward (fx : VideoUpload.effects) (app : App.State) : App.State :=
  match VideoUpload.selected fx with
  | Some f => fst (App.handleVideoSelect f app)
  | None => app
  end.

Section Host.

Variable fileType : string -> string.

Definition step (st : state) (ev : event) : state :=
  let (app, up) := st in
  match ev with
  | Picked file =>
      if String.eqb (App.inputMode app) "video" then
        let (up', fx) := VideoUpload.handleFileSelect fileType file up in
        (forward fx app, up')
      else st
  | Dropped file =>
      if String.eqb (App.inputMode app) "video" then
        let (up', fx) := VideoUpload.handleDrop fileType file up in
        (forward fx app, up')
      else st
  | Mode mode => (App.handleModeChange mode app, up)
  end.

Definition run (evs : list event) (st : state) : state :=
  fold_left step evs st.

(** What both components hold is a video, and [App] holds no other file
    than the panel, and none in webcam mode. *)
Definition consistent (st : state) : Prop :=
  let (app, up) := st in
  (VideoUpload.selectedFile up = None
   \/ VideoUpload.isVideo fileType (VideoUpload.selectedFile up) = true)
  /\ (App.selectedVideo app = None
      \/ App.selectedVideo app = VideoUpload.selectedFile up)
  /\ (App.inputMode app = "webcam" -> App.selectedVideo app = None).

End Host.

End Shell.

(** The camera panel inside [App]: a run of [captureAndDetect] that calls
    [onEmotionDetected] reaches [handleEmotionDetected]. *)
Module Camera.

Record tick : Type := {
  webcam : bool;
  imageSrc : option string;
  reply : Api.reply
}.

Definition state : Type := (App.State * CameraPanel.State)%type.

Definition step (st : state) (t : tick) : state :=
  let (app, cam) := st in
  let (cam', told) :=
    CameraPanel.captureAndDetect (webcam t) (imageSrc t) (reply t) cam in
  (match told with
   | Some e => App.handleEmotionDetected e app
   | None => app
   end, cam').

Definition run (ts : list tick) (st : state) : state := fold_left step ts st.

End Camera.

(** The chat panel under its events: typing (the input is disabled while a
    request is pending), sending with the emotion current at that time, and
    the end of the pending request. *)
Module Dialogue.

Inductive event : Type :=
| Typed (v : string)
| Sent (currentEmotion : string)
| Answered (r : Api.Chat.reply).

Definition step (st : ChatPanel.State) (ev : event) : ChatPanel.State :=
  match ev with
  | Typed v =>
      if ChatPanel.isLoading st then st else ChatPanel.setInputValue v st
  | Sent e =>
      match ChatPanel.submit e st with
      | Some (st', _) => st'
      | None => st
      end
  | Answered r =>
      if ChatPanel.isLoading st then ChatPanel.receive r st else st
  end.

Definition run (evs : list event) (st : ChatPanel.State) : ChatPanel.State :=
  fold_left step evs st.

(** Questions and answers take turns: every message of the user is followed
    by one of the assistant, but for the last one while its request is
    pending. *)
Fixpoint turns (roles : list string) (pending : bool) : bool :=
  match roles with
  | [] => negb pending
  | r :: roles' =>
      String.eqb r "user"
      && match roles' with
         | [] => pending
         | a :: roles'' => String.eqb a "assistant" && turns roles'' pending
         end
  end.

Definition conversation (st : ChatPanel.State) : bool :=
  match ChatPanel.messages st with
  | [] => false
  | m :: ms =>
      String.eqb (ChatPanel.role m) "assistant"
      && turns (map ChatPanel.role ms) (ChatPanel.isLoading st)
  end.

End Dialogue.

(** ** Further readings *)

(** White space only. *)
Fixpoint blank (s : string) : bool :=
  match s with
  | "" => true
  | String c r => JS.isWhiteSpace c && blank r
  end.

Definition firstChar (s : string) : option ascii :=
  match s with
  | "" => None
  | String c _ => Some c
  end.

Fixpoint lastChar (s : string) : option ascii :=
  match s with
  | "" => None
  | String c "" => Some c
  | String _ r => lastChar r
  end.

(** Neither empty nor bordered by white space. *)
Definition trimmed (s : string) : Prop :=
  (exists c, firstChar s = Some c /\ JS.isWhiteSpace c = false)
  /\ (exists c, lastChar s = Some c /\ JS.isWhiteSpace c = false).

(** The number of occurrences of a character. *)
Fixpoint occ (c : ascii) (s : string) : nat :=
  match s with
  | "" => 0
  | String a r => (if Ascii.eqb a c then 1 else 0) + occ c r
  end.

Definition comma : ascii := ","%char.

Definition lineFeed : ascii := ascii_of_nat 10.

(** Commas and line feeds. *)
Definition separator (c : ascii) : Prop := c = comma \/ c = lineFeed.

(** The text of a row of the table. *)
Definition rowText (N : Q -> string) (L : Z -> string) (e : HistoryEntry)
  : string :=
  App.join "," (map App.cell_text (App.row N L e)).

(** Timestamps never decrease along the history. *)
Definition chronological (h : list HistoryEntry) : Prop :=
  StronglySorted (fun a b => (timestamp a <= timestamp b)%Z) h.

(** A number between 0 and 1. *)
Definition inUnit (x : JS.number) : bool :=
  match x with
  | JS.Fin q => Qle_bool 0 q && Qle_bool q 1
  | _ => false
  end.

(** Every score of every observation lies between 0 and 1. *)
Definition unitScores (h : list HistoryEntry) : bool :=
  forallb (fun e => forallb (fun kv => inUnit (snd kv)) (emotions e)) h.

(** A number between 0 and 100. *)
Definition percent100 (x : JS.number) : Prop :=
  exists q, x = JS.Fin q /\ 0 <= q <= 100.

Module Fixture.

(** The types of two files. *)
Definition fileType (f : string) : string :=
  if String.eqb f "clip.mp4" then "video/mp4" else "application/pdf".

(** A locale that prints a date with a comma, as en-US does. *)
Definition enUS (t : Z) : string := "11/5/2023, 4:00:00 PM".

Definition unitEntry : HistoryEntry :=
  {| timestamp := 1000;
     emotion := "happy";
     confidence := JS.Fin 1;
     emotions := [("happy", JS.Fin 1); ("sad", JS.Fin 0)] |}.

End Fixture.

(** ** Rounding to the nearest double *)

(** [JS.round] against the definition of the format: a finite result is a
    double ([round_binary64]) and no double is nearer to the number
    ([round_nearest]); the result is infinite from half way between the
    largest double and [2^1024] on ([round_overflow]); the error is at most
    half a unit in the last place ([round_error]). *)

Lemma nearest_even_floor (r : Q) :
  JS.nearest_even r = Qfloor r
  \/ (JS.nearest_even r = Qfloor r + 1)%Z
     /\ 1 # 2 <= r - inject_Z (Qfloor r).
Proof.
  unfold JS.nearest_even.
  destruct (Qcompare_spec (r - inject_Z (Qfloor r)) (1 # 2)) as [E|E|E].
  - destruct (Z.even (Qfloor r)); [now left|]. right.
    split; [reflexivity|]. rewrite E. lra.
  - now left.
  - right. split; [reflexivity | lra].
Qed.

Lemma nearest_even_near (r : Q) :
  Qabs (inject_Z (JS.nearest_even r) - r) <= 1 # 2.
Proof.
  pose proof (Qfloor_le r) as L. pose proof (Qlt_floor r) as U.
  rewrite inject_Z_plus in U. change (inject_Z 1) with 1 in U.
  apply Qabs_Qle_condition. unfold JS.nearest_even.
  destruct (Qcompare_spec (r - inject_Z (Qfloor r)) (1 # 2)) as [E|E|E].
  - destruct (Z.even (Qfloor r)).
    + lra.
    + rewrite inject_Z_plus. change (inject_Z 1) with 1. lra.
  - lra.
  - rewrite inject_Z_plus. change (inject_Z 1) with 1. lra.
Qed.

Lemma nearest_even_le (r : Q) (M : Z) :
  r <= inject_Z M -> (JS.nearest_even r <= M)%Z.
Proof.
  intros H. pose proof (Qfloor_le r) as L.
  destruct (nearest_even_floor r) as [->|[-> F]].
  - rewrite Zle_Qle. lra.
  - assert (S : inject_Z (Qfloor r) < inject_Z M) by lra.
    rewrite <- Zlt_Qlt in S. lia.
Qed.

Lemma nearest_even_nonneg (r : Q) : 0 <= r -> (0 <= JS.nearest_even r)%Z.
Proof.
  intros H. pose proof (Qfloor_resp_le 0 r H) as F.
  change (Qfloor 0) with 0%Z in F.
  destruct (nearest_even_floor r) as [->|[-> _]]; lia.
Qed.

Lemma nearest_even_Qeq (r r' : Q) :
  r == r' -> JS.nearest_even r = JS.nearest_even r'.
Proof.
  intros H. unfold JS.nearest_even.
  assert (F : Qfloor r = Qfloor r') by now apply Qfloor_comp.
  rewrite F.
  assert (C : (r - inject_Z (Qfloor r') ?= 1 # 2)%Q
              = (r' - inject_Z (Qfloor r') ?= 1 # 2)%Q).
  { apply Qcompare_comp; [now rewrite H | reflexivity]. }
  now rewrite C.
Qed.

Lemma nearest_even_Z (k : Z) : JS.nearest_even (inject_Z k) = k.
Proof.
  destruct (nearest_even_floor (inject_Z k)) as [->|[_ F]].
  - apply Qfloor_Z.
  - rewrite Qfloor_Z in F. lra.
Qed.

Lemma pow2_pos (k : Z) : 0 < 2 ^ k.
Proof. apply Qpower_0_lt. reflexivity. Qed.

Lemma pow2_Z (k : Z) : (0 <= k)%Z -> inject_Z (2 ^ k) == 2 ^ k.
Proof. intros H. now rewrite Zpower_Qpower. Qed.

Lemma pow2_le (j k : Z) : (j <= k)%Z -> 2 ^ j <= 2 ^ k.
Proof. intros H. apply Qpower_le_compat_l; [exact H | discriminate]. Qed.

Lemma pow2_plus (j k : Z) : 2 ^ (j + k) == 2 ^ j * 2 ^ k.
Proof. apply Qpower_plus. discriminate. Qed.

Lemma ilog2_le (a : Q) : 0 < a -> 2 ^ JS.ilog2 a <= a.
Proof.
  intros Ha. unfold JS.ilog2.
  set (n := Qnum a). set (d := Zpos (Qden a)).
  destruct (Qle_bool (2 ^ (Z.log2 n - Z.log2 d)) a) eqn:E.
  - now apply Qle_bool_iff.
  - assert (Hn : (0 < n)%Z).
    { unfold Qlt in Ha. simpl in Ha. unfold n. lia. }
    assert (Hd : (0 < d)%Z) by (unfold d; lia).
    destruct (Z.log2_spec n Hn) as [N1 _].
    destruct (Z.log2_spec d Hd) as [_ D2].
    pose proof (Z.log2_nonneg n) as Ln. pose proof (Z.log2_nonneg d) as Ld.
    replace (Z.log2 n - Z.log2 d - 1)%Z
      with (Z.log2 n + - (Z.succ (Z.log2 d)))%Z by lia.
    rewrite pow2_plus, Qpower_opp.
    rewrite <- !pow2_Z by lia.
    assert (Ea : a == inject_Z n / inject_Z d).
    { unfold n, d. destruct a as [p q]. simpl. apply Qmake_Qdiv. }
    rewrite Ea.
    rewrite Zle_Qle in N1. rewrite Zlt_Qlt in D2. rewrite Zlt_Qlt in Hd, Hn.
    change (inject_Z 0) with 0 in *.
    set (X := inject_Z (2 ^ Z.log2 n)) in *.
    set (Y := inject_Z (2 ^ Z.succ (Z.log2 d))) in *.
    set (N := inject_Z n) in *. set (D := inject_Z d) in *.
    assert (HX : 0 < X).
    { unfold X. rewrite pow2_Z by lia. apply pow2_pos. }
    apply Qle_shift_div_l; [exact Hd|].
    unfold Qdiv.
    assert (HY : 0 < Y) by lra.
    setoid_replace (X * / Y * D) with (X * (D / Y)) by (field; lra).
    assert (D / Y <= 1) by (apply Qle_shift_div_r; lra).
    assert (0 <= D / Y) by (apply Qle_shift_div_l; lra).
    nra.
Qed.

Lemma ilog2_lt (a : Q) : 0 < a -> a < 2 ^ (JS.ilog2 a + 1).
Proof.
  intros Ha. unfold JS.ilog2.
  set (n := Qnum a). set (d := Zpos (Qden a)).
  destruct (Qle_bool (2 ^ (Z.log2 n - Z.log2 d)) a) eqn:E.
  - assert (Hn : (0 < n)%Z).
    { unfold Qlt in Ha. simpl in Ha. unfold n. lia. }
    assert (Hd : (0 < d)%Z) by (unfold d; lia).
    destruct (Z.log2_spec n Hn) as [_ N2].
    destruct (Z.log2_spec d Hd) as [D1 _].
    pose proof (Z.log2_nonneg n) as Ln. pose proof (Z.log2_nonneg d) as Ld.
    replace (Z.log2 n - Z.log2 d + 1)%Z
      with (Z.succ (Z.log2 n) + - Z.log2 d)%Z by lia.
    rewrite pow2_plus, Qpower_opp.
    rewrite <- !pow2_Z by lia.
    assert (Ea : a == inject_Z n / inject_Z d).
    { unfold n, d. destruct a as [p q]. simpl. apply Qmake_Qdiv. }
    rewrite Ea.
    rewrite Zlt_Qlt in N2. rewrite Zle_Qle in D1. rewrite Zlt_Qlt in Hd, Hn.
    change (inject_Z 0) with 0 in *.
    set (X := inject_Z (2 ^ Z.succ (Z.log2 n))) in *.
    set (Y := inject_Z (2 ^ Z.log2 d)) in *.
    set (N := inject_Z n) in *. set (D := inject_Z d) in *.
    assert (HY : 0 < Y).
    { unfold Y. rewrite pow2_Z by lia. apply pow2_pos. }
    apply Qlt_shift_div_r; [exact Hd|].
    setoid_replace (X * / Y * D) with (X * (D / Y)) by (field; lra).
    assert (1 <= D / Y) by (apply Qle_shift_div_l; lra).
    nra.
  - replace (Z.log2 n - Z.log2 d - 1 + 1)%Z with (Z.log2 n - Z.log2 d)%Z
      by lia.
    apply Qnot_le_lt. intros H. apply Qle_bool_iff in H. congruence.
Qed.

Lemma round_Qeq (x y : Q) : x == y -> JS.round x = JS.round y.
Proof.
  intros H. unfold JS.round. now rewrite (Qred_complete x y H).
Qed.

Lemma round_not_NaN (x : Q) : JS.round x <> JS.NaN.
Proof.
  unfold JS.round. destruct (Qeq_bool (Qred x) 0); [discriminate|].
  match goal with |- context [if ?b then JS.Inf _ else _] => destruct b end;
    discriminate.
Qed.

(** The rounding of a positive number. *)
Lemma round_positive (x : Q) :
  0 < x ->
  exists a,
    a == x
    /\ JS.round x
       = let y := inject_Z (JS.nearest_even (a / 2 ^ JS.quantum a))
                  * 2 ^ JS.quantum a in
         if Qle_bool (2 ^ 1024) y then JS.Inf false else JS.Fin (Qred y).
Proof.
  intros Hx. exists (Qabs (Qred x)).
  assert (Hr : Qred x == x) by apply Qred_correct.
  split.
  - rewrite Hr. apply Qabs_pos. lra.
  - unfold JS.round.
    assert (E0 : Qeq_bool (Qred x) 0 = false).
    { destruct (Qeq_bool (Qred x) 0) eqn:E; [|reflexivity].
      apply Qeq_bool_iff in E. lra. }
    assert (En : JS.Qneg_bool (Qred x) = false).
    { unfold JS.Qneg_bool. apply negb_false_iff, Qle_bool_iff. lra. }
    rewrite E0, En. reflexivity.
Qed.

Lemma round_zero (x : Q) : x == 0 -> JS.round x = JS.Fin 0.
Proof.
  intros H. unfold JS.round.
  assert (E : Qeq_bool (Qred x) 0 = true).
  { apply Qeq_bool_iff. now rewrite Qred_correct. }
  now rewrite E.
Qed.

Lemma tiny_spec : 2 ^ (-1074) == 2 * JS.tiny.
Proof. vm_compute. reflexivity. Qed.

Lemma tiny_pos : 0 < JS.tiny.
Proof. apply pow2_pos. Qed.

(** The error of a rounding: half a unit in the last place. *)
Lemma round_error (x y : Q) :
  0 <= x -> JS.round x = JS.Fin y ->
  Qabs (y - x) <= x * JS.unitRoundoff + JS.tiny.
Proof.
  intros Hx H. pose proof tiny_pos as Ht.
  destruct (Qlt_le_dec 0 x) as [P|P].
  2:{ assert (Z : x == 0) by lra. rewrite (round_zero x Z) in H.
      injection H as <-. rewrite Z.
      setoid_replace (0 - 0) with 0 by ring. simpl Qabs.
      unfold JS.unitRoundoff. lra. }
  destruct (round_positive x P) as (a & Ea & R). rewrite R in H. clear R.
  cbv zeta in H.
  set (q := JS.quantum a) in *. set (r := a / 2 ^ q) in *.
  set (yv := inject_Z (JS.nearest_even r) * 2 ^ q) in *.
  destruct (Qle_bool (2 ^ 1024) yv); [discriminate|].
  assert (Hy : y = Qred yv) by congruence. subst y. clear H.
  assert (Ey : Qred yv == yv) by apply Qred_correct.
  rewrite Ey. unfold yv.
  pose proof (pow2_pos q) as Hq.
  assert (Ha : a == r * 2 ^ q) by (unfold r; field; lra).
  pose proof (nearest_even_near r) as N.
  apply Qabs_Qle_condition in N. destruct N as [N1 N2].
  assert (A : 0 < a) by lra.
  assert (G : 2 ^ q <= 2 * (x * JS.unitRoundoff + JS.tiny)).
  { unfold q, JS.quantum.
    destruct (Z.max_spec (JS.ilog2 a - 52) (-1074)) as [[_ ->]|[_ ->]].
    - rewrite tiny_spec. unfold JS.unitRoundoff. nra.
    - replace (JS.ilog2 a - 52)%Z with (JS.ilog2 a + -52)%Z by lia.
      rewrite pow2_plus.
      pose proof (ilog2_le a A) as L.
      assert (E52 : 2 ^ (-52) == 2 * JS.unitRoundoff) by reflexivity.
      rewrite E52. nra. }
  rewrite <- Ea at 1. rewrite Ha.
  apply Qabs_Qle_condition.
  set (m := inject_Z (JS.nearest_even r)) in *.
  set (p := 2 ^ q) in *.
  split; nra.
Qed.

(** Rounding does not cross a double: here, an integer below [2^53]. *)
Lemma round_bounded (x : Q) (B : Z) :
  0 <= x <= inject_Z B -> (B < 2 ^ 53)%Z ->
  exists y, JS.round x = JS.Fin y /\ 0 <= y <= inject_Z B.
Proof.
  intros [Hx HB] Hb.
  destruct (Qlt_le_dec 0 x) as [P|P].
  2:{ assert (Z : x == 0) by lra. rewrite (round_zero x Z).
      exists 0. split; [reflexivity|]. lra. }
  destruct (round_positive x P) as (a & Ea & ->). cbv zeta.
  set (q := JS.quantum a) in *.
  assert (A : 0 < a) by lra.
  assert (Hq : (q <= 0)%Z).
  { assert (L : (JS.ilog2 a < 53)%Z).
    { apply (Qpower_lt_compat_l_inv 2); [|reflexivity].
      pose proof (ilog2_le a A) as L.
      assert (B53 : inject_Z B < 2 ^ 53).
      { rewrite <- pow2_Z by lia. now rewrite <- Zlt_Qlt. }
      lra. }
    unfold q, JS.quantum. lia. }
  pose proof (pow2_pos q) as Pq.
  assert (Einv : 2 ^ q * inject_Z (2 ^ (- q)) == 1).
  { rewrite pow2_Z by lia. rewrite <- pow2_plus.
    replace (q + - q)%Z with 0%Z by lia. reflexivity. }
  assert (Hr : a / 2 ^ q <= inject_Z (B * 2 ^ (- q))).
  { rewrite inject_Z_mult. apply Qle_shift_div_r; [exact Pq|].
    rewrite <- Qmult_assoc, (Qmult_comm (inject_Z (2 ^ (- q)))), Einv. lra. }
  pose proof (nearest_even_le _ _ Hr) as M.
  assert (Hr0 : 0 <= a / 2 ^ q) by (apply Qle_shift_div_l; lra).
  pose proof (nearest_even_nonneg _ Hr0) as M0.
  set (m := JS.nearest_even (a / 2 ^ q)) in *.
  rewrite Zle_Qle in M, M0. rewrite inject_Z_mult in M.
  change (inject_Z 0) with 0 in M0.
  assert (Y : 0 <= inject_Z m * 2 ^ q <= inject_Z B).
  { set (i := inject_Z (2 ^ (- q))) in *. set (p := 2 ^ q) in *.
    set (mm := inject_Z m) in *. set (b := inject_Z B) in *.
    assert (I : 0 < i).
    { destruct (Qlt_le_dec 0 i); [assumption|]. nra. }
    split; [nra|].
    assert (mm * p <= b * i * p) by nra.
    assert (b * i * p == b)
      by (rewrite <- Qmult_assoc, (Qmult_comm i), Einv; ring).
    lra. }
  assert (O : Qle_bool (2 ^ 1024) (inject_Z m * 2 ^ q) = false).
  { destruct (Qle_bool (2 ^ 1024) (inject_Z m * 2 ^ q)) eqn:E; [|reflexivity].
    apply Qle_bool_iff in E.
    assert (B53 : inject_Z B < 2 ^ 53).
    { rewrite <- pow2_Z by lia. now rewrite <- Zlt_Qlt. }
    pose proof (pow2_le 53 1024 ltac:(lia)). lra. }
  rewrite O. eexists. split; [reflexivity|]. now rewrite Qred_correct.
Qed.

Lemma Qred_inject_Z (z : Z) : Qred (inject_Z z) = inject_Z z.
Proof.
  unfold Qred, inject_Z. cbn [Qnum Qden].
  pose proof (Z.ggcd_gcd z 1) as G.
  pose proof (Z.ggcd_correct_divisors z 1) as D.
  destruct (Z.ggcd z 1) as [g [aa bb]]. cbn [fst snd] in *.
  rewrite Z.gcd_1_r in G. subst g. destruct D as [D1 D2].
  rewrite Z.mul_1_l in D1, D2. now subst.
Qed.

(** The integers up to [2^53] in magnitude are doubles. *)
Lemma round_integer (z : Z) :
  (Z.abs z <= 2 ^ 53)%Z -> JS.round (inject_Z z) = JS.Fin (inject_Z z).
Proof.
  intros H.
  assert (C : (z = 2 ^ 53 \/ z = - 2 ^ 53 \/ Z.abs z < 2 ^ 53)%Z) by lia.
  destruct C as [->|[->|C]]; [vm_compute; reflexivity..|].
  clear H. unfold JS.round. rewrite Qred_inject_Z.
  destruct (Qeq_bool (inject_Z z) 0) eqn:E0.
  { apply Qeq_bool_iff in E0. apply (inject_Z_injective z 0) in E0.
    now rewrite E0. }
  assert (Z0 : z <> 0%Z).
  { intros ->. discriminate E0. }
  set (a := Qabs (inject_Z z)).
  assert (Ea : a = inject_Z (Z.abs z)) by reflexivity.
  assert (A : 0 < a).
  { rewrite Ea. change 0 with (inject_Z 0). rewrite <- Zlt_Qlt. lia. }
  set (q := JS.quantum a).
  assert (Hq : (q <= 0)%Z).
  { assert (L : (JS.ilog2 a < 53)%Z).
    { apply (Qpower_lt_compat_l_inv 2); [|reflexivity].
      pose proof (ilog2_le a A) as L.
      assert (B53 : a < 2 ^ 53).
      { rewrite Ea, <- pow2_Z by lia. now rewrite <- Zlt_Qlt. }
      lra. }
    unfold q, JS.quantum. lia. }
  pose proof (pow2_pos q) as Pq.
  assert (Einv : 2 ^ q * inject_Z (2 ^ (- q)) == 1).
  { rewrite pow2_Z by lia. rewrite <- pow2_plus.
    replace (q + - q)%Z with 0%Z by lia. reflexivity. }
  assert (Er : a / 2 ^ q == inject_Z (Z.abs z * 2 ^ (- q))).
  { rewrite inject_Z_mult, <- Ea. set (i := inject_Z (2 ^ (- q))) in *.
    assert (Ei : / 2 ^ q == i).
    { setoid_replace i with (2 ^ q * i * / 2 ^ q) by (field; lra).
      rewrite Einv. ring. }
    unfold Qdiv. now rewrite Ei. }
  assert (Em : JS.nearest_even (a / 2 ^ q) = (Z.abs z * 2 ^ (- q))%Z).
  { rewrite (nearest_even_Qeq _ _ Er). apply nearest_even_Z. }
  rewrite Em.
  assert (Ey : inject_Z (Z.abs z * 2 ^ (- q)) * 2 ^ q == a).
  { rewrite inject_Z_mult, <- Ea, <- Qmult_assoc,
      (Qmult_comm (inject_Z _)), Einv. ring. }
  assert (O : Qle_bool (2 ^ 1024) (inject_Z (Z.abs z * 2 ^ (- q)) * 2 ^ q)
              = false).
  { destruct (Qle_bool _ _) eqn:E; [|reflexivity].
    apply Qle_bool_iff in E. rewrite Ey in E.
    assert (B53 : a < 2 ^ 53).
    { rewrite Ea, <- pow2_Z by lia. now rewrite <- Zlt_Qlt. }
    pose proof (pow2_le 53 1024 ltac:(lia)). lra. }
  rewrite O. f_equal.
  etransitivity; [apply (Qred_complete _ (inject_Z z)) | apply Qred_inject_Z].
  unfold JS.Qneg_bool.
  destruct (Qle_bool 0 (inject_Z z)) eqn:S; cbn [negb].
  - rewrite Ey, Ea. apply Qle_bool_iff in S.
    change 0 with (inject_Z 0) in S. rewrite <- Zle_Qle in S.
    now rewrite Z.abs_eq.
  - rewrite Ey, Ea.
    assert (N : (z < 0)%Z).
    { destruct (Z.lt_ge_cases z 0) as [N|N]; [exact N|].
      rewrite Zle_Qle in N. apply Qle_bool_iff in N.
      change (inject_Z 0) with 0 in N. congruence. }
    rewrite Z.abs_neq by lia. rewrite inject_Z_opp. ring.
Qed.

Lemma Qabs_opp_eq (x : Q) : Qabs (- x) = Qabs x.
Proof.
  destruct x as [n d]. unfold Qabs, Qopp. cbn [Qnum Qden].
  now rewrite Z.abs_opp.
Qed.

Lemma round_opp (x : Q) : JS.round (- x) = JS.neg (JS.round x).
Proof.
  unfold JS.round. rewrite Qred_opp.
  set (r := Qred x).
  destruct (Qeq_bool r 0) eqn:E.
  - assert (E' : Qeq_bool (- r) 0 = true).
    { apply Qeq_bool_iff. apply Qeq_bool_iff in E. rewrite E. reflexivity. }
    rewrite E'. reflexivity.
  - assert (E' : Qeq_bool (- r) 0 = false).
    { destruct (Qeq_bool (- r) 0) eqn:E'; [|reflexivity].
      apply Qeq_bool_iff in E'.
      assert (r == 0) by lra. apply Qeq_bool_iff in H. congruence. }
    rewrite E', Qabs_opp_eq.
    assert (N : JS.Qneg_bool (- r) = negb (JS.Qneg_bool r)).
    { unfold JS.Qneg_bool. rewrite negb_involutive.
      destruct (Qle_bool 0 r) eqn:A, (Qle_bool 0 (- r)) eqn:B; try reflexivity.
      - apply Qle_bool_iff in A, B. assert (r == 0) by lra.
        apply Qeq_bool_iff in H. congruence.
      - assert (0 <= r \/ 0 <= - r) as [C|C]
          by (destruct (Qlt_le_dec r 0); [right; lra | now left]);
          apply Qle_bool_iff in C; congruence. }
    rewrite N.
    set (y := inject_Z (JS.nearest_even (Qabs r / 2 ^ JS.quantum (Qabs r)))
              * 2 ^ JS.quantum (Qabs r)).
    destruct (Qle_bool (2 ^ 1024) y); [reflexivity|].
    cbn [JS.neg]. f_equal.
    destruct (JS.Qneg_bool r); cbn [negb].
    + rewrite Qred_opp. destruct (Qred y) as [n d]. unfold Qopp.
      cbn [Qnum Qden]. now rewrite Z.opp_involutive.
    + now rewrite Qred_opp.
Qed.

Lemma nearest_even_ge (r : Q) (M : Z) :
  inject_Z M <= r -> (M <= JS.nearest_even r)%Z.
Proof.
  intros H. pose proof (Qfloor_resp_le _ _ H) as F. rewrite Qfloor_Z in F.
  destruct (nearest_even_floor r) as [->|[-> _]]; lia.
Qed.

(** A double is a multiple of the smallest positive double. *)
Lemma double_grid (q : Q) :
  JS.isDouble (JS.Fin q) = true ->
  exists k : Z, q == inject_Z k * 2 ^ (-1074).
Proof.
  assert (P : forall x, 0 < x -> JS.isDouble (JS.Fin x) = true ->
                        exists k : Z, x == inject_Z k * 2 ^ (-1074)).
  { intros x Hx. unfold JS.isDouble.
    destruct (round_positive x Hx) as (a & Ea & ->). cbv zeta.
    set (e := JS.quantum a). set (m := JS.nearest_even (a / 2 ^ e)).
    destruct (Qle_bool (2 ^ 1024) (inject_Z m * 2 ^ e)); [discriminate|].
    intros H. apply Qeq_bool_iff in H.
    assert (Hy : Qred (inject_Z m * 2 ^ e) == inject_Z m * 2 ^ e)
      by apply Qred_correct.
    rewrite Hy in H.
    assert (He : (-1074 <= e)%Z) by (unfold e, JS.quantum; lia).
    exists (m * 2 ^ (e + 1074))%Z.
    rewrite <- H, inject_Z_mult, pow2_Z by lia.
    rewrite <- Qmult_assoc, <- pow2_plus.
    now replace (e + 1074 + -1074)%Z with e by lia. }
  intros H. destruct (Q_dec 0 q) as [[L|L]|L].
  - now apply P.
  - destruct (P (- q)) as (k & Hk); [lra | |].
    + unfold JS.isDouble in *. rewrite round_opp.
      destruct (JS.round q) as [| |q']; try discriminate. cbn [JS.neg].
      apply Qeq_bool_iff in H. apply Qeq_bool_iff. now rewrite H.
    + exists (- k)%Z. rewrite inject_Z_opp.
      setoid_replace q with (- - q) by ring. rewrite Hk. ring.
  - exists 0%Z. rewrite <- L. reflexivity.
Qed.

Lemma nearest_even_nearest (r : Q) (k : Z) :
  Qabs (inject_Z (JS.nearest_even r) - r) <= Qabs (inject_Z k - r).
Proof.
  pose proof (nearest_even_near r) as N. apply Qabs_Qle_condition in N.
  set (m := JS.nearest_even r) in *.
  destruct (Z.eq_dec k m) as [->|D]; [apply Qle_refl|].
  apply Qabs_Qle_condition.
  destruct (Z.lt_ge_cases k m) as [L|L].
  - assert (I : (k + 1 <= m)%Z) by lia.
    rewrite Zle_Qle, inject_Z_plus in I. change (inject_Z 1) with 1 in I.
    rewrite Qabs_neg by lra. lra.
  - assert (I : (m + 1 <= k)%Z) by lia.
    rewrite Zle_Qle, inject_Z_plus in I. change (inject_Z 1) with 1 in I.
    rewrite Qabs_pos by lra. lra.
Qed.

Lemma binary64_opp (q : Q) : JS.binary64 q -> JS.binary64 (- q).
Proof.
  intros (m & e & Hm & He & E). exists (- m)%Z, e.
  split; [now rewrite Z.abs_opp|]. split; [exact He|].
  rewrite inject_Z_opp, E. ring.
Qed.

Lemma pow2_lt (j k : Z) : (j < k)%Z -> 2 ^ j < 2 ^ k.
Proof. intros H. apply Qpower_lt_compat_l; [exact H | reflexivity]. Qed.

Lemma pow2_lt_inv (j k : Z) : 2 ^ j < 2 ^ k -> (j < k)%Z.
Proof. intros H. apply (Qpower_lt_compat_l_inv 2); [exact H | reflexivity]. Qed.

(** The quotient of a positive number by its unit in the last place. *)
Lemma quantum_quotient (a : Q) :
  0 < a ->
  a / 2 ^ JS.quantum a < inject_Z (2 ^ 53)
  /\ ((-1074 < JS.quantum a)%Z -> inject_Z (2 ^ 52) <= a / 2 ^ JS.quantum a).
Proof.
  intros A. pose proof (ilog2_le a A) as L. pose proof (ilog2_lt a A) as U.
  pose proof (pow2_pos (JS.quantum a)) as P.
  rewrite !pow2_Z by lia. split.
  - apply Qlt_shift_div_r; [exact P|]. rewrite <- pow2_plus.
    eapply Qlt_le_trans; [exact U|]. apply pow2_le. unfold JS.quantum. lia.
  - intros H. apply Qle_shift_div_l; [exact P|]. rewrite <- pow2_plus.
    eapply Qle_trans; [|exact L]. apply pow2_le. unfold JS.quantum in *. lia.
Qed.

(** A finite rounding is a double. *)
Lemma round_binary64 (x y : Q) : JS.round x = JS.Fin y -> JS.binary64 y.
Proof.
  assert (P : forall x y, 0 < x -> JS.round x = JS.Fin y -> JS.binary64 y).
  { clear x y. intros x y Hx.
    destruct (round_positive x Hx) as (a & Ea & ->). cbv zeta.
    assert (A : 0 < a) by lra.
    destruct (quantum_quotient a A) as [U L].
    set (q := JS.quantum a) in *. set (r := a / 2 ^ q) in *.
    set (m := JS.nearest_even r).
    destruct (Qle_bool (2 ^ 1024) (inject_Z m * 2 ^ q)) eqn:O; [discriminate|].
    intros H. assert (Hy : y = Qred (inject_Z m * 2 ^ q)) by congruence.
    subst y. clear H.
    assert (O' : inject_Z m * 2 ^ q < 2 ^ 1024).
    { apply Qnot_le_lt. intros C. apply Qle_bool_iff in C. congruence. }
    pose proof (pow2_pos q) as Pq.
    assert (R0 : 0 <= r) by (apply Qle_shift_div_l; [exact Pq | lra]).
    pose proof (nearest_even_nonneg r R0) as M0. fold m in M0.
    assert (M1 : (m <= 2 ^ 53)%Z) by (apply nearest_even_le; lra).
    assert (Q0 : (-1074 <= q)%Z) by (unfold q, JS.quantum; lia).
    assert (Ey : Qred (inject_Z m * 2 ^ q) == inject_Z m * 2 ^ q)
      by apply Qred_correct.
    destruct (Z.eq_dec m 0) as [Z|NZ].
    { exists 0%Z, 0%Z. split; [reflexivity|]. split; [lia|].
      rewrite Ey, Z. reflexivity. }
    assert (Q1 : (q + 52 < 1024)%Z).
    { destruct (Z.eq_dec q (-1074)) as [->|N]; [lia|].
      assert (M2 : (2 ^ 52 <= m)%Z) by (apply nearest_even_ge, L; lia).
      apply pow2_lt_inv. eapply Qle_lt_trans; [|exact O'].
      rewrite pow2_plus, <- (pow2_Z 52) by lia.
      rewrite Zle_Qle in M2. rewrite Qmult_comm.
      apply Qmult_le_compat_r; [exact M2 | lra]. }
    destruct (Z.eq_dec m (2 ^ 53)) as [E|NE].
    - exists (2 ^ 52)%Z, (q + 1)%Z. split; [reflexivity|].
      assert (Q2 : (q + 53 < 1024)%Z).
      { apply pow2_lt_inv. eapply Qle_lt_trans; [|exact O'].
        rewrite E, pow2_plus, <- (pow2_Z 53) by lia.
        rewrite Qmult_comm. apply Qle_refl. }
      split; [lia|].
      rewrite Ey, E, !pow2_Z, <- !pow2_plus by lia.
      now replace (53 + q)%Z with (52 + (q + 1))%Z by lia.
    - exists m, q. split; [lia|]. split; [lia | exact Ey]. }
  intros H. destruct (Q_dec 0 x) as [[L|L]|L].
  - now apply (P x).
  - assert (R : JS.round (- x) = JS.Fin (- y)).
    { rewrite round_opp, H. reflexivity. }
    apply (P (- x)) in R; [|lra]. apply binary64_opp in R.
    destruct R as (m & e & Hm & He & E). exists m, e.
    split; [exact Hm|]. split; [exact He|]. rewrite <- E. ring.
  - rewrite (round_zero x) in H by (now rewrite <- L).
    injection H as <-. exists 0%Z, 0%Z. split; [reflexivity|].
    split; [lia | reflexivity].
Qed.

(** A double that is not below [2^e] is a multiple of the unit in the last
    place of the numbers from [2^e] on. *)
Lemma binary64_multiple (d : Q) (e : Z) :
  JS.binary64 d -> 2 ^ e <= d ->
  exists k : Z, d == inject_Z k * 2 ^ Z.max (e - 52) (-1074).
Proof.
  intros (m & ed & Hm & He & E) H.
  set (q := Z.max (e - 52) (-1074)).
  destruct (Z.le_gt_cases q ed) as [L|L].
  - exists (m * 2 ^ (ed - q))%Z.
    rewrite E, inject_Z_mult, pow2_Z by lia.
    rewrite <- Qmult_assoc, <- pow2_plus.
    now replace (ed - q + q)%Z with ed by lia.
  - exfalso.
    assert (Q : q = (e - 52)%Z) by (unfold q in *; lia).
    pose proof (pow2_pos ed) as P.
    assert (M : inject_Z m < 2 ^ 53).
    { rewrite <- pow2_Z by lia. rewrite <- Zlt_Qlt. lia. }
    assert (B : d < 2 ^ (53 + ed)).
    { rewrite E, pow2_plus. apply Qmult_lt_compat_r; assumption. }
    pose proof (pow2_le (53 + ed) e ltac:(lia)). lra.
Qed.

(** No positive double is below [2^-1074]. *)
Lemma binary64_positive (d : Q) : JS.binary64 d -> 0 < d -> 2 ^ (-1074) <= d.
Proof.
  intros (m & e & _ & He & E) H.
  pose proof (pow2_pos e) as P. pose proof (pow2_le (-1074) e ltac:(lia)) as L.
  assert (M : (1 <= m)%Z).
  { destruct (Z.lt_ge_cases m 1) as [C|C]; [|exact C]. exfalso.
    assert (I : (m <= 0)%Z) by lia. rewrite Zle_Qle in I.
    change (inject_Z 0) with 0 in I. rewrite E in H. nra. }
  rewrite Zle_Qle in M. change (inject_Z 1) with 1 in M. rewrite E. nra.
Qed.

(** A finite rounding is a double nearest to the number. *)
Lemma round_nearest (x y d : Q) :
  JS.round x = JS.Fin y -> JS.binary64 d -> Qabs (y - x) <= Qabs (d - x).
Proof.
  assert (P : forall x y d, 0 < x -> JS.round x = JS.Fin y -> JS.binary64 d ->
                            Qabs (y - x) <= Qabs (d - x)).
  { clear x y d. intros x y d Hx.
    destruct (round_positive x Hx) as (a & Ea & ->). cbv zeta.
    assert (A : 0 < a) by lra.
    pose proof (ilog2_le a A) as L.
    set (q := JS.quantum a) in *. set (r := a / 2 ^ q) in *.
    set (m := JS.nearest_even r).
    destruct (Qle_bool (2 ^ 1024) (inject_Z m * 2 ^ q)); [discriminate|].
    intros H B. assert (Hy : y = Qred (inject_Z m * 2 ^ q)) by congruence.
    subst y. clear H.
    assert (Ey : Qred (inject_Z m * 2 ^ q) == inject_Z m * 2 ^ q)
      by apply Qred_correct.
    rewrite Ey, <- Ea.
    pose proof (pow2_pos q) as Pq.
    assert (Ha : a == r * 2 ^ q) by (unfold r; field; lra).
    assert (G : forall k : Z,
               Qabs (inject_Z m * 2 ^ q - a)
               <= Qabs (inject_Z k * 2 ^ q - a)).
    { intros k. pose proof (nearest_even_nearest r k) as N. fold m in N.
      setoid_replace (inject_Z m * 2 ^ q - a)
        with ((inject_Z m - r) * 2 ^ q) by (rewrite Ha; ring).
      setoid_replace (inject_Z k * 2 ^ q - a)
        with ((inject_Z k - r) * 2 ^ q) by (rewrite Ha; ring).
      rewrite !Qabs_Qmult, (Qabs_pos (2 ^ q)) by lra.
      apply Qmult_le_compat_r; [exact N | lra]. }
    destruct (Qlt_le_dec 0 d) as [D|D].
    2:{ specialize (G 0%Z). change (inject_Z 0) with 0 in G.
        setoid_replace (0 * 2 ^ q - a) with (- a) in G by ring.
        rewrite (Qabs_neg (- a)) in G by lra.
        rewrite (Qabs_neg (d - a)) by lra. lra. }
    pose proof (binary64_positive d B D) as T.
    destruct (Qlt_le_dec d (2 ^ JS.ilog2 a)) as [C|C].
    - assert (Q : (q <= JS.ilog2 a)%Z).
      { assert (-1074 < JS.ilog2 a)%Z by (apply pow2_lt_inv; lra).
        unfold q, JS.quantum. lia. }
      specialize (G (2 ^ (JS.ilog2 a - q))%Z).
      rewrite pow2_Z, <- pow2_plus in G by lia.
      replace (JS.ilog2 a - q + q)%Z with (JS.ilog2 a) in G by lia.
      rewrite (Qabs_neg (2 ^ JS.ilog2 a - a)) in G by lra.
      rewrite (Qabs_neg (d - a)) by lra. lra.
    - destruct (binary64_multiple d (JS.ilog2 a) B C) as (k & K).
      fold (JS.quantum a) in K. fold q in K. rewrite K. apply G. }
  intros H B. destruct (Q_dec 0 x) as [[L|L]|L].
  - now apply (P x).
  - assert (R : JS.round (- x) = JS.Fin (- y)).
    { rewrite round_opp, H. reflexivity. }
    pose proof (P (- x) (- y) (- d) ltac:(lra) R (binary64_opp d B)) as N.
    setoid_replace (- y - - x) with (- (y - x)) in N by ring.
    setoid_replace (- d - - x) with (- (d - x)) in N by ring.
    now rewrite !Qabs_opp in N.
  - rewrite (round_zero x) in H by (now rewrite <- L).
    injection H as <-. rewrite <- L.
    setoid_replace (0 - 0) with 0 by ring. apply Qabs_nonneg.
Qed.

Lemma nearest_even_odd_half (r : Q) (k : Z) :
  Z.even k = false -> inject_Z k + (1 # 2) <= r ->
  (k + 1 <= JS.nearest_even r)%Z.
Proof.
  intros O H.
  assert (F : (k <= Qfloor r)%Z).
  { rewrite <- (Qfloor_Z k). apply Qfloor_resp_le. lra. }
  unfold JS.nearest_even.
  destruct (Z.eq_dec (Qfloor r) k) as [E|E].
  - rewrite E.
    destruct (Qcompare_spec (r - inject_Z k) (1 # 2)) as [C|C|C].
    + rewrite O. lia.
    + lra.
    + lia.
  - destruct (Qcompare (r - inject_Z (Qfloor r)) (1 # 2));
      [destruct (Z.even (Qfloor r))|..]; lia.
Qed.

(** The roundings that overflow: from [2^1024 - 2^970] on, which is half
    way from the largest double to [2^1024]. *)
Lemma round_overflow (x : Q) :
  (exists s, JS.round x = JS.Inf s) <-> 2 ^ 1024 - 2 ^ 970 <= Qabs x.
Proof.
  assert (P : forall x, 0 < x ->
                        ((exists s, JS.round x = JS.Inf s)
                         <-> 2 ^ 1024 - 2 ^ 970 <= x)).
  { clear x. intros x Hx.
    destruct (round_positive x Hx) as (a & Ea & ->). cbv zeta.
    assert (A : 0 < a) by lra.
    pose proof (ilog2_le a A) as L. pose proof (ilog2_lt a A) as U.
    destruct (quantum_quotient a A) as [_ QL].
    set (q := JS.quantum a) in *. set (r := a / 2 ^ q) in *.
    set (m := JS.nearest_even r).
    pose proof (pow2_pos q) as Pq.
    assert (Ha : a == r * 2 ^ q) by (unfold r; field; lra).
    pose proof (nearest_even_near r) as N. fold m in N.
    apply Qabs_Qle_condition in N.
    assert (E970 : 2 ^ 971 == 2 * 2 ^ 970) by reflexivity.
    assert (E1024 : 2 ^ 1024 == 2 ^ 53 * 2 ^ 971) by reflexivity.
    pose proof (pow2_pos 970) as P970.
    rewrite <- Ea.
    destruct (Qle_bool (2 ^ 1024) (inject_Z m * 2 ^ q)) eqn:O.
    - apply Qle_bool_iff in O. split; [intros _|eauto].
      destruct (Z.le_gt_cases 1024 (JS.ilog2 a)) as [C|C].
      + pose proof (pow2_le 1024 (JS.ilog2 a) C). lra.
      + assert (Q : 2 ^ q <= 2 ^ 971)
          by (apply pow2_le; unfold q, JS.quantum; lia).
        nra.
    - split; [intros (s & H); discriminate|]. intros H. exfalso.
      assert (O' : inject_Z m * 2 ^ q < 2 ^ 1024).
      { apply Qnot_le_lt. intros C. apply Qle_bool_iff in C. congruence. }
      destruct (Z.le_gt_cases 1024 (JS.ilog2 a)) as [C|C].
      + assert (M : (2 ^ 52 <= m)%Z).
        { apply nearest_even_ge, QL. unfold q, JS.quantum. lia. }
        rewrite Zle_Qle, pow2_Z in M by lia.
        assert (Q : 2 ^ 1024 <= 2 ^ (52 + q))
          by (apply pow2_le; unfold q, JS.quantum; lia).
        rewrite pow2_plus in Q. nra.
      + assert (I : (1023 <= JS.ilog2 a)%Z).
        { assert (2 ^ 1023 < 2 ^ (JS.ilog2 a + 1)).
          { eapply Qle_lt_trans; [|exact U].
            assert (2 ^ 1023 == 2 ^ 1024 - 2 ^ 1023) by reflexivity.
            pose proof (pow2_le 970 1023 ltac:(lia)). lra. }
          apply pow2_lt_inv in H0. lia. }
        assert (Q : 2 ^ q == 2 ^ 971).
        { replace q with 971%Z by (unfold q, JS.quantum; lia). reflexivity. }
        assert (M : (2 ^ 53 - 1 + 1 <= m)%Z).
        { apply nearest_even_odd_half; [reflexivity|].
          apply Qle_shift_div_l; [exact Pq|]. rewrite Q.
          unfold Z.sub. rewrite inject_Z_plus, inject_Z_opp, pow2_Z by lia.
          change (inject_Z 1) with 1. lra. }
        replace (2 ^ 53 - 1 + 1)%Z with (2 ^ 53)%Z in M by lia.
        rewrite Zle_Qle, pow2_Z in M by lia. rewrite Q in O'. nra. }
  destruct (Q_dec 0 x) as [[L|L]|L].
  - rewrite (Qabs_pos x) by lra. now apply P.
  - rewrite (Qabs_neg x) by lra. rewrite <- (P (- x)) by lra.
    rewrite round_opp. split; intros (s & H).
    + exists (negb s). now rewrite H.
    + exists (negb s). destruct (JS.round x) as [|t|y]; try discriminate.
      cbn [JS.neg] in H. injection H as <-. now rewrite negb_involutive.
  - rewrite (round_zero x) by (now rewrite <- L). rewrite <- L.
    change (Qabs 0) with 0. split; [intros (s & H); discriminate|].
    intros H. exfalso.
    assert (E : 2 ^ 1024 == 2 ^ 54 * 2 ^ 970) by reflexivity.
    pose proof (pow2_pos 970). assert (1 < 2 ^ 54) by reflexivity. nra.
Qed.

(** [isDouble] decides the doubles. *)
Lemma isDouble_binary64 (q : Q) :
  JS.isDouble (JS.Fin q) = true <-> JS.binary64 q.
Proof.
  unfold JS.isDouble. split.
  - destruct (JS.round q) as [| |y] eqn:R; try discriminate.
    intros H. apply Qeq_bool_iff in H.
    destruct (round_binary64 q y R) as (m & e & Hm & He & E).
    exists m, e. split; [exact Hm|]. split; [exact He|]. now rewrite <- H.
  - intros B. destruct (JS.round q) as [|s|y] eqn:R.
    + now apply round_not_NaN in R.
    + exfalso.
      assert (O : 2 ^ 1024 - 2 ^ 970 <= Qabs q)
        by (apply round_overflow; eauto).
      destruct B as (m & e & Hm & He & E).
      pose proof (pow2_pos e) as P. pose proof (pow2_le e 971 ltac:(lia)) as L.
      assert (M : Qabs (inject_Z m) <= 2 ^ 53 - 1).
      { change (Qabs (inject_Z m)) with (inject_Z (Z.abs m)).
        rewrite <- pow2_Z by lia. change 1 with (inject_Z 1).
        unfold Qminus.
        rewrite <- inject_Z_opp, <- inject_Z_plus, <- Zle_Qle. lia. }
      rewrite E, Qabs_Qmult, (Qabs_pos (2 ^ e)) in O by lra.
      pose proof (Qabs_nonneg (inject_Z m)) as M0.
      assert (E1 : 2 ^ 1024 == 2 ^ 53 * 2 ^ 971) by reflexivity.
      assert (E2 : 2 ^ 971 == 2 * 2 ^ 970) by reflexivity.
      pose proof (pow2_pos 970).
      set (am := Qabs (inject_Z m)) in *. nra.
    + apply Qeq_bool_iff.
      pose proof (round_nearest q y q R B) as N.
      setoid_replace (q - q) with 0 in N by ring. change (Qabs 0) with 0 in N.
      pose proof (Qabs_nonneg (y - q)) as N0.
      assert (Z : Qabs (y - q) == 0) by lra.
      apply Qabs_Qle_condition in N. lra.
Qed.

(** Some roundings: a sum that is not the decimal sum, a tie that goes to
    the even significand, the smallest positive double and half of it, the
    largest double and the overflow of a product. *)
Example roundings :
  JS.rounded (JS.add (JS.lit 0.1) (JS.lit 0.2)) = JS.lit 0.30000000000000004
  /\ JS.lit 0.30000000000000004 <> JS.lit 0.3
  /\ JS.round (inject_Z (2 ^ 53 + 1)) = JS.of_Z (2 ^ 53)
  /\ JS.round (inject_Z (2 ^ 53 + 3)) = JS.of_Z (2 ^ 53 + 4)
  /\ JS.isDouble (JS.Fin (2 ^ (-1074))) = true
  /\ JS.round (2 ^ (-1075)) = JS.Fin 0
  /\ JS.isDouble (JS.lit 1.7976931348623157e308) = true
  /\ JS.rounded (JS.mul (JS.lit 1e308) JS.hundred) = JS.Inf false.
Proof.
  repeat split; try (vm_compute; reflexivity).
  vm_compute. discriminate.
Qed.

(** ** Appending and resetting *)

Lemma appendAll_history (ds : list HistoryEntry) :
  forall st, App.emotionHistory (appendAll ds st)
             = (App.emotionHistory st ++ ds)%list.
Proof.
  induction ds as [|d ds IH]; intros st; simpl.
  - now rewrite app_nil_r.
  - unfold appendAll in IH. rewrite IH. simpl. now rewrite <- app_assoc.
Qed.

(** C2: an append puts the observation at the end of the history; after any
    sequence of appends the history is the old one followed by the appended
    observations in the order of the appends, so every earlier entry keeps
    its place and its value, and a traversal (the rows of the table) visits
    them in that order. *)
Theorem append_order_preserved :
  forall (ds : list HistoryEntry) (st : App.State),
    (forall d, App.emotionHistory (App.handleEmotionHistory d st)
               = (App.emotionHistory st ++ [d])%list)
    /\ App.emotionHistory (appendAll ds st) = (App.emotionHistory st ++ ds)%list
    /\ App.emotionHistory (appendAll ds App.initial) = ds
    /\ firstn (List.length (App.emotionHistory st))
              (App.emotionHistory (appendAll ds st)) = App.emotionHistory st
    /\ (forall i, nth_error (App.emotionHistory (appendAll ds st))
                            (List.length (App.emotionHistory st) + i)
                  = nth_error ds i)
    /\ (forall N L, App.rows N L (App.emotionHistory (appendAll ds App.initial))
                    = map (App.row N L) ds).
Proof.
  intros ds st. repeat split.
  - rewrite appendAll_history.
    reflexivity.
  - rewrite appendAll_history. reflexivity.
  - rewrite appendAll_history, firstn_app, Nat.sub_diag, firstn_all.
    simpl. now rewrite app_nil_r.
  - intros i. rewrite appendAll_history, nth_error_app2 by lia.
    f_equal. lia.
  - intros N L. now rewrite appendAll_history.
Qed.

(** C10: the reset asks for confirmation. Declined, it leaves the whole
    state, history and current emotion included, as it was; confirmed, it
    empties the history and also sets the current emotion to ["neutral"],
    and touches nothing else. *)
Theorem handleReset_confirmation_gated :
  forall st : App.State,
    App.handleReset false st = st
    /\ App.emotionHistory (App.handleReset true st) = []
    /\ App.currentEmotion (App.handleReset true st) = "neutral"
    /\ App.isAnalyzing (App.handleReset true st) = App.isAnalyzing st
    /\ App.inputMode (App.handleReset true st) = App.inputMode st
    /\ App.selectedVideo (App.handleReset true st) = App.selectedVideo st.
Proof.
  intros st. repeat split.
Qed.

(** ** The exports *)

Lemma length_zero_iff_nil {A : Type} (l : list A) :
  (List.length l =? 0)%nat = true <-> l = [].
Proof.
  destruct l; simpl; split; intros H; try reflexivity; discriminate.
Qed.

Lemma toISOString_valid (t : Z) :
  Date.valid t = true -> exists s, Date.toISOString t = Some s.
Proof.
  intros H. unfold Date.toISOString. rewrite H.
  destruct (Date.civil (t / Date.msPerDay)) as [[y m] d]. eauto.
Qed.

Lemma toISOString_invalid (t : Z) :
  Date.valid t = false -> Date.toISOString t = None.
Proof.
  intros H. unfold Date.toISOString. now rewrite H.
Qed.

Lemma asInteger_Z (z : Z) : asInteger (JSON.JNumber (inject_Z z)) = Some z.
Proof.
  unfold asInteger. rewrite Qfloor_Z.
  assert (E : Qeq_bool (inject_Z z) (inject_Z z) = true)
    by (apply Qeq_bool_iff; reflexivity).
  now rewrite E.
Qed.

Lemma asScores_finite (o : scores) :
  forallb (fun kv => JS.isFinite (snd kv)) o = true ->
  asScores (map (fun kv => (fst kv, JSON.number (snd kv))) o) = Some o.
Proof.
  induction o as [|[k x] o IH]; cbn [forallb map asScores fst snd];
    intros H; [reflexivity|].
  apply andb_true_iff in H as [Hx Ho]. rewrite (IH Ho).
  destruct x; try discriminate. reflexivity.
Qed.

Lemma jsonEntry_reconstruct (e : HistoryEntry) (d : App.Json.entry) :
  App.jsonEntry e = Some d ->
  JS.isFinite (confidence e)
  && forallb (fun kv => JS.isFinite (snd kv)) (emotions e) = true ->
  reconstruct (App.stringifyEntry d) = Some e.
Proof.
  unfold App.jsonEntry.
  destruct (Date.toISOString (timestamp e)); [|discriminate].
  intros H F. injection H as <-. apply andb_true_iff in F as [Fc Fs].
  unfold reconstruct, App.stringifyEntry.
  cbn [JSON.field JSON.lookup String.eqb Ascii.eqb Bool.eqb
       App.Json.timestamp App.Json.dominantEmotion App.Json.confidence
       App.Json.allEmotions].
  rewrite asInteger_Z, (asScores_finite _ Fs).
  destruct e as [t em [| |c] sc]; try discriminate. reflexivity.
Qed.

Lemma jsonEntries_valid (h : list HistoryEntry) :
  validTimes h = true ->
  exists ds,
    App.jsonEntries h = Some ds
    /\ List.length ds = List.length h
    /\ (finiteNumbers h = true ->
        reconstructAll (map App.stringifyEntry ds) = Some h).
Proof.
  induction h as [|e h IH]; cbn [validTimes forallb]; intros H.
  - exists []. repeat split.
  - apply andb_true_iff in H as [He Hh].
    destruct (IH Hh) as (ds & Hds & Hlen & Hre).
    destruct (toISOString_valid _ He) as (iso & Hiso).
    assert (Hd : exists d, App.jsonEntry e = Some d)
      by (unfold App.jsonEntry; rewrite Hiso; eauto).
    destruct Hd as (d & Hd). cbn [App.jsonEntries]. rewrite Hd, Hds.
    exists (d :: ds). split; [reflexivity|].
    split; [cbn [List.length]; now rewrite Hlen|].
    cbn [finiteNumbers forallb]. intros F.
    apply andb_true_iff in F as [Fe Fh].
    cbn [map reconstructAll].
    now rewrite (jsonEntry_reconstruct _ _ Hd Fe), (Hre Fh).
Qed.

Lemma handleExportJSON_nonempty (now : Z) (h : list HistoryEntry) :
  h <> [] -> Date.valid now = true -> validTimes h = true ->
  exists iso ds,
    Date.toISOString now = Some iso
    /\ List.length ds = List.length h
    /\ (finiteNumbers h = true ->
        reconstructAll (map App.stringifyEntry ds) = Some h)
    /\ App.handleExportJSON now h
       = App.Download ("emotion-analysis-" ++ JS.string_of_Z now ++ ".json")
           (App.stringify
              {| App.Json.exportDate := iso;
                 App.Json.totalRecords := List.length h;
                 App.Json.duration := App.duration h;
                 App.Json.data := ds |}).
Proof.
  intros Hne Hnow Hh.
  destruct (toISOString_valid _ Hnow) as (iso & Hiso).
  destruct (jsonEntries_valid _ Hh) as (ds & Hds & Hlen & Hre).
  exists iso, ds. repeat split; trivial.
  unfold App.handleExportJSON, App.jsonData.
  destruct (List.length h =? 0)%nat eqn:E.
  - apply length_zero_iff_nil in E. contradiction.
  - now rewrite Hiso, Hds.
Qed.

(** C3, as the code has it: on an empty history (and only then) each of the
    two export handlers returns at once. No file is produced, neither a
    header-only table nor a payload with [totalRecords: 0], and nothing is
    thrown. *)
Theorem exports_skip_empty_history :
  forall (N : Q -> string) (L : Z -> string) (now : Z) (h : list HistoryEntry),
    App.handleExportCSV N L now [] = App.Nothing
    /\ App.handleExportJSON now [] = App.Nothing
    /\ (App.handleExportCSV N L now h = App.Nothing <-> h = [])
    /\ (App.handleExportJSON now h = App.Nothing <-> h = []).
Proof.
  intros N L now h. split; [reflexivity|]. split; [reflexivity|].
  unfold App.handleExportCSV, App.handleExportJSON.
  destruct h as [|e h]; cbn [List.length Nat.eqb].
  - split; split; reflexivity.
  - split; split; try discriminate.
    destruct (App.jsonData now (e :: h)); discriminate.
Qed.

(** C3 fails on the empty history: the table export yields no header row and
    the structured export no payload. *)
Lemma empty_history_exports_nothing :
  ~ (exists f c,
        App.handleExportCSV Sample.NumberToString Sample.toLocaleString
                            1699200003000 [] = App.Download f c)
  /\ ~ (exists f doc,
           App.handleExportJSON 1699200003000 [] = App.Download f doc
           /\ JSON.field "totalRecords" doc = Some (JSON.JNumber 0)
           /\ JSON.field "duration" doc = Some (JSON.JNumber 0)).
Proof.
  split.
  - intros (f & c & H). discriminate H.
  - intros (f & doc & H & _). discriminate H.
Qed.

(** C5, as the code has it: for every non-empty history whose timestamps
    (and the time of the call) are valid time values and whose confidences
    and scores are finite numbers, the [data] list of the exported payload
    holds one element per observation, in order, from which timestamp,
    dominant emotion, confidence and scores are rebuilt unchanged. *)
Theorem export_roundtrip_nonempty :
  forall (now : Z) (h : list HistoryEntry),
    h <> [] -> Date.valid now = true -> validTimes h = true ->
    finiteNumbers h = true ->
    roundTrip now h = Some h
    /\ exists f doc ds,
         App.handleExportJSON now h = App.Download f doc
         /\ JSON.field "totalRecords" doc
            = Some (JSON.JNumber (inject_Z (Z.of_nat (List.length h))))
         /\ JSON.field "data" doc = Some (JSON.JArray ds)
         /\ List.length ds = List.length h.
Proof.
  intros now h Hne Hnow Hh Hfin.
  destruct (handleExportJSON_nonempty now h Hne Hnow Hh)
    as (iso & ds & _ & Hlen & Hre & Hexp).
  unfold roundTrip, exportedData. rewrite Hexp. split.
  - exact (Hre Hfin).
  - eexists _, _, _. split; [reflexivity|].
    split; [reflexivity|]. split; [reflexivity|].
    now rewrite length_map.
Qed.

Lemma export_roundtrip_nonempty_witness :
  Sample.thousand <> []
  /\ Date.valid 1699203000000 = true
  /\ validTimes Sample.thousand = true
  /\ finiteNumbers Sample.thousand = true
  /\ List.length Sample.thousand = 1000%nat
  /\ roundTrip 1699203000000 Sample.thousand = Some Sample.thousand
  /\ exists f doc ds,
       App.handleExportJSON 1699203000000 Sample.thousand = App.Download f doc
       /\ JSON.field "totalRecords" doc
          = Some (JSON.JNumber
                    (inject_Z (Z.of_nat (List.length Sample.thousand))))
       /\ JSON.field "data" doc = Some (JSON.JArray ds)
       /\ List.length ds = List.length Sample.thousand.
Proof.
  split; [discriminate|]. split; [reflexivity|].
  split; [vm_compute; reflexivity|]. split; [vm_compute; reflexivity|].
  split; [reflexivity|].
  apply (export_roundtrip_nonempty 1699203000000 Sample.thousand);
    [discriminate | reflexivity | vm_compute; reflexivity
     | vm_compute; reflexivity].
Defined.

(** One observation is rebuilt as it was appended. *)
Example roundtrip_single :
  roundTrip 1699200003000 [Sample.full] = Some [Sample.full].
Proof. vm_compute. reflexivity. Qed.

(** C5 fails for a history of 0 observations: there is no payload to rebuild
    the (empty) list of observations from. *)
Lemma roundtrip_fails_on_empty_history :
  roundTrip 1699200003000 [] = None
  /\ roundTrip 1699200003000 [] <> Some [].
Proof.
  split; [reflexivity | discriminate].
Qed.

(** A confidence or a score that is not finite is written [null], from
    which the observation is not rebuilt. *)
Example roundtrip_loses_NaN :
  exportedData 1699200003000 [Sample.scored JS.NaN]
  = Some [ JSON.JObject
             [ ("timestamp", JSON.JNumber 1000);
               ("time", JSON.JString "1970-01-01T00:00:01.000Z");
               ("dominantEmotion", JSON.JString "happy");
               ("confidence", JSON.JNull);
               ("allEmotions", JSON.JObject [("happy", JSON.JNull)]) ] ]
  /\ roundTrip 1699200003000 [Sample.scored JS.NaN] = None
  /\ roundTrip 1699200003000 [Sample.scored (JS.Inf false)] = None.
Proof. repeat split. Qed.

(** ** The duration *)

Lemma safe_round (z : Z) :
  safe z = true -> JS.round (inject_Z z) = JS.of_Z z.
Proof.
  intros H. apply round_integer. now apply Z.leb_le.
Qed.

(** The difference of two timestamps is exact when it is a safe integer. *)
Lemma sub_safe (a b : Z) :
  safe (a - b) = true ->
  JS.rounded (JS.sub (JS.of_Z a) (JS.of_Z b)) = JS.of_Z (a - b).
Proof.
  intros H. cbn [JS.sub JS.add JS.neg JS.of_Z JS.rounded].
  rewrite <- (safe_round _ H). apply round_Qeq.
  unfold Z.sub. now rewrite inject_Z_plus, inject_Z_opp.
Qed.

Lemma duration_exact (h : list HistoryEntry) :
  safe (span h) = true -> App.duration h = JS.of_Z (span h).
Proof.
  destruct h as [|first rest]; [reflexivity|].
  unfold App.duration, span. apply sub_safe.
Qed.

(** Time values that are valid and not negative are less than [2^53]
    apart. *)
Lemma span_safe (h : list HistoryEntry) :
  validTimes h = true ->
  Forall (fun e => (0 <= timestamp e)%Z) h ->
  safe (span h) = true.
Proof.
  destruct h as [|first rest]; [reflexivity|].
  intros V P. unfold span, safe.
  assert (Hl : In (last (first :: rest) first) (first :: rest)).
  { destruct (exists_last (l := first :: rest) ltac:(discriminate))
      as (l' & x & E).
    rewrite E, last_last. apply in_or_app. right. now left. }
  unfold validTimes in V. rewrite forallb_forall in V.
  rewrite Forall_forall in P.
  pose proof (V _ Hl) as V1. pose proof (V first (or_introl eq_refl)) as V2.
  pose proof (P _ Hl) as P1. pose proof (P first (or_introl eq_refl)) as P2.
  unfold Date.valid in V1, V2. apply Z.leb_le in V1, V2. apply Z.leb_le.
  change (2 ^ 53)%Z with 9007199254740992%Z. lia.
Qed.

(** C6, as the code has it: for every non-empty history with valid time
    values whose first and last timestamps are no more than [2^53] apart,
    the exported [duration] is the timestamp of the last observation minus
    that of the first, which is 0 for a single observation. *)
Theorem exported_duration_nonempty :
  forall (now : Z) (h : list HistoryEntry) (first : HistoryEntry),
    hd_error h = Some first ->
    Date.valid now = true -> validTimes h = true ->
    safe (span h) = true ->
    exportedDuration now h
    = Some (JSON.JNumber
              (inject_Z (timestamp (last h first) - timestamp first)))
    /\ (List.length h = 1%nat ->
        exportedDuration now h = Some (JSON.JNumber 0)).
Proof.
  intros now h first Hhd Hnow Hh Hs.
  destruct h as [|e h]; [discriminate|]. injection Hhd as ->.
  assert (Hne : first :: h <> []) by discriminate.
  destruct (handleExportJSON_nonempty now _ Hne Hnow Hh)
    as (iso & ds & _ & _ & _ & Hexp).
  unfold exportedDuration. rewrite Hexp, (duration_exact _ Hs).
  split; [reflexivity|].
  intros Hlen. destruct h; [|discriminate].
  cbn [App.stringify JSON.field JSON.lookup String.eqb Ascii.eqb Bool.eqb
       App.Json.duration span last JS.of_Z JSON.number].
  now rewrite Z.sub_diag.
Qed.

Lemma exported_duration_nonempty_witness :
  hd_error [Sample.at_time 1000; Sample.at_time 5500]
  = Some (Sample.at_time 1000)
  /\ Date.valid 1699200003000 = true
  /\ validTimes [Sample.at_time 1000; Sample.at_time 5500] = true
  /\ safe (span [Sample.at_time 1000; Sample.at_time 5500]) = true
  /\ exportedDuration 1699200003000
       [Sample.at_time 1000; Sample.at_time 5500]
     = Some (JSON.JNumber (inject_Z (5500 - 1000))).
Proof.
  split; [reflexivity|]. split; [reflexivity|]. split; [reflexivity|].
  split; [reflexivity|].
  apply (exported_duration_nonempty 1699200003000
           [Sample.at_time 1000; Sample.at_time 5500] (Sample.at_time 1000));
    reflexivity.
Defined.

(** C6 fails for the empty history, which has fewer than 2 observations:
    no payload, hence no [duration] of 0. *)
Lemma duration_missing_on_empty_history :
  exportedDuration 1699200003000 [] = None
  /\ exportedDuration 1699200003000 [] <> Some (JSON.JNumber 0).
Proof.
  split; [reflexivity | discriminate].
Qed.

(** The observations at 1000 and 5500 are 4500 apart. *)
Example duration_1000_5500 :
  exportedDuration 1699200003000 [Sample.at_time 1000; Sample.at_time 5500]
  = Some (JSON.JNumber 4500).
Proof. vm_compute. reflexivity. Qed.

(** The two observations of the scenario are 3000 apart. *)
Example scenario_duration :
  exportedDuration 1699200003000 [Sample.first; Sample.second]
  = Some (JSON.JNumber 3000).
Proof. vm_compute. reflexivity. Qed.

(** Between the two ends of the range of [Date] the difference is not a
    double: the duration is the double next to it. *)
Example duration_rounded :
  span [Sample.at_time (-8640000000000000); Sample.at_time 8639999999999997]
  = 17279999999999997%Z
  /\ exportedDuration 1699200003000
       [Sample.at_time (-8640000000000000); Sample.at_time 8639999999999997]
     = Some (JSON.JNumber 17279999999999996).
Proof. split; vm_compute; reflexivity. Qed.

(** Behind the guard: evaluated on an empty history, which the handlers
    never do, the table would be the header row alone and the payload would
    count 0 records over a duration of 0. *)
Lemma guarded_expressions_on_empty_history :
  forall (N : Q -> string) (L : Z -> string) (now : Z),
    App.table N L [] = [App.headers]
    /\ App.duration [] = JS.Fin 0
    /\ (Date.valid now = true ->
        exists iso,
          App.jsonData now []
          = Some {| App.Json.exportDate := iso;
                    App.Json.totalRecords := 0;
                    App.Json.duration := JS.Fin 0;
                    App.Json.data := [] |}).
Proof.
  intros N L now. repeat split. intros Hnow.
  destruct (toISOString_valid now Hnow) as (iso & Hiso).
  exists iso. unfold App.jsonData. now rewrite Hiso.
Qed.

(** A timestamp outside the range of [Date] makes the structured export
    throw. *)
Example export_json_range_error :
  App.handleExportJSON 1699200003000 [Sample.at_time 8640000000000001]
  = App.RangeError.
Proof. reflexivity. Qed.

(** ** Missing labels *)

(** The chart reads a missing label as 0. *)
Lemma scaled_missing (entry : HistoryEntry) (l : label) :
  score entry l = None -> EmotionChart.scaled entry l = JS.Fin 0.
Proof.
  intros H. unfold EmotionChart.scaled. now rewrite H.
Qed.

(** The table export multiplies [undefined] and prints the [NaN]. *)
Lemma percent_missing (N : Q -> string) (entry : HistoryEntry) (l : label) :
  score entry l = None ->
  App.percent N (JS.to_number (score entry l)) = "NaN%".
Proof.
  intros H. now rewrite H.
Qed.

(** C8 at an observation whose scores hold [happy], [sad] and [neutral]
    only: the chart takes the four missing labels as 0, but their columns in
    the exported row read ["NaN%"]. *)
Theorem csv_row_missing_label_NaN :
  App.row Sample.NumberToString Sample.toLocaleString Sample.first
  = [ App.CNum 1000; App.CStr "1970-01-01T00:00:01.000Z"; App.CStr "happy";
      App.CStr "80.00%"; App.CStr "80.00%"; App.CStr "10.00%";
      App.CStr "NaN%"; App.CStr "NaN%"; App.CStr "NaN%"; App.CStr "NaN%";
      App.CStr "10.00%" ]
  /\ map (EmotionChart.scaled Sample.first) [Angry; Surprise; Fear; Disgust]
     = [JS.Fin 0; JS.Fin 0; JS.Fin 0; JS.Fin 0].
Proof.
  split; reflexivity.
Qed.

(** ** Failed detections *)

Lemma setIsDetecting_idle (st : CameraPanel.State) :
  CameraPanel.isDetecting st = false -> CameraPanel.setIsDetecting false st = st.
Proof.
  destruct st as [e c a d]. simpl. now intros ->.
Qed.

(** A result with a non-empty [error] changes nothing, wherever it comes
    from. *)
Lemma errored_result_is_dropped (webcam : bool) (imageSrc : option string)
  (r : Api.reply) (result : Api.EmotionResult) (st : CameraPanel.State) :
  Api.detectEmotion r = Some result ->
  CameraPanel.truthy_string (Api.error result) = true ->
  CameraPanel.captureAndDetect webcam imageSrc r st = (st, None).
Proof.
  intros Hr Ht. unfold CameraPanel.captureAndDetect.
  destruct (webcam && negb (CameraPanel.isDetecting st)) eqn:E; [|reflexivity].
  apply andb_true_iff in E as [_ E]. apply negb_true_iff in E.
  rewrite Hr, Ht. cbn [negb]. rewrite (setIsDetecting_idle st E).
  now destruct (CameraPanel.truthy_string imageSrc).
Qed.

(** C9, as the code has it: for a request that fails with a non-empty
    message, [detectEmotion] returns neutral with confidence 0, no scores
    and the message as [error]; [captureAndDetect] tests [error] and drops
    that result, so the panel keeps its emotion, confidence and scores and
    the parent is not told. *)
Theorem failed_detection_is_discarded :
  forall (message : string) (webcam : bool) (imageSrc : option string)
         (st : CameraPanel.State),
    message <> "" ->
    Api.detectEmotion (Api.Rejected message)
    = Some {| Api.emotion := "neutral";
              Api.confidence := JS.Fin 0;
              Api.all_emotions := None;
              Api.error := Some message |}
    /\ CameraPanel.captureAndDetect webcam imageSrc (Api.Rejected message) st
       = (st, None).
Proof.
  intros message webcam imageSrc st Hmsg. split; [reflexivity|].
  eapply errored_result_is_dropped; [reflexivity|].
  simpl. apply negb_true_iff, String.eqb_neq, Hmsg.
Qed.

Lemma failed_detection_is_discarded_witness :
  "Network Error" <> ""
  /\ Api.detectEmotion (Api.Rejected "Network Error")
     = Some {| Api.emotion := "neutral";
               Api.confidence := JS.Fin 0;
               Api.all_emotions := None;
               Api.error := Some "Network Error" |}
  /\ CameraPanel.captureAndDetect true
       (Some "data:image/jpeg;base64,/9j/4AAQ")
       (Api.Rejected "Network Error") Sample.panel
     = (Sample.panel, None).
Proof.
  split; [discriminate|].
  apply (failed_detection_is_discarded "Network Error" true
           (Some "data:image/jpeg;base64,/9j/4AAQ") Sample.panel).
  discriminate.
Defined.

(** C9 fails after a failed request: the panel still shows the emotion it
    had, not neutral, and the substituted result carries no scores at all,
    not an empty mapping. *)
Lemma failed_detection_keeps_previous_emotion :
  let after :=
    CameraPanel.captureAndDetect true (Some "data:image/jpeg;base64,/9j/4AAQ")
      (Api.Rejected "Network Error") Sample.panel in
  CameraPanel.emotion (fst after) = "happy"
  /\ CameraPanel.emotion (fst after) <> "neutral"
  /\ CameraPanel.confidence (fst after) = JS.lit 0.89
  /\ CameraPanel.allEmotions (fst after) <> []
  /\ snd after = None
  /\ option_map Api.all_emotions
       (Api.detectEmotion (Api.Rejected "Network Error")) = Some None.
Proof.
  vm_compute. repeat split; discriminate.
Qed.

(** An error whose message is the empty string passes the test of
    [error]: only then does the substituted result reach the panel. *)
Example failed_detection_empty_message :
  CameraPanel.captureAndDetect true (Some "data:image/jpeg;base64,/9j/4AAQ")
    (Api.Rejected "") Sample.panel
  = ({| CameraPanel.emotion := "neutral";
        CameraPanel.confidence := JS.Fin 0;
        CameraPanel.allEmotions := [];
        CameraPanel.isDetecting := false |}, Some "neutral").
Proof. reflexivity. Qed.

(** A successful response does reach the panel and the parent. *)
Example successful_detection_reaches_state :
  CameraPanel.captureAndDetect true (Some "data:image/jpeg;base64,/9j/4AAQ")
    (Api.Resolved
       (Some {| Api.emotion := "sad";
                Api.confidence := JS.lit 0.6;
                Api.all_emotions := Some (emotions Sample.second);
                Api.error := None |}))
    CameraPanel.initial
  = ({| CameraPanel.emotion := "sad";
        CameraPanel.confidence := JS.lit 0.6;
        CameraPanel.allEmotions := emotions Sample.second;
        CameraPanel.isDetecting := false |}, Some "sad").
Proof. reflexivity. Qed.

(** ** The averages under the chart *)

Lemma get_forallb (P : JS.number -> bool) (o : scores) (k : string)
  (v : JS.number) :
  forallb (fun kv => P (snd kv)) o = true -> get o k = Some v -> P v = true.
Proof.
  induction o as [|[k' x] o IH]; simpl; [discriminate|].
  intros H. apply andb_true_iff in H as [Hx Ho].
  destruct (String.eqb k' k); [now intros [= <-] | auto].
Qed.

Lemma defaulted_unit (e : HistoryEntry) (l : label) :
  forallb (fun kv => inUnit (snd kv)) (emotions e) = true ->
  0 <= defaulted e l <= 1.
Proof.
  intros H. unfold defaulted.
  destruct (score e l) as [v|] eqn:E; [|lra].
  pose proof (get_forallb inUnit _ _ _ H E) as Hv.
  destruct v as [| |q]; try discriminate. simpl in Hv.
  apply andb_true_iff in Hv as [H0 H1].
  apply Qle_bool_iff in H0, H1. lra.
Qed.

(** What the chart plots for a label is the double nearest to 100 times
    its score, 0 for a missing label. *)
Lemma scaled_round (e : HistoryEntry) (l : label) :
  forallb (fun kv => inUnit (snd kv)) (emotions e) = true ->
  EmotionChart.scaled e l = JS.round (defaulted e l * 100).
Proof.
  intros H. unfold EmotionChart.scaled, defaulted, JS.or_zero.
  destruct (score e l) as [v|] eqn:S; [|reflexivity].
  pose proof (get_forallb inUnit _ _ _ H S) as Hv.
  destruct v as [| |q]; try discriminate.
  cbn [JS.truthy JS.to_number].
  destruct (Qeq_bool q 0) eqn:Z;
    cbn [negb JS.zero JS.hundred JS.mul JS.rounded]; [|reflexivity].
  apply round_Qeq. apply Qeq_bool_iff in Z. now rewrite Z.
Qed.

Lemma scaled_unit (e : HistoryEntry) (l : label) :
  forallb (fun kv => inUnit (snd kv)) (emotions e) = true ->
  exists p,
    EmotionChart.scaled e l = JS.Fin p
    /\ 0 <= p <= 100
    /\ Qabs (p - defaulted e l * 100) <= 100 * JS.unitRoundoff + JS.tiny.
Proof.
  intros H. pose proof (defaulted_unit e l H) as D.
  rewrite (scaled_round e l H).
  destruct (round_bounded (defaulted e l * 100) 100) as (p & Hp & Hb).
  { change (inject_Z 100) with 100. lra. }
  { reflexivity. }
  change (inject_Z 100) with 100 in Hb.
  exists p. split; [exact Hp|]. split; [exact Hb|].
  assert (P0 : 0 <= defaulted e l * 100) by lra.
  pose proof (round_error _ _ P0 Hp) as R.
  apply Qabs_Qle_condition in R. apply Qabs_Qle_condition.
  unfold JS.unitRoundoff in *. lra.
Qed.

Lemma tiny_small : JS.tiny <= 1 # 1000000000000000000000000000000.
Proof. apply Qle_bool_iff. vm_compute. reflexivity. Qed.

(** One more value in a rounded sum. *)
Lemma sum_step (K s S p P s' : Q) :
  0 <= s <= 100 * K ->
  Qabs (s - S) <= sumError K ->
  0 <= p <= 100 ->
  Qabs (p - P) <= 100 * JS.unitRoundoff + JS.tiny ->
  Qabs (s' - (s + p)) <= (s + p) * JS.unitRoundoff + JS.tiny ->
  Qabs (s' - (S + P)) <= sumError (K + 1).
Proof.
  unfold sumError, JS.unitRoundoff. intros Hs E Hp Ep Er.
  apply Qabs_Qle_condition in E, Ep, Er. apply Qabs_Qle_condition.
  set (t := JS.tiny) in *. clearbody t.
  split; lra.
Qed.

(** The rounded quotient of a rounded sum of at most 100000 values. *)
Lemma mean_step (N sN tot a : Q) :
  1 <= N <= 100000 ->
  0 <= sN <= 100 * N ->
  Qabs (sN - 100 * tot) <= sumError N ->
  Qabs (a - sN / N) <= (sN / N) * JS.unitRoundoff + JS.tiny ->
  Qabs (a - 100 * (tot / N)) <= tolerance.
Proof.
  intros HN Hs E Ea. pose proof tiny_small as Ht. pose proof tiny_pos as T0.
  unfold sumError in E.
  set (t := JS.tiny) in *. clearbody t.
  assert (N0 : 0 < N) by lra.
  set (m := sN / N) in *. set (v := tot / N).
  assert (Em : sN == m * N) by (unfold m; field; lra).
  assert (Ev : tot == v * N) by (unfold v; field; lra).
  clearbody m v.
  unfold JS.unitRoundoff, tolerance in *.
  apply Qabs_Qle_condition in E, Ea. apply Qabs_Qle_condition.
  rewrite Em, Ev in E. rewrite Em in Hs. clear Em Ev.
  assert (M : 0 <= m <= 100).
  { split; apply (Qmult_le_r _ _ N N0); lra. }
  assert (D : - (50 * (1 # 9007199254740992) * (N + 3) + 2 * t)
              <= m - 100 * v
              <= 50 * (1 # 9007199254740992) * (N + 3) + 2 * t).
  { split; apply (Qmult_le_r _ _ N N0); lra. }
  split; lra.
Qed.

Lemma inject_nat_succ (k : nat) :
  inject_Z (Z.of_nat (S k)) == inject_Z (Z.of_nat k) + 1.
Proof.
  rewrite Nat2Z.inj_succ, <- Z.add_1_r, inject_Z_plus. reflexivity.
Qed.

Lemma inject_nat_nonneg (k : nat) : 0 <= inject_Z (Z.of_nat k).
Proof.
  change 0 with (inject_Z 0). rewrite <- Zle_Qle. lia.
Qed.

Lemma inject_length_pos {A : Type} (h : list A) :
  h <> [] -> 1 <= inject_Z (Z.of_nat (List.length h)).
Proof.
  destruct h as [|x h]; [contradiction|]. intros _. cbn [List.length].
  rewrite inject_nat_succ. pose proof (inject_nat_nonneg (List.length h)).
  lra.
Qed.

Section Averages.

Variable toLocaleTimeString : Z -> string.

Lemma chartFrom_length (h : list HistoryEntry) :
  forall i, List.length (EmotionChart.chartFrom toLocaleTimeString i h)
            = List.length h.
Proof.
  induction h as [|e h IH]; intros i; simpl; [reflexivity|].
  now rewrite IH.
Qed.

Lemma value_chartPoint (i : nat) (entry : HistoryEntry) (l : label) :
  EmotionChart.value (EmotionChart.chartPoint toLocaleTimeString i entry) l
  = EmotionChart.scaled entry l.
Proof.
  now destruct l.
Qed.

(** The exact sum of the plotted values. *)
Lemma reduce_exact (l : label) (h : list HistoryEntry) :
  unitScores h = true ->
  forall (i : nat) (acc : Q),
  exists q,
    fold_left (fun a curr => JS.add a (EmotionChart.value curr l))
              (EmotionChart.chartFrom toLocaleTimeString i h) (JS.Fin acc)
    = JS.Fin q
    /\ acc <= q <= acc + 100 * inject_Z (Z.of_nat (List.length h)).
Proof.
  induction h as [|e h IH]; cbn [unitScores forallb]; intros H i acc.
  - exists acc. split; [reflexivity|].
    change (inject_Z (Z.of_nat (List.length (@nil HistoryEntry)))) with 0. lra.
  - apply andb_true_iff in H as [He Hh].
    destruct (scaled_unit e l He) as (p & Hp & Hb & _).
    cbn [EmotionChart.chartFrom fold_left].
    rewrite value_chartPoint, Hp. cbn [JS.add].
    destruct (IH Hh (S i) (acc + p)) as (q & Hq & Hqq).
    exists q. split; [exact Hq|].
    cbn [List.length]. rewrite inject_nat_succ. lra.
Qed.

(** In exact arithmetic the average of values between 0 and 100 lies
    between 0 and 100. *)
Lemma avgValue_unit (l : label) (h : list HistoryEntry) :
  h <> [] -> unitScores h = true ->
  percent100
    (EmotionChart.avgValue l (EmotionChart.chartData toLocaleTimeString h)).
Proof.
  intros Hne H. unfold EmotionChart.avgValue, EmotionChart.chartData.
  destruct (reduce_exact l h H 0%nat 0) as (s & Hs & Hb).
  unfold JS.zero. rewrite Hs, chartFrom_length.
  unfold JS.of_nat, JS.of_Z, JS.div.
  pose proof (inject_length_pos h Hne) as H1.
  set (N := inject_Z (Z.of_nat (List.length h))) in *.
  assert (Hn : 0 < N) by lra.
  destruct (Qeq_bool N 0) eqn:E.
  - apply Qeq_bool_iff in E. lra.
  - eexists. split; [reflexivity|]. split.
    + apply Qle_shift_div_l; [exact Hn | lra].
    + apply Qle_shift_div_r; [exact Hn | lra].
Qed.

(** The rounded sum of the plotted values, with the bound on its error. *)
Lemma reduce_rounded (l : label) (h : list HistoryEntry) :
  unitScores h = true ->
  forall (i k : nat) (s S : Q),
    (Z.of_nat (k + List.length h) <= 100000)%Z ->
    0 <= s <= 100 * inject_Z (Z.of_nat k) ->
    Qabs (s - S) <= sumError (inject_Z (Z.of_nat k)) ->
    exists s',
      fold_left
        (fun a curr => JS.rounded (JS.add a (EmotionChart.value curr l)))
        (EmotionChart.chartFrom toLocaleTimeString i h) (JS.Fin s)
      = JS.Fin s'
      /\ 0 <= s' <= 100 * inject_Z (Z.of_nat (k + List.length h))
      /\ Qabs (s' - (S + 100 * total l h))
         <= sumError (inject_Z (Z.of_nat (k + List.length h))).
Proof.
  induction h as [|e h IH]; cbn [unitScores forallb]; intros H i k s S Hk Hs E.
  - exists s. cbn [List.length total fold_right]. rewrite Nat.add_0_r.
    split; [reflexivity|]. split; [exact Hs|].
    setoid_replace (S + 100 * 0) with S by ring. exact E.
  - apply andb_true_iff in H as [He Hh]. cbn [List.length] in Hk.
    destruct (scaled_unit e l He) as (p & Hp & Hb & Ep).
    cbn [EmotionChart.chartFrom fold_left].
    rewrite value_chartPoint, Hp. cbn [JS.add JS.rounded].
    pose proof (inject_nat_succ k) as Ek.
    destruct (round_bounded (s + p) (100 * Z.of_nat (Datatypes.S k)))
      as (s1 & Hs1 & Hb1).
    { rewrite inject_Z_mult, Ek. change (inject_Z 100) with 100. lra. }
    { change (2 ^ 53)%Z with 9007199254740992%Z. lia. }
    rewrite inject_Z_mult in Hb1. change (inject_Z 100) with 100 in Hb1.
    assert (P0 : 0 <= s + p) by lra.
    pose proof (round_error _ _ P0 Hs1) as R.
    pose proof (sum_step _ _ _ _ _ _ Hs E Hb Ep R) as E1.
    unfold sumError in E1. rewrite <- Ek in E1.
    fold (sumError (inject_Z (Z.of_nat (Datatypes.S k)))) in E1.
    rewrite Hs1.
    destruct (IH Hh (Datatypes.S i) (Datatypes.S k) s1
                 (S + defaulted e l * 100))
      as (s' & Hs' & Hb' & E').
    { lia. }
    { exact Hb1. }
    { exact E1. }
    exists s'. split; [exact Hs'|].
    cbn [List.length total fold_right].
    rewrite Nat.add_succ_r. split; [exact Hb'|].
    setoid_replace (S + 100 * (defaulted e l + total l h))
      with (S + defaulted e l * 100 + 100 * total l h) by (unfold total; ring).
    exact E'.
Qed.

(** The average as it is computed, for at most 100000 observations with
    scores between 0 and 1: a number between 0 and 100, within the
    tolerance of 100 times the mean of the scores. *)
Lemma avgValueRounded_mean (l : label) (h : list HistoryEntry) :
  h <> [] -> unitScores h = true ->
  (Z.of_nat (List.length h) <= 100000)%Z ->
  exists a,
    EmotionChart.avgValueRounded l
      (EmotionChart.chartData toLocaleTimeString h) = JS.Fin a
    /\ 0 <= a <= 100
    /\ Qabs (a - 100 * mean l h) <= tolerance.
Proof.
  intros Hne H Hlen.
  unfold EmotionChart.avgValueRounded, EmotionChart.chartData.
  destruct (reduce_rounded l h H 0%nat 0%nat 0 0) as (s & Hs & Hb & E).
  { exact Hlen. }
  { change (inject_Z (Z.of_nat 0)) with 0. lra. }
  { apply Qle_bool_iff. vm_compute. reflexivity. }
  cbn [Nat.add] in Hb, E.
  unfold JS.zero. rewrite Hs, chartFrom_length.
  unfold JS.of_nat, JS.of_Z, JS.div, mean.
  pose proof (inject_length_pos h Hne) as H1.
  set (N := inject_Z (Z.of_nat (List.length h))) in *.
  assert (HN : 1 <= N <= 100000).
  { split; [exact H1|]. unfold N.
    change 100000 with (inject_Z 100000). rewrite <- Zle_Qle. lia. }
  destruct (Qeq_bool N 0) eqn:Z.
  { apply Qeq_bool_iff in Z. lra. }
  cbn [JS.rounded].
  assert (N0 : 0 < N) by lra.
  destruct (round_bounded (s / N) 100) as (a & Ha & Hab).
  { change (inject_Z 100) with 100. split.
    - apply Qle_shift_div_l; [exact N0 | lra].
    - apply Qle_shift_div_r; [exact N0 | lra]. }
  { reflexivity. }
  change (inject_Z 100) with 100 in Hab.
  exists a. split; [exact Ha|]. split; [exact Hab|].
  assert (P0 : 0 <= s / N) by (apply Qle_shift_div_l; [exact N0 | lra]).
  pose proof (round_error _ _ P0 Ha) as R.
  setoid_replace (0 + 100 * total l h) with (100 * total l h) in E by ring.
  exact (mean_step N s (total l h) a HN Hb E R).
Qed.

End Averages.

(** C1, as the code has it: for every non-empty history of at most 100000
    observations whose scores lie between 0 and 1, the chart computes an
    average for the first four labels only (happy, sad, angry, surprise),
    and each is within [1e-9] of 100 times the arithmetic mean of the
    label's score (a missing label counting as 0) across the observations,
    a percentage; on an empty history no statistics are computed at all. *)
Theorem stats_near_scaled_means :
  forall (T : Z -> string) (h : list HistoryEntry),
    h <> [] -> unitScores h = true ->
    (Z.of_nat (List.length h) <= 100000)%Z ->
    EmotionChart.stats T [] = None
    /\ exists a b c d,
         EmotionChart.stats T h
         = Some [ (Happy, "#FBBF24", JS.Fin a); (Sad, "#3B82F6", JS.Fin b);
                  (Angry, "#EF4444", JS.Fin c);
                  (Surprise, "#A855F7", JS.Fin d) ]
         /\ Qabs (a - 100 * mean Happy h) <= tolerance
         /\ Qabs (b - 100 * mean Sad h) <= tolerance
         /\ Qabs (c - 100 * mean Angry h) <= tolerance
         /\ Qabs (d - 100 * mean Surprise h) <= tolerance.
Proof.
  intros T h Hne Hu Hlen. split; [reflexivity|].
  destruct (avgValueRounded_mean T Happy h Hne Hu Hlen) as (a & Ha & _ & Haq).
  destruct (avgValueRounded_mean T Sad h Hne Hu Hlen) as (b & Hb & _ & Hbq).
  destruct (avgValueRounded_mean T Angry h Hne Hu Hlen) as (c & Hc & _ & Hcq).
  destruct (avgValueRounded_mean T Surprise h Hne Hu Hlen)
    as (d & Hd & _ & Hdq).
  exists a, b, c, d. repeat split; trivial.
  unfold EmotionChart.stats.
  destruct h as [|e h]; [contradiction|].
  cbn [List.length Nat.ltb Nat.leb firstn EmotionChart.emotionColors map].
  now rewrite Ha, Hb, Hc, Hd.
Qed.

Lemma stats_near_scaled_means_witness :
  [Sample.first; Sample.second] <> []
  /\ unitScores [Sample.first; Sample.second] = true
  /\ (Z.of_nat (List.length [Sample.first; Sample.second]) <= 100000)%Z
  /\ EmotionChart.stats Sample.toLocaleString [] = None
  /\ exists a b c d,
       EmotionChart.stats Sample.toLocaleString [Sample.first; Sample.second]
       = Some [ (Happy, "#FBBF24", JS.Fin a); (Sad, "#3B82F6", JS.Fin b);
                (Angry, "#EF4444", JS.Fin c);
                (Surprise, "#A855F7", JS.Fin d) ]
       /\ Qabs (a - 100 * mean Happy [Sample.first; Sample.second])
          <= tolerance
       /\ Qabs (b - 100 * mean Sad [Sample.first; Sample.second])
          <= tolerance
       /\ Qabs (c - 100 * mean Angry [Sample.first; Sample.second])
          <= tolerance
       /\ Qabs (d - 100 * mean Surprise [Sample.first; Sample.second])
          <= tolerance.
Proof.
  split; [discriminate|]. split; [vm_compute; reflexivity|].
  split; [discriminate|].
  apply (stats_near_scaled_means Sample.toLocaleString
           [Sample.first; Sample.second]);
    [discriminate | vm_compute; reflexivity | discriminate].
Defined.

(** C1 fails on the two observations of the scenario: the average shown for
    happy is 45, not the mean 0.45; neutral, whose mean is 0.2, gets no
    average; and the empty history gets no zero-filled result, where the
    division left unguarded would yield [NaN]. *)
Lemma stats_are_not_the_means :
  EmotionChart.stats Sample.toLocaleString [Sample.first; Sample.second]
  = Some [ (Happy, "#FBBF24", JS.Fin 45); (Sad, "#3B82F6", JS.Fin 35);
           (Angry, "#EF4444", JS.Fin 0); (Surprise, "#A855F7", JS.Fin 0) ]
  /\ Qabs (mean Happy [Sample.first; Sample.second] - 0.45) <= tolerance
  /\ ~ Qabs (45 - mean Happy [Sample.first; Sample.second]) <= tolerance
  /\ Qabs (mean Neutral [Sample.first; Sample.second] - 0.2) <= tolerance
  /\ EmotionChart.stats Sample.toLocaleString [] = None
  /\ EmotionChart.avgValueRounded Happy
       (EmotionChart.chartData Sample.toLocaleString []) = JS.NaN.
Proof.
  split; [vm_compute; reflexivity|].
  split; [apply Qle_bool_iff; vm_compute; reflexivity|].
  split; [|split; [apply Qle_bool_iff; vm_compute; reflexivity
                  | split; reflexivity]].
  intros H. apply Qle_bool_iff in H. vm_compute in H. discriminate H.
Qed.

(** The sums are rounded: for the scores 0.29 and 0.57 the average is
    42.99999999999999, which is not 100 times their mean but lies within
    the tolerance of it. *)
Example average_is_rounded :
  let h := [Sample.scored (JS.lit 0.29); Sample.scored (JS.lit 0.57)] in
  exists a,
    EmotionChart.avgValueRounded Happy
      (EmotionChart.chartData Sample.toLocaleString h) = JS.Fin a
    /\ JS.Fin a = JS.lit 42.99999999999999
    /\ ~ a == 100 * mean Happy h
    /\ Qabs (a - 100 * mean Happy h) <= tolerance.
Proof.
  exists (6051711999279103 # 140737488355328).
  split; [vm_compute; reflexivity|]. split; [vm_compute; reflexivity|].
  split; [|apply Qle_bool_iff; vm_compute; reflexivity].
  intros H. apply Qeq_bool_iff in H. vm_compute in H. discriminate H.
Qed.

(** ** The emotion bars *)

Section Bars.

Import CameraPanel.

Lemma positive_compareFn (a b : string * JS.number) :
  JS.isFinite (snd a) = true -> JS.isFinite (snd b) = true ->
  (positive (compareFn a b) = true <-> val a < val b).
Proof.
  unfold compareFn, val. destruct (snd a), (snd b); try discriminate.
  intros _ _. simpl. rewrite negb_true_iff.
  split.
  - intros H. apply Qnot_le_lt. intros Hle.
    assert (Hb : Qle_bool (q0 + - q) 0 = true) by (apply Qle_bool_iff; lra).
    congruence.
  - intros H. destruct (Qle_bool (q0 + - q) 0) eqn:E; [|reflexivity].
    apply Qle_bool_iff in E. lra.
Qed.

(** Rounding keeps a number that is not below the smallest positive double
    positive. *)
Lemma round_positive_sign (x : Q) :
  2 ^ (-1074) <= x -> positive (JS.round x) = true.
Proof.
  intros H. pose proof (pow2_pos (-1074)) as T.
  assert (Hx : 0 < x) by lra.
  destruct (round_positive x Hx) as (a & Ea & ->). cbv zeta.
  set (e := JS.quantum a). set (m := JS.nearest_even (a / 2 ^ e)).
  destruct (Qle_bool (2 ^ 1024) (inject_Z m * 2 ^ e)); [reflexivity|].
  cbn [positive]. apply negb_true_iff.
  destruct (Qle_bool (Qred (inject_Z m * 2 ^ e)) 0) eqn:E; [|reflexivity].
  apply Qle_bool_iff in E.
  assert (Hy : Qred (inject_Z m * 2 ^ e) == inject_Z m * 2 ^ e)
    by apply Qred_correct.
  rewrite Hy in E.
  pose proof (pow2_pos e) as Pe.
  assert (A : 0 < a) by lra.
  assert (M : (1 <= m)%Z).
  { apply nearest_even_ge. change (inject_Z 1) with 1.
    apply Qle_shift_div_l; [exact Pe|]. rewrite Qmult_1_l.
    unfold e, JS.quantum.
    destruct (Z.max_spec (JS.ilog2 a - 52) (-1074)) as [[_ ->]|[_ ->]].
    - lra.
    - pose proof (ilog2_le a A) as L.
      pose proof (pow2_le (JS.ilog2 a - 52) (JS.ilog2 a) ltac:(lia)). lra. }
  rewrite Zle_Qle in M. change (inject_Z 1) with 1 in M.
  exfalso. nra.
Qed.

(** The sign of a difference of two doubles survives its rounding: the
    comparator of the sort may be taken before rounding. *)
Lemma rounded_difference_sign (a b : Q) :
  JS.isDouble (JS.Fin a) = true -> JS.isDouble (JS.Fin b) = true ->
  positive (JS.rounded (JS.sub (JS.Fin b) (JS.Fin a)))
  = positive (JS.sub (JS.Fin b) (JS.Fin a)).
Proof.
  intros Ha Hb.
  destruct (double_grid a Ha) as (ka & Ka).
  destruct (double_grid b Hb) as (kb & Kb).
  cbn [JS.sub JS.add JS.neg JS.rounded positive].
  pose proof (pow2_pos (-1074)) as T.
  assert (D : b + - a == inject_Z (kb - ka) * 2 ^ (-1074)).
  { unfold Z.sub. rewrite inject_Z_plus, inject_Z_opp, Ka, Kb. ring. }
  destruct (Z.lt_trichotomy (kb - ka) 0) as [L|[L|L]].
  - (* negative *)
    assert (N : 2 ^ (-1074) <= - (b + - a)).
    { rewrite D. assert (I : (1 <= - (kb - ka))%Z) by lia.
      rewrite Zle_Qle, inject_Z_opp in I. change (inject_Z 1) with 1 in I.
      nra. }
    pose proof (round_positive_sign _ N) as R. rewrite round_opp in R.
    assert (E : Qle_bool (b + - a) 0 = true) by (apply Qle_bool_iff; lra).
    rewrite E. cbn [negb].
    destruct (JS.round (b + - a)) as [|s|y]; cbn [JS.neg positive] in *.
    + reflexivity.
    + now destruct s.
    + apply negb_true_iff in R. apply negb_false_iff, Qle_bool_iff.
      destruct (Qlt_le_dec 0 y) as [P|P]; [|exact P].
      assert (Q0 : Qle_bool (- y) 0 = true) by (apply Qle_bool_iff; lra).
      congruence.
  - rewrite L in D. rewrite (round_zero (b + - a)) by (rewrite D; ring).
    cbn [positive].
    assert (E : Qle_bool (b + - a) 0 = true)
      by (apply Qle_bool_iff; rewrite D; change (inject_Z 0) with 0; lra).
    now rewrite E.
  - assert (N : 2 ^ (-1074) <= b + - a).
    { rewrite D. assert (I : (1 <= kb - ka)%Z) by lia.
      rewrite Zle_Qle in I. change (inject_Z 1) with 1 in I. nra. }
    rewrite (round_positive_sign _ N). symmetry. apply negb_true_iff.
    destruct (Qle_bool (b + - a) 0) eqn:E; [|reflexivity].
    apply Qle_bool_iff in E. lra.
Qed.

Lemma insert_perm (a : string * JS.number) (l : list (string * JS.number)) :
  Permutation (insert a l) (a :: l).
Proof.
  induction l as [|b l IH]; simpl; [reflexivity|].
  destruct (positive (compareFn a b)); [|reflexivity].
  rewrite IH. apply perm_swap.
Qed.

Lemma sort_perm (l : list (string * JS.number)) : Permutation (sort l) l.
Proof.
  induction l as [|a l IH]; simpl; [reflexivity|].
  now rewrite insert_perm, IH.
Qed.

Lemma finiteEntries_perm (l l' : list (string * JS.number)) :
  Permutation l l' -> finiteEntries l = true -> finiteEntries l' = true.
Proof.
  unfold finiteEntries. rewrite !forallb_forall.
  intros P H x Hx. apply H. now apply (Permutation_in _ (Permutation_sym P)).
Qed.

Lemma insert_descending (a : string * JS.number)
  (l : list (string * JS.number)) :
  JS.isFinite (snd a) = true -> finiteEntries l = true ->
  descending l -> descending (insert a l).
Proof.
  intros Ha. unfold descending.
  induction l as [|b l IH]; simpl; intros Hl S.
  - repeat constructor.
  - apply andb_true_iff in Hl as [Hb Hl].
    apply StronglySorted_inv in S as [S F].
    destruct (positive (compareFn a b)) eqn:E.
    + apply positive_compareFn in E; trivial.
      constructor; [now apply IH|].
      apply (Permutation_Forall (Permutation_sym (insert_perm a l))).
      constructor; [lra | exact F].
    + assert (Hle : val b <= val a).
      { apply Qnot_lt_le. intros Hlt.
        apply positive_compareFn in Hlt; trivial. congruence. }
      constructor; [now constructor|].
      constructor; [exact Hle|].
      eapply Forall_impl; [|exact F]. simpl. intros x Hx. lra.
Qed.

Lemma sort_descending (l : list (string * JS.number)) :
  finiteEntries l = true -> descending (sort l).
Proof.
  induction l as [|a l IH]; simpl; intros H.
  - constructor.
  - apply andb_true_iff in H as [Ha Hl].
    apply insert_descending; trivial.
    + apply (finiteEntries_perm l); [|exact Hl].
      apply Permutation_sym, sort_perm.
    + now apply IH.
Qed.

Lemma insert_filter (v : Q) (a : string * JS.number)
  (l : list (string * JS.number)) :
  JS.isFinite (snd a) = true -> finiteEntries l = true ->
  filter (has_score v) (insert a l) = filter (has_score v) (a :: l).
Proof.
  intros Ha.
  induction l as [|b l IH]; simpl; intros Hl; [reflexivity|].
  apply andb_true_iff in Hl as [Hb Hl].
  destruct (positive (compareFn a b)) eqn:E; [|reflexivity].
  apply positive_compareFn in E; trivial.
  simpl. rewrite (IH Hl). simpl. unfold has_score.
  destruct (Qeq_bool (val a) v) eqn:Ea, (Qeq_bool (val b) v) eqn:Eb;
    try reflexivity.
  apply Qeq_bool_iff in Ea, Eb. lra.
Qed.

Lemma sort_filter (v : Q) (l : list (string * JS.number)) :
  finiteEntries l = true ->
  filter (has_score v) (sort l) = filter (has_score v) l.
Proof.
  induction l as [|a l IH]; simpl; intros H; [reflexivity|].
  apply andb_true_iff in H as [Ha Hl].
  rewrite insert_filter; trivial.
  - simpl. now rewrite (IH Hl).
  - apply (finiteEntries_perm l); [|exact Hl].
    apply Permutation_sym, sort_perm.
Qed.

Lemma descending_firstn_skipn (l : list (string * JS.number)) :
  descending l ->
  forall n a b, In a (firstn n l) -> In b (skipn n l) -> val b <= val a.
Proof.
  unfold descending. induction 1 as [|x l S IH F]; intros n a b.
  - now rewrite firstn_nil.
  - destruct n as [|n]; simpl; [easy|].
    intros [<-|Ha] Hb.
    + rewrite Forall_forall in F. apply F.
      rewrite <- (firstn_skipn n l). apply in_or_app. now right.
    + now apply (IH n).
Qed.

End Bars.

(** C4, as the code has it: for every object of finite scores and every
    [n], the first [n] entries of the sorted bars are the [min n k] highest
    of its [k] entries, highest first, and entries with equal scores keep
    the order they have in the object (the sort is stable; there is no
    canonical order of labels); the panel itself always takes five. *)
Theorem top_sorted_stable :
  forall (n : nat) (o : scores),
    finiteEntries o = true ->
    Permutation (CameraPanel.sort o) o
    /\ descending (CameraPanel.sort o)
    /\ (forall v, filter (has_score v) (CameraPanel.sort o)
                  = filter (has_score v) o)
    /\ List.length (CameraPanel.top n o) = Nat.min n (List.length o)
    /\ (forall a b, In a (CameraPanel.top n o) ->
                    In b (skipn n (CameraPanel.sort o)) -> val b <= val a)
    /\ CameraPanel.bars o = CameraPanel.top 5 o.
Proof.
  intros n o H. split; [apply sort_perm|].
  split; [now apply sort_descending|].
  split; [intros v; now apply sort_filter|].
  split.
  - unfold CameraPanel.top.
    now rewrite length_firstn, (Permutation_length (sort_perm o)).
  - split; [|reflexivity].
    intros a b. apply descending_firstn_skipn. now apply sort_descending.
Qed.

Lemma top_sorted_stable_witness :
  finiteEntries (emotions Sample.full) = true
  /\ Permutation (CameraPanel.sort (emotions Sample.full)) (emotions Sample.full)
  /\ descending (CameraPanel.sort (emotions Sample.full))
  /\ (forall v, filter (has_score v) (CameraPanel.sort (emotions Sample.full))
                = filter (has_score v) (emotions Sample.full))
  /\ List.length (CameraPanel.top 2 (emotions Sample.full))
     = Nat.min 2 (List.length (emotions Sample.full))
  /\ (forall a b, In a (CameraPanel.top 2 (emotions Sample.full)) ->
                  In b (skipn 2 (CameraPanel.sort (emotions Sample.full))) ->
                  val b <= val a)
  /\ CameraPanel.bars (emotions Sample.full)
     = CameraPanel.top 5 (emotions Sample.full).
Proof.
  split; [reflexivity|].
  apply (top_sorted_stable 2 (emotions Sample.full)). reflexivity.
Defined.

(** C4 fails when the response lists sad before happy with the same score:
    the two bars are sad, happy, where the canonical order of the labels
    asks for happy, sad; and with three labels present, asking for five
    yields three. *)
Lemma top_ties_follow_insertion_order :
  let o := [("sad", JS.lit 0.9); ("happy", JS.lit 0.9);
            ("neutral", JS.lit 0.1)] in
  map fst (CameraPanel.top 2 o) = ["sad"; "happy"]
  /\ map fst (canonicalTop 2 o) = ["happy"; "sad"]
  /\ map fst (CameraPanel.top 2 o) <> ["happy"; "sad"]
  /\ List.length (CameraPanel.bars o) = 3%nat.
Proof.
  vm_compute. repeat split. discriminate.
Qed.

(** On the object of the specification's example, which lists happy first,
    the two bars are happy, sad. *)
Example top_2_happy_sad :
  map fst (CameraPanel.top 2 [("happy", JS.lit 0.9); ("sad", JS.lit 0.9);
                               ("neutral", JS.lit 0.1)])
  = ["happy"; "sad"].
Proof. vm_compute. reflexivity. Qed.

(** The scores of the samples are doubles. *)
Example samples_are_doubles :
  forallb (fun e => JS.isDouble (confidence e)
                    && forallb (fun kv => JS.isDouble (snd kv)) (emotions e))
          [Sample.first; Sample.second; Sample.full; Sample.at_time 0]
  = true.
Proof. vm_compute. reflexivity. Qed.

(** ** The text of a percentage *)

Section Strings.

Lemma length_append (s t : string) :
  String.length (s ++ t) = (String.length s + String.length t)%nat.
Proof.
  induction s as [|c s IH]; simpl; [reflexivity|]. now rewrite IH.
Qed.

Lemma length_zeros (n : nat) : String.length (JS.zeros n) = n.
Proof.
  induction n as [|n IH]; simpl; [reflexivity|]. now rewrite IH.
Qed.

Lemma substring_whole (s : string) : substring 0 (String.length s) s = s.
Proof.
  induction s as [|c s IH]; simpl; [reflexivity|]. now rewrite IH.
Qed.

Lemma substring_split (s : string) :
  forall n, (n <= String.length s)%nat ->
            substring 0 n s ++ substring n (String.length s - n) s = s.
Proof.
  induction s as [|c s IH]; intros n H.
  - simpl in H. assert (n = 0%nat) as -> by lia. reflexivity.
  - destruct n as [|n].
    + rewrite Nat.sub_0_r, substring_whole. reflexivity.
    + simpl in H. simpl. rewrite IH by lia. reflexivity.
Qed.

Lemma substring_length (s : string) :
  forall n m, (n + m <= String.length s)%nat ->
              String.length (substring n m s) = m.
Proof.
  induction s as [|c s IH]; intros n m H; simpl in H.
  - assert (n = 0%nat) as -> by lia. assert (m = 0%nat) as -> by lia.
    reflexivity.
  - destruct n as [|n].
    + destruct m as [|m]; simpl; [reflexivity|].
      now rewrite (IH 0%nat m) by lia.
    + simpl. apply IH. lia.
Qed.

Lemma length_pad_left (w : nat) (s : string) :
  (w <= String.length (JS.pad_left w s))%nat.
Proof.
  unfold JS.pad_left. rewrite length_append, length_zeros. lia.
Qed.

Lemma decimal_digits (n : Z) : decimal (JS.digits n) = Some (Z.to_N n).
Proof.
  unfold decimal, JS.digits. rewrite NilZero.usu.
  - simpl. now rewrite DecimalN.Unsigned.of_to.
  - destruct (Z.to_N n); simpl; [discriminate|].
    apply DecimalPos.Unsigned.to_uint_nonnil.
Qed.

Lemma digits_nonempty (n : Z) : JS.digits n <> "".
Proof.
  intros H. pose proof (decimal_digits n) as D. rewrite H in D.
  discriminate D.
Qed.

Lemma digits_integerPart (n : Z) : integerPart (JS.digits n).
Proof.
  unfold JS.digits. destruct (Z.to_N n) as [|p]; [now left|].
  right. simpl N.to_uint.
  assert (Hu : Pos.to_uint p = Decimal.unorm (Pos.to_uint p)).
  { rewrite <- DecimalPos.Unsigned.to_of, DecimalPos.Unsigned.of_to.
    reflexivity. }
  pose proof (DecimalPos.Unsigned.to_uint_nonzero p) as Hz.
  assert (Hn : Decimal.nzhead (Pos.to_uint p) <> Decimal.Nil).
  { intros E. apply DecimalFacts.unorm_0 in E. congruence. }
  rewrite (DecimalFacts.unorm_nzhead _ Hn) in Hu.
  pose proof (DecimalFacts.nzhead_nonzero (Pos.to_uint p)) as H0.
  rewrite <- Hu in H0, Hn.
  destruct (Pos.to_uint p) as [|u|u|u|u|u|u|u|u|u|u];
    [contradiction | now destruct (H0 u) | ..];
    simpl; eexists _, _; (split; [reflexivity | discriminate]).
Qed.

Lemma decimal_zeros (k : nat) (s : string) :
  s <> "" -> decimal (JS.zeros k ++ s) = decimal s.
Proof.
  intros Hs. induction k as [|k IH]; [reflexivity|].
  simpl JS.zeros. change (String "0" (JS.zeros k) ++ s)
    with (String "0" (JS.zeros k ++ s)).
  rewrite <- IH. unfold decimal. simpl NilZero.uint_of_string.
  assert (Hne : JS.zeros k ++ s <> "").
  { destruct k; simpl; [exact Hs | discriminate]. }
  destruct (JS.zeros k ++ s) as [|c r] eqn:E; [contradiction|].
  unfold NilZero.uint_of_string.
  destruct (NilEmpty.uint_of_string (String c r)); reflexivity.
Qed.

End Strings.

Section Percent.

Variable NumberToString : Q -> string.

Lemma pad_left_integerPart (d : string) :
  integerPart d ->
  integerPart (substring 0 (String.length (JS.pad_left 3 d) - 2)
                         (JS.pad_left 3 d)).
Proof.
  intros Hd. unfold JS.pad_left.
  destruct (le_lt_dec 3 (String.length d)) as [L|L].
  - replace (3 - String.length d)%nat with 0%nat by lia. simpl JS.zeros.
    change ("" ++ d) with d.
    destruct Hd as [->|(c & r & -> & Hc)]; [simpl in L; lia|].
    right. simpl String.length in *.
    destruct (S (String.length r) - 2)%nat as [|j] eqn:E; [lia|].
    simpl. eauto.
  - left. rewrite length_append, length_zeros.
    replace (3 - String.length d + String.length d - 2)%nat with 1%nat by lia.
    destruct (3 - String.length d)%nat as [|j] eqn:E; [lia|].
    simpl. now destruct (JS.zeros j ++ d).
Qed.

Lemma toFixed2_abs_fixedPoint (x : Q) :
  Qle_bool JS.ten21 x = false ->
  exists int frac,
    JS.toFixed2_abs NumberToString x = int ++ "." ++ frac
    /\ String.length frac = 2%nat
    /\ integerPart int
    /\ decimal (int ++ frac) = Some (Z.to_N (JS.nearest_hundredth x)).
Proof.
  intros H. unfold JS.toFixed2_abs. rewrite H.
  set (m := JS.pad_left 3 (JS.digits (JS.nearest_hundredth x))).
  pose proof (length_pad_left 3 (JS.digits (JS.nearest_hundredth x))) as Hk.
  fold m in Hk.
  exists (substring 0 (String.length m - 2) m),
         (substring (String.length m - 2) 2 m).
  split; [reflexivity|]. split; [apply substring_length; lia|]. split.
  - apply pad_left_integerPart, digits_integerPart.
  - pose proof (substring_split m (String.length m - 2)) as S.
    replace (String.length m - (String.length m - 2))%nat with 2%nat in S
      by lia.
    rewrite S by lia.
    unfold m, JS.pad_left. rewrite decimal_zeros by apply digits_nonempty.
    apply decimal_digits.
Qed.

Lemma toFixed2_fixedPoint (q : Q) :
  Qle_bool JS.ten21 (Qabs q) = false ->
  fixedPoint2 q (JS.toFixed2 NumberToString (JS.Fin q)).
Proof.
  intros H. unfold fixedPoint2, sign. simpl JS.toFixed2.
  destruct (JS.Qneg_bool q) eqn:E.
  - assert (Hq : Qabs q == - q).
    { apply Qabs_neg. unfold JS.Qneg_bool in E.
      apply negb_true_iff in E.
      destruct (Qlt_le_dec q 0) as [L|L]; [lra|].
      apply Qle_bool_iff in L. congruence. }
    assert (H' : Qle_bool JS.ten21 (- q) = false).
    { destruct (Qle_bool JS.ten21 (- q)) eqn:B; [|reflexivity].
      apply Qle_bool_iff in B. rewrite <- Hq in B.
      apply Qle_bool_iff in B. congruence. }
    destruct (toFixed2_abs_fixedPoint (- q) H') as (i & f & -> & Hf & Hi & Hd).
    exists i, f. repeat split; trivial.
    rewrite Hd. unfold JS.nearest_hundredth. now rewrite Hq.
  - assert (Hq : Qabs q == q).
    { apply Qabs_pos. unfold JS.Qneg_bool in E.
      apply negb_false_iff, Qle_bool_iff in E. exact E. }
    assert (H' : Qle_bool JS.ten21 q = false).
    { destruct (Qle_bool JS.ten21 q) eqn:B; [|reflexivity].
      apply Qle_bool_iff in B. rewrite <- Hq in B.
      apply Qle_bool_iff in B. congruence. }
    destruct (toFixed2_abs_fixedPoint q H') as (i & f & -> & Hf & Hi & Hd).
    exists i, f. repeat split; trivial.
    rewrite Hd. unfold JS.nearest_hundredth. now rewrite Hq.
Qed.

Lemma percent_percentage (x : JS.number) :
  percentable x = true -> percentage x (App.percent NumberToString x).
Proof.
  destruct x as [| |v]; try discriminate. unfold percentable, App.percent.
  cbn [JS.mul JS.hundred JS.rounded].
  destruct (JS.round (v * 100)) as [| |p] eqn:R; try discriminate.
  intros H. apply negb_true_iff in H.
  exists v, p, (JS.toFixed2 NumberToString (JS.Fin p)).
  repeat split; [exact R | now apply toFixed2_fixedPoint].
Qed.

End Percent.

(** ** The rows of the table *)

Lemma row_rowOf (N : Q -> string) (L : Z -> string) (e : HistoryEntry) :
  rowOf L e (App.row N L e).
Proof.
  unfold rowOf, App.row. do 8 eexists. split; [reflexivity|].
  repeat split; intros H; now apply percent_percentage.
Qed.

Lemma rows_rowOf (N : Q -> string) (L : Z -> string) (h : list HistoryEntry) :
  Forall2 (rowOf L) h (App.rows N L h).
Proof.
  induction h as [|e h IH]; simpl; constructor; [apply row_rowOf | exact IH].
Qed.

Lemma row_length (N : Q -> string) (L : Z -> string) (e : HistoryEntry) :
  List.length (App.row N L e) = 11%nat.
Proof. reflexivity. Qed.

(** C7, as the code has it: for every non-empty history the exported table
    is the header row followed by exactly one row per observation, in the
    order of the history, each of 11 columns: timestamp, local time,
    dominant emotion, and the columns of the confidence and of happy, sad,
    angry, surprise, fear, disgust and neutral. The column of a finite
    value present in the observation reads the product of the value and
    100, a double, in fixed-point notation rounded to two decimals,
    followed by ["%"]. *)
Theorem table_rows_nonempty :
  forall (N : Q -> string) (L : Z -> string) (now : Z)
         (h : list HistoryEntry),
    h <> [] ->
    App.handleExportCSV N L now h
    = App.Download ("emotion-analysis-" ++ JS.string_of_Z now ++ ".csv")
        (App.join App.newline
           (map (fun r => App.join "," (map App.cell_text r))
                (App.table N L h)))
    /\ List.length App.headers = 11%nat
    /\ Forall (fun r => List.length r = 11%nat) (App.table N L h)
    /\ exists rs, App.table N L h = App.headers :: rs
                  /\ Forall2 (rowOf L) h rs.
Proof.
  intros N L now h Hne. split.
  - unfold App.handleExportCSV.
    destruct h; [contradiction | reflexivity].
  - split; [reflexivity|]. split.
    + constructor; [reflexivity|].
      unfold App.rows. apply Forall_forall. intros r Hr.
      apply in_map_iff in Hr as (e & <- & _). apply row_length.
    + exists (App.rows N L h). split; [reflexivity|]. apply rows_rowOf.
Qed.

Lemma table_rows_nonempty_witness :
  [Sample.full; Sample.second] <> []
  /\ App.handleExportCSV Sample.NumberToString Sample.toLocaleString
       1699200003000 [Sample.full; Sample.second]
     = App.Download "emotion-analysis-1699200003000.csv"
         (App.join App.newline
            (map (fun r => App.join "," (map App.cell_text r))
                 (App.table Sample.NumberToString Sample.toLocaleString
                    [Sample.full; Sample.second])))
  /\ List.length App.headers = 11%nat
  /\ Forall (fun r => List.length r = 11%nat)
            (App.table Sample.NumberToString Sample.toLocaleString
               [Sample.full; Sample.second])
  /\ exists rs,
       App.table Sample.NumberToString Sample.toLocaleString
         [Sample.full; Sample.second]
       = App.headers :: rs
       /\ Forall2 (rowOf Sample.toLocaleString)
                  [Sample.full; Sample.second] rs.
Proof.
  split; [discriminate|].
  apply (table_rows_nonempty Sample.NumberToString Sample.toLocaleString
           1699200003000 [Sample.full; Sample.second]).
  discriminate.
Defined.

(** The product is rounded before it is printed: the double nearest to
    0.00075 times 100 lies below 0.075, where the decimals times 100 would
    round up. *)
Example percent_of_rounded_product :
  App.percent Sample.NumberToString (JS.lit 0.00075) = "0.07%"
  /\ JS.toFixed2 Sample.NumberToString (JS.Fin (0.00075 * 100)) = "0.08".
Proof. split; vm_compute; reflexivity. Qed.

(** Every column of a full response is a percentage. *)
Example full_response_percentable :
  percentable (confidence Sample.full)
  && forallb (fun l => percentable (JS.to_number (score Sample.full l))) labels
  = true.
Proof. reflexivity. Qed.

(** C7 fails on the empty history: no table comes out, so there is no
    header row either. *)
Lemma empty_history_has_no_table :
  App.handleExportCSV Sample.NumberToString Sample.toLocaleString
    1699200003000 []
  = App.Nothing
  /\ App.handleExportCSV Sample.NumberToString Sample.toLocaleString
       1699200003000 []
     <> App.Download "emotion-analysis-1699200003000.csv"
          (App.join App.newline
             (map (fun r => App.join "," (map App.cell_text r))
                  [App.headers])).
Proof.
  split; [reflexivity | discriminate].
Qed.

(** A full response and the second observation of the scenario, as
    text. *)
Example scenario_csv :
  App.handleExportCSV Sample.NumberToString Sample.toLocaleString
    1699200003000 [Sample.full; Sample.second]
  = App.Download "emotion-analysis-1699200003000.csv"
      ("Timestamp,Time,Dominant Emotion,Confidence,Happy,Sad,Angry,Surprise,Fear,Disgust,Neutral"
       ++ App.newline ++
       "1699200000000,2023-11-05T16:00:00.000Z,happy,89.00%,89.00%,2.00%,1.00%,3.00%,1.00%,1.00%,3.00%"
       ++ App.newline ++
       "4000,1970-01-01T00:00:04.000Z,sad,60.00%,10.00%,60.00%,NaN%,NaN%,NaN%,NaN%,30.00%").
Proof. reflexivity. Qed.

(** ** The history under the events of a session *)

Lemma step_history (ev : Session.event) (st : App.State) :
  App.emotionHistory (Session.step st ev)
  = match ev with
    | Session.EmotionHistory d => (App.emotionHistory st ++ [d])%list
    | Session.Reset true => []
    | _ => App.emotionHistory st
    end.
Proof.
  destruct ev as [e|d| |[|]|f|m]; try reflexivity.
  simpl. unfold App.handleModeChange. now destruct (String.eqb m "webcam").
Qed.

Lemma run_history (evs : list Session.event) :
  forall st : App.State,
    App.emotionHistory (Session.run evs st)
    = ((if existsb Session.isReset evs then [] else App.emotionHistory st)
       ++ Session.appended evs)%list.
Proof.
  induction evs as [|ev evs IH]; intros st.
  - simpl. now rewrite app_nil_r.
  - change (Session.run (ev :: evs) st)
      with (Session.run evs (Session.step st ev)).
    rewrite IH, step_history. simpl.
    destruct (existsb Session.isReset evs).
    + now rewrite orb_true_r.
    + rewrite orb_false_r.
      destruct ev as [e|d| |[|]|f|m]; simpl; try reflexivity.
      now rewrite <- app_assoc.
Qed.

(** X1: after any events, the history is what was appended since the last
    confirmed reset, preceded by the history at the start when no reset
    was confirmed; detected emotions, pauses, declined resets, selected
    videos and mode changes never touch it. From the start it is what was
    appended since the last confirmed reset. *)
Theorem session_history_since_reset :
  forall (evs : list Session.event) (st : App.State),
    App.emotionHistory (Session.run evs st)
    = ((if existsb Session.isReset evs then [] else App.emotionHistory st)
       ++ Session.appended evs)%list
    /\ App.emotionHistory (Session.run evs App.initial)
       = Session.appended evs.
Proof.
  intros evs st. split; [apply run_history|].
  rewrite run_history.
  now destruct (existsb Session.isReset evs).
Qed.

Lemma step_isAnalyzing (ev : Session.event) (st : App.State) :
  App.isAnalyzing (Session.step st ev)
  = xorb (Session.isToggle ev) (App.isAnalyzing st).
Proof.
  destruct ev as [e|d| |[|]|f|m]; simpl; try reflexivity.
  unfold App.handleModeChange. now destruct (String.eqb m "webcam").
Qed.

(** X2: only the toggle pauses or resumes the analysis: after any events
    the flag is the one at the start when the toggle was pressed an even
    number of times, its negation otherwise. A confirmed reset, in
    particular, does not resume a paused analysis. *)
Theorem session_analysis_parity :
  forall (evs : list Session.event) (st : App.State),
    App.isAnalyzing (Session.run evs st)
    = xorb (Nat.odd (List.length (filter Session.isToggle evs)))
           (App.isAnalyzing st).
Proof.
  induction evs as [|ev evs IH]; intros st; [reflexivity|].
  change (Session.run (ev :: evs) st)
    with (Session.run evs (Session.step st ev)).
  rewrite IH, step_isAnalyzing. simpl filter.
  destruct (Session.isToggle ev); simpl xorb.
  - simpl List.length. rewrite Nat.odd_succ, <- Nat.negb_odd.
    now destruct (Nat.odd _), (App.isAnalyzing st).
  - reflexivity.
Qed.

(** X3: in the panel that [App] renders after any events from the start,
    the export buttons are disabled exactly when nothing was appended since
    the last confirmed reset; enabled, a click on CSV always downloads a
    file and a click on JSON never does nothing. *)
Theorem export_buttons_after_run :
  forall (N : Q -> string) (L : Z -> string) (now : Z)
         (evs : list Session.event),
    (ControlPanel.exportDisabled
       (List.length (App.emotionHistory (Session.run evs App.initial))) = true
     <-> Session.appended evs = [])
    /\ (Session.appended evs = [] ->
        ControlPanel.clickCSV N L now (Session.run evs App.initial)
        = App.Nothing
        /\ ControlPanel.clickJSON now (Session.run evs App.initial)
           = App.Nothing)
    /\ (Session.appended evs <> [] ->
        (exists f c,
            ControlPanel.clickCSV N L now (Session.run evs App.initial)
            = App.Download f c)
        /\ ControlPanel.clickJSON now (Session.run evs App.initial)
           <> App.Nothing).
Proof.
  intros N L now evs.
  unfold ControlPanel.clickCSV, ControlPanel.clickJSON,
    ControlPanel.exportDisabled.
  rewrite run_history.
  replace (if existsb Session.isReset evs then []
           else App.emotionHistory App.initial)
    with (@nil HistoryEntry) by now destruct (existsb Session.isReset evs).
  simpl app. destruct (Session.appended evs) as [|d ds].
  - split; [split; reflexivity|]. split; [intros _; split; reflexivity|].
    intros Hne. contradiction.
  - split; [split; discriminate|]. split; [discriminate|].
    intros _. split.
    + unfold App.handleExportCSV. simpl. eexists _, _. reflexivity.
    + unfold App.handleExportJSON. simpl.
      destruct (App.jsonData now (d :: ds)); discriminate.
Qed.

Lemma export_buttons_after_run_witness :
  Session.appended
    [Session.EmotionHistory Sample.first; Session.Reset true;
     Session.ToggleAnalysis; Session.EmotionHistory Sample.second] <> []
  /\ (exists f c,
         ControlPanel.clickCSV Sample.NumberToString Sample.toLocaleString
           1699200003000
           (Session.run
              [Session.EmotionHistory Sample.first; Session.Reset true;
               Session.ToggleAnalysis; Session.EmotionHistory Sample.second]
              App.initial)
         = App.Download f c)
  /\ ControlPanel.clickJSON 1699200003000
       (Session.run
          [Session.EmotionHistory Sample.first; Session.Reset true;
           Session.ToggleAnalysis; Session.EmotionHistory Sample.second]
          App.initial)
     <> App.Nothing.
Proof.
  split; [discriminate|].
  apply (export_buttons_after_run Sample.NumberToString Sample.toLocaleString
           1699200003000
           [Session.EmotionHistory Sample.first; Session.Reset true;
            Session.ToggleAnalysis; Session.EmotionHistory Sample.second]).
  discriminate.
Defined.

(** ** The outcome of the structured export *)

Lemma jsonEntry_none (e : HistoryEntry) :
  App.jsonEntry e = None <-> Date.valid (timestamp e) = false.
Proof.
  unfold App.jsonEntry. destruct (Date.valid (timestamp e)) eqn:V.
  - destruct (toISOString_valid _ V) as (iso & ->). split; discriminate.
  - rewrite (toISOString_invalid _ V). split; reflexivity.
Qed.

Lemma jsonEntries_none (h : list HistoryEntry) :
  App.jsonEntries h = None <-> validTimes h = false.
Proof.
  induction h as [|e h IH]; simpl; [split; discriminate|].
  destruct (App.jsonEntry e) as [d|] eqn:E.
  - assert (V : Date.valid (timestamp e) = true).
    { destruct (Date.valid (timestamp e)) eqn:V; [reflexivity|].
      apply jsonEntry_none in V. congruence. }
    rewrite V. simpl. rewrite <- IH.
    destruct (App.jsonEntries h); split; congruence.
  - apply jsonEntry_none in E. rewrite E. split; reflexivity.
Qed.

(** X4: the structured export is all or nothing. On a non-empty history
    it throws a [RangeError] exactly when the time of the call or some
    timestamp is not a valid time value, and downloads a payload exactly
    when all are valid; it never downloads a part of the history: the
    [data] list holds one element per observation, from which the
    observations are rebuilt when their confidences and scores are
    finite. *)
Theorem json_export_outcome :
  forall (now : Z) (h : list HistoryEntry),
    (App.handleExportJSON now h = App.RangeError
     <-> h <> [] /\ Date.valid now && validTimes h = false)
    /\ ((exists f doc, App.handleExportJSON now h = App.Download f doc)
        <-> h <> [] /\ Date.valid now && validTimes h = true)
    /\ (forall f doc,
          App.handleExportJSON now h = App.Download f doc ->
          exists ds,
            JSON.field "data" doc = Some (JSON.JArray ds)
            /\ List.length ds = List.length h
            /\ (finiteNumbers h = true -> reconstructAll ds = Some h)).
Proof.
  intros now h.
  assert (Hthrow : h <> [] -> Date.valid now && validTimes h = false ->
                   App.handleExportJSON now h = App.RangeError).
  { intros Hne Hv. unfold App.handleExportJSON, App.jsonData.
    destruct h as [|e h]; [contradiction|]. cbn [List.length Nat.eqb].
    apply andb_false_iff in Hv as [Hv|Hv].
    - now rewrite (toISOString_invalid _ Hv).
    - apply jsonEntries_none in Hv. rewrite Hv.
      now destruct (Date.toISOString now). }
  destruct h as [|e h].
  - split; [split; [discriminate | intros [H _]; contradiction]|].
    split; [|discriminate].
    split; [intros (f & j & H); discriminate | intros [H _]; contradiction].
  - set (l := e :: h) in *.
    assert (Hne : l <> []) by discriminate.
    destruct (Date.valid now && validTimes l) eqn:V.
    + apply andb_true_iff in V as [Vn Vh].
      destruct (handleExportJSON_nonempty now l Hne Vn Vh)
        as (iso & ds & _ & Hlen & Hre & Hexp).
      rewrite Hexp.
      split; [split; [discriminate | intros [_ H]; discriminate]|].
      split; [split; [now split | eauto]|].
      intros f doc [= _ <-]. exists (map App.stringifyEntry ds).
      split; [reflexivity|]. split; [now rewrite length_map | exact Hre].
    + rewrite (Hthrow Hne eq_refl).
      split; [split; [now split | reflexivity]|].
      split; [|discriminate].
      split; [intros (f & j & H); discriminate | intros [_ H]; discriminate].
Qed.

(** ** The duration along the history *)

Lemma last_default {A : Type} (x : A) (l : list A) (d d' : A) :
  last (x :: l) d = last (x :: l) d'.
Proof.
  revert x. induction l as [|y l IH]; intros x; [reflexivity|].
  exact (IH y).
Qed.

Lemma chronological_last (first : HistoryEntry) (rest : list HistoryEntry) :
  chronological (first :: rest) ->
  forall e, In e (first :: rest) ->
            (timestamp first <= timestamp e
             <= timestamp (last (first :: rest) first))%Z.
Proof.
  unfold chronological. revert first.
  induction rest as [|x rest IH]; intros first S e He.
  - destruct He as [<-|[]]. simpl. lia.
  - apply StronglySorted_inv in S as [S F].
    pose proof (Forall_inv F) as Hx. cbv beta in Hx.
    assert (Hl : (timestamp x <= timestamp (last (x :: rest) x))%Z).
    { apply (IH x S x). now left. }
    change (last (first :: x :: rest) first) with (last (x :: rest) first).
    rewrite (last_default x rest first x).
    destruct He as [He|He]; [subst e; lia|].
    destruct (IH x S e He) as [H1 H2]. lia.
Qed.

(** X5: when the timestamps never decrease along the history and the first
    and the last are no more than [2^53] apart, the exported duration is an
    integer that is not negative and spans the history: every observation
    lies between the first timestamp and the first timestamp plus the
    duration. *)
Theorem duration_spans_history :
  forall (first : HistoryEntry) (rest : list HistoryEntry),
    chronological (first :: rest) ->
    safe (span (first :: rest)) = true ->
    exists d : Z,
      App.duration (first :: rest) = JS.of_Z d
      /\ (0 <= d)%Z
      /\ forall e, In e (first :: rest) ->
                   (timestamp first <= timestamp e <= timestamp first + d)%Z.
Proof.
  intros first rest S Hs.
  pose proof (chronological_last first rest S) as H.
  exists (span (first :: rest)). split; [now apply duration_exact|].
  unfold span. split.
  - destruct (H first (or_introl eq_refl)). lia.
  - intros e He. destruct (H e He). lia.
Qed.

Lemma duration_spans_history_witness :
  chronological [Sample.first; Sample.second]
  /\ safe (span [Sample.first; Sample.second]) = true
  /\ exists d : Z,
       App.duration [Sample.first; Sample.second] = JS.of_Z d
       /\ (0 <= d)%Z
       /\ forall e, In e [Sample.first; Sample.second] ->
                    (timestamp Sample.first <= timestamp e
                     <= timestamp Sample.first + d)%Z.
Proof.
  assert (S : chronological [Sample.first; Sample.second]).
  { repeat constructor. simpl. lia. }
  split; [exact S|]. split; [reflexivity|].
  exact (duration_spans_history Sample.first [Sample.second] S eq_refl).
Defined.

(** X6: an append moves the end of the exported duration to the new
    observation: when the appended observation is no more than [2^53] from
    the first one, the duration after the append is the distance from the
    first observation of the history to the appended one, and 0 when the
    history was empty. *)
Theorem duration_after_append :
  forall (d : HistoryEntry) (st : App.State),
    (forall first, hd_error (App.emotionHistory st) = Some first ->
                   safe (timestamp d - timestamp first) = true) ->
    App.duration (App.emotionHistory (App.handleEmotionHistory d st))
    = match App.emotionHistory st with
      | [] => JS.Fin 0
      | first :: _ => JS.of_Z (timestamp d - timestamp first)
      end.
Proof.
  intros d st H. cbn [App.handleEmotionHistory App.setEmotionHistory
                      App.emotionHistory].
  destruct (App.emotionHistory st) as [|first rest]; cbn [app].
  - unfold App.duration. cbn [last JS.sub JS.add JS.neg JS.of_Z JS.rounded].
    apply round_zero. ring.
  - unfold App.duration.
    change (first :: (rest ++ [d])%list) with ((first :: rest) ++ [d])%list.
    rewrite last_last. apply sub_safe, H. reflexivity.
Qed.

Lemma duration_after_append_witness :
  (forall first,
      hd_error (App.emotionHistory (appendAll [Sample.first] App.initial))
      = Some first ->
      safe (timestamp Sample.second - timestamp first) = true)
  /\ App.duration
       (App.emotionHistory
          (App.handleEmotionHistory Sample.second
             (appendAll [Sample.first] App.initial)))
     = JS.of_Z (4000 - 1000).
Proof.
  assert (H : forall first,
             hd_error (App.emotionHistory (appendAll [Sample.first] App.initial))
             = Some first ->
             safe (timestamp Sample.second - timestamp first) = true).
  { intros first [= <-]. reflexivity. }
  split; [exact H|].
  exact (duration_after_append Sample.second
           (appendAll [Sample.first] App.initial) H).
Defined.

(** ** Separators in the text of the table *)

Lemma occ_append (c : ascii) (s t : string) :
  occ c (s ++ t) = (occ c s + occ c t)%nat.
Proof.
  induction s as [|a s IH]; simpl; [reflexivity|]. rewrite IH. lia.
Qed.

Lemma occ_join (c : ascii) (sep : string) (l : list string) :
  occ c (App.join sep l)
  = (list_sum (map (occ c) l) + (List.length l - 1) * occ c sep)%nat.
Proof.
  induction l as [|s l IH]; [reflexivity|].
  destruct l as [|t l].
  - simpl. lia.
  - change (App.join sep (s :: t :: l))
      with (s ++ sep ++ App.join sep (t :: l)).
    rewrite !occ_append, IH. simpl. lia.
Qed.

Lemma occ_substring (c : ascii) (s : string) :
  occ c s = 0%nat -> forall n m, occ c (substring n m s) = 0%nat.
Proof.
  induction s as [|a s IH]; intros H n m.
  - destruct n, m; reflexivity.
  - simpl in H. destruct n as [|n].
    + destruct m as [|m]; [reflexivity|]. simpl.
      rewrite (IH ltac:(lia) 0%nat m). lia.
    + simpl. apply IH. lia.
Qed.

Lemma occ_zeros (c : ascii) (n : nat) :
  c <> "0"%char -> occ c (JS.zeros n) = 0%nat.
Proof.
  intros Hc. induction n as [|n IH]; [reflexivity|].
  cbn [JS.zeros occ]. rewrite IH.
  assert (E : Ascii.eqb "0" c = false) by (apply Ascii.eqb_neq; congruence).
  now rewrite E.
Qed.

Lemma occ_digits (c : ascii) (n : Z) :
  separator c -> occ c (JS.digits n) = 0%nat.
Proof.
  intros Hc. unfold JS.digits.
  assert (H : forall u, occ c (NilEmpty.string_of_uint u) = 0%nat).
  { induction u; simpl; rewrite ?IHu; destruct Hc as [->| ->]; reflexivity. }
  destruct (N.to_uint (Z.to_N n)) as [|u|u|u|u|u|u|u|u|u|u];
    [destruct Hc as [->| ->]; reflexivity | ..];
    match goal with |- occ c (NilZero.string_of_uint ?d) = _ =>
      exact (H d) end.
Qed.

Lemma occ_string_of_Z (c : ascii) (z : Z) :
  separator c -> occ c (JS.string_of_Z z) = 0%nat.
Proof.
  intros Hc. unfold JS.string_of_Z.
  destruct (z <? 0)%Z; [|now apply occ_digits].
  rewrite occ_append, occ_digits by assumption.
  destruct Hc as [->| ->]; reflexivity.
Qed.

Lemma occ_toFixed2 (N : Q -> string) (c : ascii) (x : JS.number) :
  separator c -> (forall q, occ c (N q) = 0%nat) ->
  occ c (JS.toFixed2 N x) = 0%nat.
Proof.
  intros Hc HN.
  assert (Habs : forall q, occ c (JS.toFixed2_abs N q) = 0%nat).
  { intros q. unfold JS.toFixed2_abs.
    destruct (Qle_bool JS.ten21 q); [apply HN|].
    assert (Hm : occ c (JS.pad_left 3 (JS.digits (JS.nearest_hundredth q)))
                 = 0%nat).
    { unfold JS.pad_left. rewrite occ_append, occ_digits by assumption.
      rewrite occ_zeros; [reflexivity|].
      destruct Hc as [->| ->]; discriminate. }
    rewrite !occ_append, !(occ_substring c _ Hm).
    destruct Hc as [->| ->]; reflexivity. }
  destruct x as [|[|]|q]; cbn [JS.toFixed2].
  - destruct Hc as [->| ->]; reflexivity.
  - destruct Hc as [->| ->]; reflexivity.
  - destruct Hc as [->| ->]; reflexivity.
  - destruct (JS.Qneg_bool q); [|apply Habs].
    rewrite occ_append, Habs. destruct Hc as [->| ->]; reflexivity.
Qed.

Lemma occ_percent (N : Q -> string) (c : ascii) (x : JS.number) :
  separator c -> (forall q, occ c (N q) = 0%nat) ->
  occ c (App.percent N x) = 0%nat.
Proof.
  intros Hc HN. unfold App.percent.
  rewrite occ_append, occ_toFixed2 by assumption.
  destruct Hc as [->| ->]; reflexivity.
Qed.

Lemma occ_rowText (N : Q -> string) (L : Z -> string) (c : ascii)
  (e : HistoryEntry) :
  separator c -> (forall q, occ c (N q) = 0%nat) ->
  occ c (rowText N L e)
  = (occ c (L (timestamp e)) + occ c (emotion e) + 10 * occ c ",")%nat.
Proof.
  intros Hc HN. unfold rowText. rewrite occ_join. unfold App.row.
  cbn [map App.cell_text list_sum List.length].
  rewrite !occ_percent, occ_string_of_Z by assumption.
  unfold list_sum. cbn [fold_right]. simpl Nat.sub. lia.
Qed.

(** X7: the table is written without quoting. When [Number::toString]
    prints no comma, the text of a row holds the 10 separating commas plus
    the commas of the local time and of the emotion label: it reads as 11
    fields only when those two hold none. *)
Theorem csv_row_commas :
  forall (N : Q -> string) (L : Z -> string) (e : HistoryEntry),
    (forall q, occ comma (N q) = 0%nat) ->
    occ comma (rowText N L e)
    = (10 + occ comma (L (timestamp e)) + occ comma (emotion e))%nat.
Proof.
  intros N L e HN. rewrite (occ_rowText N L comma e); trivial.
  - simpl. lia.
  - now left.
Qed.

Lemma csv_row_commas_witness :
  (forall q, occ comma (Sample.NumberToString q) = 0%nat)
  /\ occ comma (rowText Sample.NumberToString Fixture.enUS Sample.full)
     = (10 + occ comma (Fixture.enUS (timestamp Sample.full))
        + occ comma (emotion Sample.full))%nat.
Proof.
  split; [reflexivity|].
  apply (csv_row_commas Sample.NumberToString Fixture.enUS Sample.full).
  reflexivity.
Defined.

(** With a locale that writes a comma in a date, a row has 12 fields under
    an 11-field header. *)
Example csv_row_enUS :
  occ comma (rowText Sample.NumberToString Fixture.enUS Sample.full) = 11%nat
  /\ occ comma (App.join "," (map App.cell_text App.headers)) = 10%nat.
Proof. split; reflexivity. Qed.

Lemma csvContent_lines (N : Q -> string) (L : Z -> string)
  (h : list HistoryEntry) :
  App.csvContent N L h
  = App.join App.newline
      (App.join "," (map App.cell_text App.headers) :: map (rowText N L) h).
Proof.
  unfold App.csvContent, App.table, App.rows. simpl map.
  now rewrite map_map.
Qed.

(** X8: the text of the table is the header line followed by one line per
    observation, in order, joined by line feeds with none at the end: when
    neither the host's texts nor the emotion labels hold a line feed, it
    holds exactly as many line feeds as there are observations. *)
Theorem csv_line_feeds :
  forall (N : Q -> string) (L : Z -> string) (h : list HistoryEntry),
    (forall q, occ lineFeed (N q) = 0%nat) ->
    (forall t, occ lineFeed (L t) = 0%nat) ->
    Forall (fun e => occ lineFeed (emotion e) = 0%nat) h ->
    App.csvContent N L h
    = App.join App.newline
        (App.join "," (map App.cell_text App.headers) :: map (rowText N L) h)
    /\ occ lineFeed (App.csvContent N L h) = List.length h.
Proof.
  intros N L h HN HL Hh. split; [apply csvContent_lines|].
  rewrite csvContent_lines, occ_join.
  assert (Hrows : list_sum (map (occ lineFeed) (map (rowText N L) h)) = 0%nat).
  { induction Hh as [|e h He Hh IH]; [reflexivity|].
    simpl. rewrite IH, (occ_rowText N L lineFeed e); trivial.
    - rewrite HL, He. reflexivity.
    - now right. }
  cbn [map List.length].
  match goal with |- context [list_sum (?a :: ?l)] =>
    change (list_sum (a :: l)) with (a + list_sum l)%nat end.
  rewrite Hrows, length_map.
  change (occ lineFeed (App.join "," (map App.cell_text App.headers)))
    with 0%nat.
  change (occ lineFeed App.newline) with 1%nat. lia.
Qed.

Lemma csv_line_feeds_witness :
  (forall q, occ lineFeed (Sample.NumberToString q) = 0%nat)
  /\ (forall t, occ lineFeed (Fixture.enUS t) = 0%nat)
  /\ Forall (fun e => occ lineFeed (emotion e) = 0%nat)
            [Sample.first; Sample.second]
  /\ occ lineFeed
       (App.csvContent Sample.NumberToString Fixture.enUS
          [Sample.first; Sample.second])
     = List.length [Sample.first; Sample.second].
Proof.
  split; [reflexivity|]. split; [reflexivity|].
  split; [repeat constructor|].
  apply (csv_line_feeds Sample.NumberToString Fixture.enUS
           [Sample.first; Sample.second]);
    [reflexivity | reflexivity | repeat constructor].
Defined.

(** ** The points of the chart *)

Lemma chartFrom_nth (T : Z -> string) (h : list HistoryEntry) :
  forall k i,
    nth_error (EmotionChart.chartFrom T k h) i
    = option_map (EmotionChart.chartPoint T (k + i)) (nth_error h i).
Proof.
  induction h as [|e h IH]; intros k i.
  - now destruct i.
  - destruct i as [|i]; simpl.
    + now rewrite Nat.add_0_r.
    + rewrite IH. now rewrite Nat.add_succ_r.
Qed.

(** X9: the chart has one point per observation, in the order of the
    history: the point at position [i] is built from the observation at
    position [i] and its [time] is [i]. *)
Theorem chart_points_follow_history :
  forall (T : Z -> string) (h : list HistoryEntry) (i : nat),
    List.length (EmotionChart.chartData T h) = List.length h
    /\ nth_error (EmotionChart.chartData T h) i
       = option_map (EmotionChart.chartPoint T i) (nth_error h i)
    /\ option_map EmotionChart.time (nth_error (EmotionChart.chartData T h) i)
       = option_map (fun _ => i) (nth_error h i).
Proof.
  intros T h i. unfold EmotionChart.chartData.
  rewrite chartFrom_length, chartFrom_nth. simpl.
  repeat split. now destruct (nth_error h i).
Qed.

Lemma scaled_not_NaN (e : HistoryEntry) (l : label) :
  EmotionChart.scaled e l <> JS.NaN.
Proof.
  unfold EmotionChart.scaled, JS.or_zero.
  destruct (score e l) as [[|s|q]|];
    cbn [JS.truthy JS.to_number JS.zero JS.hundred JS.mul JS.rounded].
  - apply round_not_NaN.
  - vm_compute. discriminate.
  - destruct (Qeq_bool q 0);
      cbn [negb JS.to_number JS.zero JS.mul JS.rounded];
      apply round_not_NaN.
  - apply round_not_NaN.
Qed.

(** X10: whatever the scores of the observations hold, a label missing, a
    [NaN] or a zero, no value of a point of the chart is [NaN]. *)
Theorem chart_values_never_NaN :
  forall (T : Z -> string) (h : list HistoryEntry),
    Forall (fun p => forall l, EmotionChart.value p l <> JS.NaN)
           (EmotionChart.chartData T h).
Proof.
  intros T h. unfold EmotionChart.chartData. generalize 0%nat.
  induction h as [|e h IH]; intros k; simpl; constructor.
  - intros l. rewrite value_chartPoint. apply scaled_not_NaN.
  - apply IH.
Qed.

(** X11: when every score lies between 0 and 1, every value the chart
    plots and, on a non-empty history, every average of a label lies
    between 0 and 100: the average in exact arithmetic for every history,
    and the average as it is computed for up to 100000 observations. *)
Theorem chart_percentages_bounded :
  forall (T : Z -> string) (h : list HistoryEntry) (l : label),
    h <> [] -> unitScores h = true ->
    percent100 (EmotionChart.avgValue l (EmotionChart.chartData T h))
    /\ Forall (fun p => percent100 (EmotionChart.value p l))
              (EmotionChart.chartData T h)
    /\ ((Z.of_nat (List.length h) <= 100000)%Z ->
        percent100
          (EmotionChart.avgValueRounded l (EmotionChart.chartData T h))).
Proof.
  intros T h l Hne H. split; [now apply avgValue_unit|].
  split.
  2:{ intros Hlen.
      destruct (avgValueRounded_mean T l h Hne H Hlen) as (a & Ha & Hb & _).
      exists a. split; assumption. }
  clear Hne. unfold EmotionChart.chartData. generalize 0%nat.
  induction h as [|e h IH]; intros k; cbn [EmotionChart.chartFrom];
    constructor.
  - cbn [unitScores forallb] in H. apply andb_true_iff in H as [He _].
    rewrite value_chartPoint.
    destruct (scaled_unit e l He) as (p & Hp & Hb & _).
    exists p. split; assumption.
  - cbn [unitScores forallb] in H. apply andb_true_iff in H as [_ Hh].
    now apply IH.
Qed.

Lemma chart_percentages_bounded_witness :
  [Fixture.unitEntry; Fixture.unitEntry] <> []
  /\ unitScores [Fixture.unitEntry; Fixture.unitEntry] = true
  /\ percent100
       (EmotionChart.avgValue Happy
          (EmotionChart.chartData Sample.toLocaleString
             [Fixture.unitEntry; Fixture.unitEntry]))
  /\ Forall (fun p => percent100 (EmotionChart.value p Happy))
            (EmotionChart.chartData Sample.toLocaleString
               [Fixture.unitEntry; Fixture.unitEntry])
  /\ ((Z.of_nat (List.length [Fixture.unitEntry; Fixture.unitEntry])
       <= 100000)%Z ->
      percent100
        (EmotionChart.avgValueRounded Happy
           (EmotionChart.chartData Sample.toLocaleString
              [Fixture.unitEntry; Fixture.unitEntry]))).
Proof.
  split; [discriminate|]. split; [reflexivity|].
  apply (chart_percentages_bounded Sample.toLocaleString
           [Fixture.unitEntry; Fixture.unitEntry] Happy);
    [discriminate | reflexivity].
Defined.

(** X12: for a label present with a finite score, the column of the
    exported row is the value the chart plots for it, printed with two
    decimals and ["%"]. *)
Theorem csv_column_matches_chart :
  forall (N : Q -> string) (e : HistoryEntry) (l : label) (q : Q),
    score e l = Some (JS.Fin q) ->
    App.percent N (JS.to_number (score e l))
    = JS.toFixed2 N (EmotionChart.scaled e l) ++ "%".
Proof.
  intros N e l q H. unfold App.percent, EmotionChart.scaled, JS.or_zero.
  rewrite H. cbn [JS.to_number JS.truthy].
  destruct (Qeq_bool q 0) eqn:E; cbn [negb]; [|reflexivity].
  apply Qeq_bool_iff in E. unfold JS.zero, JS.hundred.
  cbn [JS.mul JS.rounded].
  rewrite (round_Qeq (q * 100) (0 * 100)); [reflexivity | now rewrite E].
Qed.

Lemma csv_column_matches_chart_witness :
  score Sample.first Happy
  = Some (JS.Fin (3602879701896397 # 4503599627370496))
  /\ App.percent Sample.NumberToString (JS.to_number (score Sample.first Happy))
     = JS.toFixed2 Sample.NumberToString
         (EmotionChart.scaled Sample.first Happy) ++ "%".
Proof.
  split; [vm_compute; reflexivity|].
  apply (csv_column_matches_chart Sample.NumberToString Sample.first Happy
           (3602879701896397 # 4503599627370496)).
  vm_compute. reflexivity.
Defined.

(** ** The chat *)

Lemma blank_trimStart (s : string) : blank (JS.trimStart s) = blank s.
Proof.
  induction s as [|c s IH]; [reflexivity|]. simpl.
  destruct (JS.isWhiteSpace c) eqn:E; [exact IH|].
  simpl. now rewrite E.
Qed.

Lemma trimEnd_empty (s : string) : JS.trimEnd s = "" <-> blank s = true.
Proof.
  induction s as [|c s IH]; [split; reflexivity|]. simpl.
  destruct (JS.isWhiteSpace c); simpl.
  - destruct (String.eqb_spec (JS.trimEnd s) "") as [E|E].
    + split; [intros _; now apply IH | reflexivity].
    + split; [discriminate|]. intros H. apply IH in H. contradiction.
  - split; discriminate.
Qed.

Lemma trim_empty (s : string) : JS.trim s = "" <-> blank s = true.
Proof.
  unfold JS.trim. now rewrite trimEnd_empty, blank_trimStart.
Qed.

Lemma trimStart_first (s : string) :
  JS.trimStart s = ""
  \/ exists c r, JS.trimStart s = String c r /\ JS.isWhiteSpace c = false.
Proof.
  induction s as [|c s IH]; [now left|]. simpl.
  destruct (JS.isWhiteSpace c) eqn:E; [exact IH|]. right. eauto.
Qed.

Lemma trimEnd_last (s : string) :
  JS.trimEnd s = ""
  \/ exists c, lastChar (JS.trimEnd s) = Some c /\ JS.isWhiteSpace c = false.
Proof.
  induction s as [|c s IH]; [now left|]. simpl.
  destruct (JS.isWhiteSpace c && String.eqb (JS.trimEnd s) "") eqn:E;
    [now left|].
  right. destruct IH as [H|(d & Hd & Hw)].
  - rewrite H in *. simpl. exists c. split; [reflexivity|].
    now rewrite andb_true_r in E.
  - exists d. split; [|exact Hw].
    destruct (JS.trimEnd s); [discriminate | exact Hd].
Qed.

Lemma trimEnd_idempotent (s : string) :
  JS.trimEnd (JS.trimEnd s) = JS.trimEnd s.
Proof.
  induction s as [|c s IH]; [reflexivity|]. simpl.
  destruct (JS.isWhiteSpace c && String.eqb (JS.trimEnd s) "") eqn:E;
    [reflexivity|].
  simpl. now rewrite IH, E.
Qed.

Lemma trim_trimmed (s : string) : blank s = false -> trimmed (JS.trim s).
Proof.
  intros Hb.
  assert (Hne : JS.trim s <> "").
  { intros E. apply trim_empty in E. congruence. }
  unfold JS.trim in *. split.
  - destruct (trimStart_first s) as [E|(c & r & E & Hc)].
    + rewrite E in Hne. contradiction.
    + rewrite E. simpl. rewrite Hc. simpl. eauto.
  - destruct (trimEnd_last (JS.trimStart s)) as [E|H]; [contradiction|].
    exact H.
Qed.

Lemma trim_idempotent (s : string) : JS.trim (JS.trim s) = JS.trim s.
Proof.
  unfold JS.trim.
  assert (H : JS.trimStart (JS.trimEnd (JS.trimStart s))
              = JS.trimEnd (JS.trimStart s)).
  { destruct (trimStart_first s) as [E|(c & r & E & Hc)].
    - now rewrite E.
    - rewrite E. simpl. rewrite Hc. simpl. now rewrite Hc. }
  rewrite H. apply trimEnd_idempotent.
Qed.

(** X13: a message is not sent exactly when the Send button is disabled:
    a request is pending or the input holds white space only. Then
    [handleSendMessage] changes nothing and sends no request. *)
Theorem chat_send_blocked :
  forall (e : string) (r : Api.Chat.reply) (st : ChatPanel.State),
    (ChatPanel.submit e st = None
     <-> ChatPanel.isLoading st = true \/ blank (ChatPanel.inputValue st) = true)
    /\ (ChatPanel.sendDisabled st = true <-> ChatPanel.submit e st = None)
    /\ (ChatPanel.sendDisabled st = true ->
        ChatPanel.handleSendMessage e r st = st).
Proof.
  intros e r st.
  assert (H : ChatPanel.submit e st = None
              <-> ChatPanel.isLoading st = true
                  \/ blank (ChatPanel.inputValue st) = true).
  { unfold ChatPanel.submit. rewrite <- trim_empty.
    destruct (String.eqb_spec (JS.trim (ChatPanel.inputValue st)) "") as [E|E];
      destruct (ChatPanel.isLoading st); simpl;
      split; try reflexivity; try discriminate; try tauto.
    intros [H|H]; [discriminate | contradiction]. }
  assert (D : ChatPanel.sendDisabled st = true
              <-> ChatPanel.submit e st = None).
  { rewrite H. unfold ChatPanel.sendDisabled. rewrite <- trim_empty.
    rewrite orb_true_iff, String.eqb_eq. reflexivity. }
  split; [exact H|]. split; [exact D|].
  intros Hd. apply D in Hd. unfold ChatPanel.handleSendMessage.
  now rewrite Hd.
Qed.

(** X14: from an idle panel whose input is not blank, one run of
    [handleSendMessage] appends exactly two messages to those shown, none of
    which changes: the input, trimmed, with the emotion current at the time,
    then the answer. The text sent is neither empty nor bordered by white
    space; the input is emptied and the panel idle again. *)
Theorem chat_send_appends_two :
  forall (e : string) (r : Api.Chat.reply) (st : ChatPanel.State),
    ChatPanel.isLoading st = false ->
    blank (ChatPanel.inputValue st) = false ->
    ChatPanel.handleSendMessage e r st
    = {| ChatPanel.messages :=
           (ChatPanel.messages st
            ++ [ {| ChatPanel.role := "user";
                    ChatPanel.content :=
                      Some (JS.trim (ChatPanel.inputValue st));
                    ChatPanel.emotion := Some e |};
                 {| ChatPanel.role := "assistant";
                    ChatPanel.content :=
                      Api.Chat.response (Api.Chat.sendChatMessage r);
                    ChatPanel.emotion :=
                      Api.Chat.emotion_detected (Api.Chat.sendChatMessage r)
                 |} ])%list;
         ChatPanel.inputValue := "";
         ChatPanel.isLoading := false |}
    /\ option_map snd (ChatPanel.submit e st)
       = Some (JS.trim (ChatPanel.inputValue st), e)
    /\ trimmed (JS.trim (ChatPanel.inputValue st))
    /\ JS.trim (JS.trim (ChatPanel.inputValue st))
       = JS.trim (ChatPanel.inputValue st).
Proof.
  intros e r st Hl Hb.
  assert (Hne : String.eqb (JS.trim (ChatPanel.inputValue st)) "" = false).
  { apply String.eqb_neq. intros E. apply trim_empty in E. congruence. }
  unfold ChatPanel.handleSendMessage, ChatPanel.submit.
  rewrite Hne, Hl. simpl. unfold ChatPanel.receive. simpl.
  rewrite <- app_assoc. simpl.
  repeat split; auto using trim_idempotent.
  - now apply trim_trimmed.
  - now apply trim_trimmed.
Qed.

Lemma chat_send_appends_two_witness :
  ChatPanel.isLoading (ChatPanel.setInputValue "  hello " ChatPanel.initial)
  = false
  /\ blank (ChatPanel.inputValue
              (ChatPanel.setInputValue "  hello " ChatPanel.initial)) = false
  /\ ChatPanel.messages
       (ChatPanel.handleSendMessage "happy" (Api.Chat.Rejected "Network Error")
          (ChatPanel.setInputValue "  hello " ChatPanel.initial))
     = [ ChatPanel.greeting;
         {| ChatPanel.role := "user";
            ChatPanel.content := Some "hello";
            ChatPanel.emotion := Some "happy" |};
         {| ChatPanel.role := "assistant";
            ChatPanel.content :=
              Some "Sorry, I encountered an error. Please try again.";
            ChatPanel.emotion := None |} ].
Proof.
  split; [reflexivity|]. split; [reflexivity|].
  rewrite (proj1 (chat_send_appends_two "happy"
                    (Api.Chat.Rejected "Network Error")
                    (ChatPanel.setInputValue "  hello " ChatPanel.initial)
                    eq_refl eq_refl)).
  reflexivity.
Defined.

Lemma turns_snoc (roles : list string) :
  ((Dialogue.turns roles false = true ->
    Dialogue.turns (roles ++ ["user"]) true = true)
   /\ (Dialogue.turns roles true = true ->
       Dialogue.turns (roles ++ ["assistant"]) false = true))
  /\ forall a,
       (Dialogue.turns (a :: roles) false = true ->
        Dialogue.turns ((a :: roles) ++ ["user"]) true = true)
       /\ (Dialogue.turns (a :: roles) true = true ->
           Dialogue.turns ((a :: roles) ++ ["assistant"]) false = true).
Proof.
  induction roles as [|b roles IH].
  - split; [split; [reflexivity | discriminate]|].
    intros a. simpl. rewrite andb_false_r. split; [discriminate|].
    intros H. now rewrite H.
  - destruct IH as [[IH1 IH2] IH3]. split; [exact (IH3 b)|].
    intros a. simpl.
    split; intros H; apply andb_true_iff in H as [Ha H];
      apply andb_true_iff in H as [Hb H]; rewrite Ha, Hb; simpl;
      [now apply IH1 | now apply IH2].
Qed.

Lemma step_conversation (ev : Dialogue.event) (st : ChatPanel.State) :
  Dialogue.conversation st = true ->
  Dialogue.conversation (Dialogue.step st ev) = true.
Proof.
  intros H. unfold Dialogue.conversation in *.
  destruct (ChatPanel.messages st) as [|m ms] eqn:Em; [discriminate|].
  apply andb_true_iff in H as [Hm H].
  destruct ev as [v|e|r]; simpl.
  - destruct (ChatPanel.isLoading st) eqn:El; simpl; rewrite Em;
      rewrite ?El, Hm; exact H.
  - unfold ChatPanel.submit.
    destruct (String.eqb (JS.trim (ChatPanel.inputValue st)) ""
              || ChatPanel.isLoading st) eqn:G.
    + rewrite Em, Hm. exact H.
    + apply orb_false_iff in G as [_ El]. rewrite El in H.
      simpl. rewrite Em. simpl. rewrite Hm, map_app. simpl.
      now apply (proj1 (turns_snoc (map ChatPanel.role ms))).
  - destruct (ChatPanel.isLoading st) eqn:El.
    + simpl. rewrite Em. simpl. rewrite Hm, map_app. simpl.
      now apply (proj1 (turns_snoc (map ChatPanel.role ms))).
    + rewrite Em, El, Hm. exact H.
Qed.

(** X15: after any typing, sending and answering, the conversation starts
    with the greeting and then alternates one message of the user and one
    of the assistant, the last message of the user being unanswered exactly
    while its request is pending: a pending request blocks every other
    sending. *)
Theorem chat_conversation_alternates :
  forall evs : list Dialogue.event,
    Dialogue.conversation (Dialogue.run evs ChatPanel.initial) = true
    /\ hd_error (ChatPanel.messages (Dialogue.run evs ChatPanel.initial))
       = Some ChatPanel.greeting.
Proof.
  intros evs.
  assert (H : forall st,
             Dialogue.conversation st = true ->
             Dialogue.conversation (Dialogue.run evs st) = true
             /\ hd_error (ChatPanel.messages (Dialogue.run evs st))
                = hd_error (ChatPanel.messages st)).
  { induction evs as [|ev evs IH]; intros st Hc; [now split|].
    change (Dialogue.run (ev :: evs) st)
      with (Dialogue.run evs (Dialogue.step st ev)).
    destruct (IH _ (step_conversation ev st Hc)) as [H1 H2].
    split; [exact H1|]. rewrite H2.
    unfold Dialogue.conversation in Hc.
    destruct (ChatPanel.messages st) as [|m ms] eqn:Em; [discriminate|].
    destruct ev as [v|e|r]; simpl.
    - destruct (ChatPanel.isLoading st); simpl; now rewrite Em.
    - unfold ChatPanel.submit.
      destruct (String.eqb (JS.trim (ChatPanel.inputValue st)) ""
                || ChatPanel.isLoading st); simpl; now rewrite Em.
    - destruct (ChatPanel.isLoading st); simpl; now rewrite Em. }
  apply (H ChatPanel.initial). reflexivity.
Qed.

(** X16: after any typing, sending and answering, every message of the
    user in the conversation is a text that is neither empty nor bordered
    by white space. *)
Theorem chat_user_messages_trimmed :
  forall evs : list Dialogue.event,
    Forall (fun m => ChatPanel.role m = "user" ->
                     exists c, ChatPanel.content m = Some c /\ trimmed c)
           (ChatPanel.messages (Dialogue.run evs ChatPanel.initial)).
Proof.
  intros evs.
  assert (H : forall st,
             Forall (fun m => ChatPanel.role m = "user" ->
                              exists c, ChatPanel.content m = Some c
                                        /\ trimmed c)
                    (ChatPanel.messages st) ->
             Forall (fun m => ChatPanel.role m = "user" ->
                              exists c, ChatPanel.content m = Some c
                                        /\ trimmed c)
                    (ChatPanel.messages (Dialogue.run evs st))).
  { induction evs as [|ev evs IH]; intros st Hst; [exact Hst|].
    change (Dialogue.run (ev :: evs) st)
      with (Dialogue.run evs (Dialogue.step st ev)).
    apply IH. destruct ev as [v|e|r]; simpl.
    - now destruct (ChatPanel.isLoading st).
    - unfold ChatPanel.submit.
      destruct (String.eqb_spec (JS.trim (ChatPanel.inputValue st)) "")
        as [E|E]; simpl; [exact Hst|].
      destruct (ChatPanel.isLoading st); simpl; [exact Hst|].
      apply Forall_app. split; [exact Hst|].
      constructor; [|constructor]. intros _. simpl.
      eexists. split; [reflexivity|]. apply trim_trimmed.
      destruct (blank (ChatPanel.inputValue st)) eqn:B; [|reflexivity].
      apply trim_empty in B. contradiction.
    - destruct (ChatPanel.isLoading st); [|exact Hst]. simpl.
      apply Forall_app. split; [exact Hst|].
      constructor; [|constructor]. simpl. discriminate. }
  apply (H ChatPanel.initial). repeat constructor. simpl. discriminate.
Qed.

(** ** The selected video *)

Lemma isVideo_some (fileType : string -> string) (file : option string) :
  VideoUpload.isVideo fileType file = true -> exists f, file = Some f.
Proof.
  destruct file as [f|]; [eauto | discriminate].
Qed.

Lemma accept_consistent (fileType : string -> string) (file : option string)
  (app : App.State) (up : VideoUpload.State) :
  App.inputMode app = "video" ->
  VideoUpload.isVideo fileType file = true ->
  Shell.consistent fileType
    (Shell.forward {| VideoUpload.selected := file;
                      VideoUpload.alerted := None |} app,
     {| VideoUpload.selectedFile := file |}).
Proof.
  intros Hm Hv. destruct (isVideo_some _ _ Hv) as (f & ->).
  unfold Shell.consistent, Shell.forward. simpl.
  split; [now right|]. split; [now right|].
  rewrite Hm. discriminate.
Qed.

Lemma step_consistent (fileType : string -> string) (st : Shell.state)
  (ev : Shell.event) :
  Shell.consistent fileType st ->
  Shell.consistent fileType (Shell.step fileType st ev).
Proof.
  destruct st as [app up]. intros H.
  destruct ev as [file|file|mode]; simpl.
  - destruct (String.eqb_spec (App.inputMode app) "video") as [Hm|Hm];
      [|exact H].
    unfold VideoUpload.handleFileSelect.
    destruct (VideoUpload.isVideo fileType file) eqn:Hv;
      [now apply accept_consistent | exact H].
  - destruct (String.eqb_spec (App.inputMode app) "video") as [Hm|Hm];
      [|exact H].
    unfold VideoUpload.handleDrop.
    destruct (VideoUpload.isVideo fileType file) eqn:Hv;
      [now apply accept_consistent | exact H].
  - destruct H as (H1 & H2 & H3). unfold App.handleModeChange.
    destruct (String.eqb_spec mode "webcam") as [Hm|Hm]; simpl.
    + split; [exact H1|]. split; [now left | reflexivity].
    + split; [exact H1|]. split; [exact H2|]. intros E. contradiction.
Qed.

(** X17: after any picking, dropping and mode changes from the start, a
    file that either component holds is a video; [App] holds no other file
    than the one the upload panel shows; and in webcam mode [App] holds no
    video. *)
Theorem selected_video_consistent :
  forall (fileType : string -> string) (evs : list Shell.event),
    Shell.consistent fileType (Shell.run fileType evs Shell.initial).
Proof.
  intros fileType evs.
  assert (H : forall st, Shell.consistent fileType st ->
                         Shell.consistent fileType (Shell.run fileType evs st)).
  { induction evs as [|ev evs IH]; intros st Hst; [exact Hst|].
    apply (IH (Shell.step fileType st ev)). now apply step_consistent. }
  apply H. simpl. split; [now left|]. split; [now left | reflexivity].
Qed.

(** X18: the two components keep the selection apart. After a video is
    picked, a change to webcam mode and back to video mode leaves the
    upload panel showing the file while [App] holds none. *)
Theorem mode_change_forgets_video_in_App_only :
  forall (fileType : string -> string) (f : string) (app : App.State)
         (up : VideoUpload.State),
    App.inputMode app = "video" ->
    VideoUpload.isVideo fileType (Some f) = true ->
    App.selectedVideo
      (fst (Shell.run fileType [Shell.Picked (Some f)] (app, up))) = Some f
    /\ App.selectedVideo
         (fst (Shell.run fileType
                 [Shell.Picked (Some f); Shell.Mode "webcam";
                  Shell.Mode "video"] (app, up))) = None
    /\ VideoUpload.selectedFile
         (snd (Shell.run fileType
                 [Shell.Picked (Some f); Shell.Mode "webcam";
                  Shell.Mode "video"] (app, up))) = Some f.
Proof.
  intros fileType f app up Hm Hv.
  assert (E : Shell.step fileType (app, up) (Shell.Picked (Some f))
              = (App.setSelectedVideo (Some f) app,
                 {| VideoUpload.selectedFile := Some f |})).
  { unfold Shell.step, VideoUpload.handleFileSelect. rewrite Hm, Hv.
    reflexivity. }
  unfold Shell.run. cbn [fold_left]. rewrite E.
  repeat split.
Qed.

Lemma mode_change_forgets_video_in_App_only_witness :
  App.inputMode (App.handleModeChange "video" App.initial) = "video"
  /\ VideoUpload.isVideo Fixture.fileType (Some "clip.mp4") = true
  /\ App.selectedVideo
       (fst (Shell.run Fixture.fileType [Shell.Picked (Some "clip.mp4")]
               (App.handleModeChange "video" App.initial,
                VideoUpload.initial))) = Some "clip.mp4"
  /\ App.selectedVideo
       (fst (Shell.run Fixture.fileType
               [Shell.Picked (Some "clip.mp4"); Shell.Mode "webcam";
                Shell.Mode "video"]
               (App.handleModeChange "video" App.initial,
                VideoUpload.initial))) = None
  /\ VideoUpload.selectedFile
       (snd (Shell.run Fixture.fileType
               [Shell.Picked (Some "clip.mp4"); Shell.Mode "webcam";
                Shell.Mode "video"]
               (App.handleModeChange "video" App.initial,
                VideoUpload.initial))) = Some "clip.mp4".
Proof.
  split; [reflexivity|]. split; [reflexivity|].
  apply (mode_change_forgets_video_in_App_only Fixture.fileType "clip.mp4"
           (App.handleModeChange "video" App.initial) VideoUpload.initial);
    reflexivity.
Defined.

(** ** The camera panel and the chat *)


Lemma step_in_sync (t : Camera.tick) (app : App.State)
  (cam : CameraPanel.State) :
  App.currentEmotion app = CameraPanel.emotion cam ->
  CameraPanel.isDetecting cam = false ->
  App.currentEmotion (fst (Camera.step (app, cam) t))
  = CameraPanel.emotion (snd (Camera.step (app, cam) t))
  /\ CameraPanel.isDetecting (snd (Camera.step (app, cam) t)) = false.
Proof.
  intros Hs Hd. unfold Camera.step, CameraPanel.captureAndDetect.
  rewrite (setIsDetecting_idle cam Hd).
  destruct (Camera.webcam t && negb (CameraPanel.isDetecting cam));
    [|now split].
  destruct (CameraPanel.truthy_string (Camera.imageSrc t)); [|now split].
  destruct (Api.detectEmotion (Camera.reply t)) as [result|]; [|now split].
  destruct (CameraPanel.truthy_string (Api.error result)); now split.
Qed.

(** X20: the emotion [App] passes on to the chat is always the emotion the
    camera panel shows: after any runs of the detection from the start the
    two agree, and the panel is idle between runs. *)
Theorem camera_emotion_in_sync :
  forall ts : list Camera.tick,
    App.currentEmotion (fst (Camera.run ts (App.initial, CameraPanel.initial)))
    = CameraPanel.emotion
        (snd (Camera.run ts (App.initial, CameraPanel.initial)))
    /\ CameraPanel.isDetecting
         (snd (Camera.run ts (App.initial, CameraPanel.initial))) = false.
Proof.
  intros ts.
  assert (H : forall st,
             App.currentEmotion (fst st) = CameraPanel.emotion (snd st) ->
             CameraPanel.isDetecting (snd st) = false ->
             App.currentEmotion (fst (Camera.run ts st))
             = CameraPanel.emotion (snd (Camera.run ts st))
             /\ CameraPanel.isDetecting (snd (Camera.run ts st)) = false).
  { induction ts as [|t ts IH]; intros st Hs Hd; [now split|].
    change (Camera.run (t :: ts) st)
      with (Camera.run ts (Camera.step st t)).
    destruct st as [app cam].
    destruct (step_in_sync t app cam Hs Hd) as [H1 H2].
    now apply IH. }
  apply (H (App.initial, CameraPanel.initial)); reflexivity.
Qed.
